(** * Facility classification and batch enrichment of outlets

    A shallow embedding of the coordinate parser ([data_loader.py]), the
    facility classifier and geo-query client ([api_handler.py]) and the batch
    orchestrator and summary builder ([facility_analyzer.py]), followed by
    the properties the specification states about them.  The embedding
    then goes on to the session around the batch run (checkpoint reader,
    manual review, sheet loader, the analysis phase of [main.py] and the
    province file names of [config.py]), with further properties of the
    whole.

    Conventions of the embedding.
    - A Python [str] is a [string] whose characters are the code points
      below 256; [lower], [strip] and [split] are the Python methods
      restricted to that range.
    - A Python [dict] with string keys is a [gmap string _]; a set of names
      is a [gset string].
    - The builtin [float] is not part of the repository: its conversion from
      text, the message of its [ValueError] and its formatting are the
      operations of the class [PyFloat].  Where the code computes with
      floats (the percentages of the summary), the arithmetic is that of
      binary64, taken from [PrimFloat].
    - Code that raises is a computation in the monad [M]: a function from
      the [World] (cache, network position, checkpoint file) to a [Result]
      and the next world.  Changes made before an exception persist.
    - Logging, the random pauses and the pickled cache file have no effect
      on any returned value and are left out. *)

From Stdlib Require Import Ascii String QArith Permutation.
From Stdlib Require Import Uint63 PrimFloat.
From stdpp Require Import gmap strings list fin_maps pretty.

Close Scope Q_scope.
Open Scope string_scope.
Open Scope list_scope.
Open Scope nat_scope.

(** ** Python strings *)

Module PyStr.

(** [str.isspace] for one character (code points below 256). *)
Definition is_space (c : ascii) : bool :=
  let n := nat_of_ascii c in
  ((9 <=? n) && (n <=? 13)) || ((28 <=? n) && (n <=? 32))
  || (n =? 133) || (n =? 160).

(** [str.lower] for one character: A-Z and the Latin-1 capitals. *)
Definition lower_char (c : ascii) : ascii :=
  let n := nat_of_ascii c in
  if ((65 <=? n) && (n <=? 90))
     || ((192 <=? n) && (n <=? 222) && negb (n =? 215))
  then ascii_of_nat (n + 32) else c.

Fixpoint lower (s : string) : string :=
  match s with
  | EmptyString => EmptyString
  | String c s' => String (lower_char c) (lower s')
  end.

Fixpoint startswith (p s : string) : bool :=
  match p, s with
  | EmptyString, _ => true
  | String a p', String b s' => if Ascii.eqb a b then startswith p' s' else false
  | String _ _, EmptyString => false
  end.

(** [p in s] on strings: [p] occurs in [s] as a contiguous run. *)
Fixpoint contains (p s : string) : bool :=
  startswith p s ||
  match s with
  | EmptyString => false
  | String _ s' => contains p s'
  end.

Fixpoint lstrip (s : string) : string :=
  match s with
  | EmptyString => EmptyString
  | String c s' => if is_space c then lstrip s' else s
  end.

Fixpoint rstrip (s : string) : string :=
  match s with
  | EmptyString => EmptyString
  | String c s' =>
      match rstrip s' with
      | EmptyString => if is_space c then EmptyString else String c EmptyString
      | r => String c r
      end
  end.

(** [s.strip()] *)
Definition strip (s : string) : string := rstrip (lstrip s).

(** [s.split(sep)] for a separator of one character. *)
Fixpoint split_char (sep : ascii) (s : string) : list string :=
  match s with
  | EmptyString => [EmptyString]
  | String c s' =>
      if Ascii.eqb c sep then EmptyString :: split_char sep s'
      else match split_char sep s' with
           | t :: ts => String c t :: ts
           | [] => [String c EmptyString]
           end
  end.

(** [s.split()]: the maximal runs of characters that are not whitespace. *)
Fixpoint split_ws (s : string) : list string :=
  match s with
  | EmptyString => []
  | String c s' =>
      if is_space c then split_ws s'
      else match s' with
           | EmptyString => [String c EmptyString]
           | String c' _ =>
               if is_space c' then String c EmptyString :: split_ws s'
               else match split_ws s' with
                    | t :: ts => String c t :: ts
                    | [] => [String c EmptyString]
                    end
           end
  end.

(** [c in s] for a character. *)
Fixpoint has_char (c : ascii) (s : string) : bool :=
  match s with
  | EmptyString => false
  | String a s' => Ascii.eqb a c || has_char c s'
  end.

(** No character of [s] is whitespace. *)
Fixpoint no_space (s : string) : bool :=
  match s with
  | EmptyString => true
  | String a s' => negb (is_space a) && no_space s'
  end.

(** Every character of [s] is whitespace. *)
Fixpoint all_space (s : string) : bool :=
  match s with
  | EmptyString => true
  | String a s' => is_space a && all_space s'
  end.

End PyStr.

(** ** Facility classifier ([api_handler.py]) *)

(** The tag bag of a map feature: OpenStreetMap tags are text to text. *)
Abbreviation Tags := (gmap string string).

(** The presence vector: category key to flag. *)
Abbreviation Flags := (gmap string bool).

(** [tags.get(key) in values] *)
Definition tag_in (tags : Tags) (key : string) (values : list string) : bool :=
  match tags !! key with
  | Some v => bool_decide (v ∈ values)
  | None => false
  end.

(** [tags.get(key) == value] *)
Definition tag_is (tags : Tags) (key value : string) : bool :=
  match tags !! key with
  | Some v => bool_decide (v = value)
  | None => false
  end.

(** [key in tags] *)
Definition has_tag (tags : Tags) (key : string) : bool :=
  bool_decide (is_Some (tags !! key)).

(** The truth value of [tags.get(key)]: present and not the empty text. *)
Definition tag_truthy (tags : Tags) (key : string) : bool :=
  match tags !! key with
  | Some v => negb (bool_decide (v = EmptyString))
  | None => false
  end.

(** [tags.get(key, '')]: the empty text when the key is absent. *)
Definition tag_or_empty (tags : Tags) (key : string) : string :=
  default EmptyString (tags !! key).

(** [any(keyword in name for keyword in keywords)] *)
Definition any_keyword_in (name : string) (keywords : list string) : bool :=
  existsb (fun keyword => PyStr.contains keyword name) keywords.

Definition CATEGORY_KEYS : list string :=
  ["residential"; "education"; "public_area"; "culinary"; "business_center";
   "groceries"; "convenient_stores"; "industrial"; "hospital_clinic"].

(** The dictionary literal that both the classifier and the facility check
    start from: every category mapped to [False]. *)
Definition all_false : Flags :=
  list_to_map
    [("residential", false); ("education", false); ("public_area", false);
     ("culinary", false); ("business_center", false); ("groceries", false);
     ("convenient_stores", false); ("industrial", false);
     ("hospital_clinic", false)].

(** [if cond: result[key] = True] *)
Definition mark (cond : bool) (key : string) (result : Flags) : Flags :=
  if cond then <[key := true]> result else result.

Definition residential_rule (tags : Tags) (name_lower : string) : bool :=
  tag_in tags "building" ["residential"; "apartments"; "house"; "dormitory"]
  || tag_is tags "landuse" "residential"
  || tag_is tags "amenity" "housing"
  || any_keyword_in name_lower
       ["perumahan"; "apartemen"; "rumah susun"; "asrama"; "cluster"; "villa";
        "apartment"; "residence"; "housing"; "dormitory"].

Definition education_rule (tags : Tags) (name_lower : string) : bool :=
  tag_in tags "amenity"
    ["school"; "university"; "college"; "kindergarten"; "language_school";
     "education"; "training"]
  || tag_in tags "building"
       ["school"; "university"; "college"; "kindergarten"; "education"]
  || any_keyword_in name_lower
       ["sd"; "smp"; "sma"; "smk"; "universitas"; "tk"; "paud"; "pesantren";
        "lembaga kursus"; "sekolah"; "school"; "university"; "college";
        "academy"; "institute"; "pendidikan"; "education"; "training";
        "kursus"; "course"].

Definition public_area_rule (tags : Tags) (name_lower : string) : bool :=
  tag_in tags "amenity"
    ["park"; "community_centre"; "marketplace"; "place_of_worship";
     "bus_station"; "terminal"; "bus_stop"; "ferry_terminal";
     "transportation"; "public_building"]
  || tag_in tags "leisure" ["park"; "garden"; "playground"]
  || tag_in tags "tourism" ["museum"; "gallery"; "attraction"]
  || has_tag tags "public_transport"
  || tag_in tags "aeroway" ["aerodrome"; "terminal"]
  || any_keyword_in name_lower
       ["taman kota"; "alun-alun"; "stasiun"; "terminal"; "tempat ibadah";
        "museum"; "masjid"; "gereja"; "pura"; "vihara"; "klenteng"; "mosque";
        "church"; "temple"; "synagogue"; "park"; "square"; "station";
        "public area"; "public space"].

Definition culinary_rule (tags : Tags) (name_lower : string) : bool :=
  tag_in tags "amenity"
    ["restaurant"; "cafe"; "food_court"; "fast_food"; "bar"; "pub"; "bistro"]
  || tag_in tags "shop"
       ["bakery"; "coffee"; "tea"; "convenience"; "grocery"; "supermarket";
        "food"]
  || has_tag tags "cuisine"
  || any_keyword_in name_lower
       ["restoran"; "warung makan"; "kedai kopi"; "street food"; "food court";
        "cafe"; "restaurant";
        "warung"; "warteg"; "rumah makan"; "kantin"; "angkringan"; "kedai";
        "bakery"; "bakeri"; "kue";
        "roti"; "makanan"; "minuman"; "kuliner"; "catering"; "dapur"; "food";
        "coffee"; "kopi"; "makan";
        "padang"; "stall"; "canteen"; "warmindo"; "warung mie";
        "warung bakso"; "warung nasi";
        "fried chicken"; "ayam goreng"; "ayam geprek"; "burger"; "pizza";
        "steakhouse"; "bbq";
        "barbecue"; "seafood"; "aneka"; "jus"; "juice"; "minuman"; "milk";
        "tea"; "teh"; "ice cream";
        "es krim"; "martabak"; "depot"; "eatery"; "bakso"; "mie ayam";
        "bebek"; "seafood"; "nasi";
        "gado-gado"; "sate"; "satay"; "soto"; "gulai"; "rendang"; "pecel";
        "padang"; "bistro"; "kebab"].

Definition business_center_rule (tags : Tags) (name_lower : string) : bool :=
  tag_truthy tags "shop"
  || tag_in tags "building" ["commercial"; "office"; "retail"; "supermarket"]
  || tag_in tags "amenity"
       ["marketplace"; "bank"; "atm"; "bureau_de_change"; "business_center"]
  || has_tag tags "office"
  || tag_in tags "shop"
       ["mall"; "supermarket"; "department_store"; "convenience";
        "marketplace"]
  || tag_in tags "landuse" ["commercial"; "retail"]
  || any_keyword_in name_lower
       ["gedung perkantoran"; "ruko"; "coworking space"; "perkantoran";
        "office building";
        "office tower"; "mall"; "plaza"; "pusat bisnis"; "business center";
        "pasar"; "market"; "shop";
        "toko"; "retail"; "store"; "supermarket"; "department store";
        "pusat perbelanjaan";
        "shopping center"; "shopping mall"; "plaza"; "square"; "trade center";
        "itc"; "mangga dua";
        "tanah abang"; "pasar"; "market"; "bazaar"; "hypermarket";
        "carrefour"; "giant"; "lotte mart";
        "ramayana"; "matahari"; "metro"; "transmart"; "grand indonesia";
        "central park"; "pondok indah";
        "teras kota"].

Definition groceries_rule (tags : Tags) (name_lower : string) : bool :=
  tag_in tags "shop"
    ["supermarket"; "grocery"; "greengrocer"; "butcher"; "seafood"; "deli";
     "spices"; "bakery"; "food"]
  || tag_is tags "amenity" "marketplace"
  || any_keyword_in name_lower
       ["toko kelontong"; "toko sembako"; "toko sayur"; "mini market";
        "mini mart"; "fresh market";
        "pasar tradisional"; "supermarket"; "hypermarket"; "grocery";
        "greengrocer"; "butcher"; "seafood";
        "deli"; "spices"; "bakery"; "pasar"; "market"; "swalayan"; "toserba";
        "giant"; "carrefour";
        "lottemart"; "ranch market"; "farmers market"; "transmart"; "hero";
        "brastagi"; "foodmart"; "foodhall";
        "organic"; "food market"; "superindo"; "grand lucky"; "total buah";
        "buah"; "sayur"; "vegetables";
        "fruits"; "meat"; "daging"; "food"; "makanan"; "pasaraya"; "fresh";
        "segar"; "toko buah"; "grocery";
        "groceries"; "buah segar"; "minimarket"; "foodmart"; "grosir";
        "wholesale"; "retail"; "super indo"].

Definition convenient_stores_rule (tags : Tags) (name_lower : string) : bool :=
  tag_in tags "shop" ["convenience"; "kiosk"]
  || any_keyword_in name_lower
       ["indomaret"; "alfamart"; "alfamidi"; "circle k"; "family mart";
        "lawson"; "7-eleven"; "7 eleven";
        "seven eleven"; "minimart"; "mini mart"; "mini market";
        "convenience store"; "convenience";
        "toko kelontong"; "warung kelontong"; "kios"; "kiosk"; "toko"; "mart";
        "eceran"; "ritel"; "minishop";
        "toko serba ada"; "toko kecil"; "wartel"; "kiosco"; "retail";
        "alfaexpress"; "alfa midi"; "alfa express";
        "indomart"; "alfaexpress"; "alfa"; "indomaret point"].

Definition industrial_rule (tags : Tags) (name_lower : string) : bool :=
  tag_in tags "landuse" ["industrial"; "factory"]
  || tag_in tags "building"
       ["industrial"; "factory"; "warehouse"; "manufacture"; "manufacturing"]
  || has_tag tags "industrial"
  || tag_in tags "man_made" ["works"; "factory"]
  || any_keyword_in name_lower
       ["pabrik"; "factory"; "industri"; "industrial"; "warehousing";
        "pergudangan"; "gudang"; "warehouse";
        "manufacturing"; "kawasan industri"; "workshop"; "bengkel";
        "industrial estate"; "industrial complex";
        "industrial park"; "industrial area"; "manufacture"; "logistic";
        "logistik"; "manufacturing"; "assembly";
        "assembling"; "processing"; "storage"; "fabrikasi"; "fabrication";
        "plant"; "kilang"; "depot"; "garasi";
        "maintenance"; "pemeliharaan"; "perbaikan"; "repair"; "machining";
        "welding"; "galvanizing"; "forge";
        "foundry"; "smelter"; "refinery"; "kiln"; "mill"; "manufaktur"].

Definition hospital_clinic_rule (tags : Tags) (name_lower : string) : bool :=
  tag_in tags "amenity"
    ["hospital"; "clinic"; "doctors"; "healthcare"; "dentist"; "pharmacy";
     "veterinary"; "health_centre"]
  || has_tag tags "healthcare"
  || tag_in tags "building" ["hospital"; "clinic"; "healthcare"]
  || tag_is tags "emergency" "yes"
  || any_keyword_in name_lower
       ["rumah sakit"; "hospital"; "klinik"; "clinic"; "puskesmas"; "bidan";
        "dokter"; "doctor"; "medical center";
        "pusat kesehatan"; "rs"; "apotek"; "apotik"; "pharmacy"; "medical";
        "klinik gigi"; "dental"; "dentist";
        "orthodontist"; "poliklinik"; "laboratorium"; "lab"; "laboratory";
        "radiologi"; "radiology"; "ambulance";
        "ambulans"; "icu"; "igd"; "ugd"; "emergency"; "physiotherapy";
        "fisioterapi"; "rehab"; "rehabilitasi";
        "rehabilitation"; "psikiatri"; "psychiatry"; "psikologi";
        "psychology"; "mental health"; "kesehatan jiwa";
        "health"; "medical service"; "layanan kesehatan"; "specialist";
        "spesialis"; "care"; "nursing"; "perawatan";
        "therapy"; "terapi"; "orthopaedic"; "orthopedic"; "optometrist";
        "eye"; "mata"; "neurology"; "saraf";
        "children"; "anak"; "ginekologi"; "obstetri"; "kanker"; "cancer";
        "kardiovaskular"; "cardiovascular";
        "jantung"; "heart"; "internist"; "internal"; "kulit"; "skin";
        "urologi"; "urology"; "fertility"; "reproduksi";
        "bedah"; "surgery"; "aesthetics"; "kecantikan"; "darurat";
        "intensive"; "trauma"].

(** [analyze_element_for_categories(tags, name)].  The name is lower-cased
    once (an empty name stays empty); each category is then switched on
    by its own rule in the dictionary that starts all false. *)
Definition analyze_element_for_categories (tags : Tags) (name : string)
  : Flags :=
  let result := all_false in
  let name_lower := PyStr.lower name in
  let result := mark (residential_rule tags name_lower) "residential" result in
  let result := mark (education_rule tags name_lower) "education" result in
  let result := mark (public_area_rule tags name_lower) "public_area" result in
  let result := mark (culinary_rule tags name_lower) "culinary" result in
  let result :=
    mark (business_center_rule tags name_lower) "business_center" result in
  let result := mark (groceries_rule tags name_lower) "groceries" result in
  let result :=
    mark (convenient_stores_rule tags name_lower) "convenient_stores" result in
  let result := mark (industrial_rule tags name_lower) "industrial" result in
  let result :=
    mark (hospital_clinic_rule tags name_lower) "hospital_clinic" result in
  result.

(** The subtype label of a feature already found to belong to [category]:
    the [if]/[elif] chains of [get_nearby_places_detail], first match wins.
    A category outside the nine keeps the initial label ["Unknown"]. *)
Definition place_type (category : string) (tags : Tags) (name : string)
  : string :=
  let tag := tag_or_empty tags in
  let nm := PyStr.lower name in
  let in_name k := PyStr.contains k nm in
  let in_tag k key := PyStr.contains k (tag key) in
  if bool_decide (category = "residential") then
    if tag_in tags "building" ["apartments"; "dormitory"]
    then "Apartment/Dormitory"
    else if tag_is tags "building" "house" then "House"
    else if in_name "cluster" || in_name "villa" then "Cluster/Villa"
    else if in_name "perumahan" then "Housing Complex"
    else "Residential Area"
  else if bool_decide (category = "education") then
    if in_tag "university" "amenity" || in_name "universitas"
    then "University"
    else if in_tag "school" "amenity"
            || any_keyword_in nm ["sd"; "smp"; "sma"; "smk"; "sekolah"]
    then "School"
    else if in_tag "kindergarten" "amenity"
            || any_keyword_in nm ["tk"; "paud"]
    then "Kindergarten"
    else if in_name "pesantren" then "Islamic Boarding School"
    else if in_name "kursus" || in_name "course" || in_name "training"
    then "Course/Training Center"
    else "Educational Institution"
  else if bool_decide (category = "public_area") then
    if in_tag "hospital" "amenity" || in_name "rumah sakit" || in_name "rs"
    then "Hospital"
    else if in_tag "clinic" "amenity" || in_name "klinik"
            || in_name "puskesmas"
    then "Clinic"
    else if in_tag "park" "leisure" || in_name "taman" then "Park"
    else if in_tag "place_of_worship" "amenity"
            || any_keyword_in nm
                 ["masjid"; "gereja"; "pura"; "vihara"; "klenteng"]
    then "Place of Worship"
    else if in_tag "museum" "tourism" || in_name "museum" then "Museum"
    else if in_tag "bus_station" "amenity" || in_name "terminal"
    then "Bus Station/Terminal"
    else if in_tag "station" "public_transport" || in_name "stasiun"
    then "Train/Metro Station"
    else if in_tag "terminal" "aeroway" || in_name "bandara"
            || in_name "airport"
    then "Airport"
    else "Public Facility"
  else if bool_decide (category = "culinary") then
    if in_tag "restaurant" "amenity" || in_name "restoran" then "Restaurant"
    else if in_tag "cafe" "amenity" || in_name "cafe" || in_name "kafe"
    then "Cafe"
    else if in_tag "food_court" "amenity" || in_name "food court"
    then "Food Court"
    else if in_tag "fast_food" "amenity" || in_name "fast food"
    then "Fast Food"
    else if in_name "warmindo" then "Warmindo"
    else if in_name "warung" || in_name "warteg" then "Warung"
    else if in_name "kedai" then "Kedai"
    else if in_tag "bakery" "shop" || in_name "bakery" || in_name "roti"
    then "Bakery"
    else if in_tag "coffee" "shop" || in_name "kopi" then "Coffee Shop"
    else if any_keyword_in nm
              ["ayam"; "chicken"; "bakso"; "mie"; "nasi"; "soto"; "pecel"]
    then "Food Stall"
    else "Food & Beverage"
  else if bool_decide (category = "business_center") then
    if in_tag "office" "building" || in_name "perkantoran"
    then "Office Building"
    else if in_name "ruko" then "Shophouse"
    else if in_name "coworking" then "Coworking Space"
    else if in_tag "industrial" "landuse" || in_name "kawasan industri"
    then "Industrial Area"
    else if in_tag "supermarket" "shop" || in_name "supermarket"
    then "Supermarket"
    else if in_tag "mall" "shop" || in_name "mall" || in_name "plaza"
    then "Shopping Mall"
    else if in_tag "marketplace" "amenity" || in_name "pasar"
            || in_name "market"
    then "Market"
    else if in_tag "convenience" "shop" || in_name "alfamart"
            || in_name "indomaret"
    then "Convenience Store"
    else if has_tag tags "shop" then "Shop"
    else "Commercial Area"
  else if bool_decide (category = "groceries") then
    if in_tag "supermarket" "shop" || in_name "supermarket"
    then "Supermarket"
    else if in_tag "grocery" "shop" || in_name "grocery"
            || in_name "sembako"
    then "Grocery Store"
    else if in_tag "greengrocer" "shop" || in_name "sayur" || in_name "buah"
    then "Greengrocer/Fruit Shop"
    else if in_tag "butcher" "shop" || in_name "daging" || in_name "meat"
    then "Butcher Shop"
    else if in_tag "seafood" "shop" || in_name "seafood" then "Seafood Shop"
    else if in_tag "marketplace" "amenity" || in_name "pasar"
            || in_name "market"
    then "Traditional Market"
    else if in_tag "bakery" "shop" || in_name "bakery" || in_name "roti"
    then "Bakery"
    else if in_name "kelontong" then "Small Grocery"
    else "Grocery Store"
  else if bool_decide (category = "convenient_stores") then
    if in_name "indomaret" then "Indomaret"
    else if in_name "alfamart" || in_name "alfamidi" || in_name "alfa"
    then "Alfamart/Alfamidi"
    else if in_name "circle k" then "Circle K"
    else if in_name "family mart" then "Family Mart"
    else if in_name "lawson" then "Lawson"
    else if in_name "7-eleven" || in_name "7 eleven"
            || in_name "seven eleven"
    then "7-Eleven"
    else if in_name "minimart" || in_name "mini mart"
            || in_name "mini market"
    then "Mini Market"
    else if in_tag "convenience" "shop" || in_name "convenience"
    then "Convenience Store"
    else if in_tag "kiosk" "shop" || in_name "kios" || in_name "warung"
    then "Kiosk/Small Shop"
    else "Convenience Store"
  else if bool_decide (category = "industrial") then
    if in_tag "factory" "building" || in_name "pabrik" || in_name "factory"
    then "Factory"
    else if in_tag "warehouse" "building" || in_name "gudang"
            || in_name "warehouse"
    then "Warehouse"
    else if in_tag "industrial" "landuse" || in_name "kawasan industri"
            || in_name "industrial"
    then "Industrial Area"
    else if in_tag "workshop" "industrial" || in_name "bengkel"
            || in_name "workshop"
    then "Workshop"
    else if in_tag "manufacturing" "building" || in_name "manufacturing"
            || in_name "manufaktur"
    then "Manufacturing Facility"
    else "Industrial Facility"
  else if bool_decide (category = "hospital_clinic") then
    if in_tag "hospital" "amenity" || in_name "rumah sakit"
       || in_name "hospital" || in_name "rs"
    then "Hospital"
    else if in_tag "clinic" "amenity" || in_name "klinik" || in_name "clinic"
    then "Clinic"
    else if in_tag "doctors" "amenity" || in_name "dokter"
            || in_name "doctor"
    then "Doctor's Office"
    else if in_tag "pharmacy" "amenity" || in_name "apotek"
            || in_name "apotik" || in_name "pharmacy"
    then "Pharmacy"
    else if in_tag "dentist" "amenity" || in_name "gigi" || in_name "dental"
    then "Dental Clinic"
    else if in_name "puskesmas" || in_name "health center"
            || in_name "health centre"
    then "Community Health Center"
    else if in_name "laboratory" || in_name "lab" || in_name "laboratorium"
    then "Medical Laboratory"
    else "Healthcare Facility"
  else "Unknown".

(** ** Configuration ([config.py]) *)

Definition ENABLE_CACHE : bool := true.
Definition USE_SIMPLIFIED_QUERIES : bool := true.
Definition MAX_WORKERS : nat := 8.
Definition BATCH_SIZE : nat := 1000.
Definition DEFAULT_RADIUS : Z := 100.
Definition LARGER_RADIUS : Z := 200.
Definition OVERPASS_ENDPOINTS : list string :=
  ["http://31.97.187.239:12345/api/interpreter";
   "https://overpass-api.de/api/interpreter";
   "https://overpass.kumi.systems/api/interpreter"].

(** ** Exceptions and results *)

Inductive Exn : Type :=
| ValueError (msg : string)
| KeyError (key : string)
| AttributeError
| ZeroDivisionError
| RequestException.

(** [str(e)] *)
Definition exn_str (e : Exn) : string :=
  match e with
  | ValueError msg => msg
  | KeyError key => "'" +:+ key +:+ "'"
  | AttributeError => "object has no attribute 'get'"
  | ZeroDivisionError => "integer division or modulo by zero"
  | RequestException => "request failed"
  end.

Inductive Result (A : Type) : Type :=
| Ok (value : A)
| Raise (e : Exn).
Arguments Ok {A} value.
Arguments Raise {A} e.

Definition is_ok {A : Type} (r : Result A) : bool :=
  match r with Ok _ => true | Raise _ => false end.

(** ** The builtin [float] *)

Class PyFloat : Type := {
  pyfloat : Type;
  (** [float(s)]: [None] where Python raises [ValueError]. *)
  float_of_str : string -> option pyfloat;
  (** The text of that [ValueError]. *)
  float_error : string -> string;
  (** [str(x)], as an f-string formats it. *)
  float_str : pyfloat -> string
}.

(** ** Outlets, result records and map features *)

Record Outlet : Type := {
  nama : string;
  koordinat : string
}.

(** A feature returned by the query service; [el_tags] is [None] when the
    element has no ["tags"] member. *)
Record Element : Type := {
  el_tags : option Tags
}.

(** The value [response.json()] returns.  A JSON object is described by its
    ["elements"] member and by whether it has any other member; any other
    JSON value by its truth value alone. *)
Inductive Body : Type :=
| JObject (elements : option (list Element)) (other_members : bool)
| JOther (truthy : bool).

(** [if data:] *)
Definition body_truthy (data : Body) : bool :=
  match data with
  | JObject elements other_members => bool_decide (is_Some elements) || other_members
  | JOther truthy => truthy
  end.

Record Response : Type := {
  status_code : Z;
  (** [None] when [response.json()] raises. *)
  json : option Body
}.

Section Pipeline.

Context `{PyFloat}.

(** The text of a query is fixed by the template set, the category, the
    radius and the coordinates; the network is a function of these. *)
Inductive Query : Type :=
| CategoryQuery (simplified : bool) (category : string) (radius : Z)
                (lat lon : pyfloat)
| CombinedQuery (radius : Z) (lat lon : pyfloat).

(** What the [n]-th HTTP request of a run meets: [None] is a transport
    exception (connection error, timeout), [Some r] an answer. *)
Definition Network : Type := nat -> string -> Query -> option Response.

(** The dictionary [process_outlet_with_retry] returns.  [Error] is [None]
    when the record has no ['Error'] key. *)
Record OutletResult : Type := {
  Nama_Outlet : string;
  Koordinat : string;
  Latitude : pyfloat;
  Longitude : pyfloat;
  Residential : bool;
  Education : bool;
  Public_Area : bool;
  Culinary : bool;
  Business_Center : bool;
  Groceries : bool;
  Convenient_Stores : bool;
  Industrial : bool;
  Hospital_Clinic : bool;
  Error : option string
}.

(** [api_cache], the number of HTTP requests sent so far, the number of
    times the body of the retry loop was entered, and the contents of
    [PROGRESS_FILE] ([None] while it does not exist). *)
Record World : Type := {
  api_cache : gmap string Flags;
  requests : nat;
  attempts : nat;
  progress_file : option (list OutletResult)
}.

Definition M (A : Type) : Type := World -> Result A * World.

#[export] Instance M_ret : MRet M := fun A x w => (Ok x, w).

#[export] Instance M_bind : MBind M := fun A B f m w =>
  match m w with
  | (Ok x, w') => f x w'
  | (Raise e, w') => (Raise e, w')
  end.

Definition raise {A : Type} (e : Exn) : M A := fun w => (Raise e, w).

(** [try: body / except Exception as e: handler(e)] *)
Definition try_except {A : Type} (body : M A) (handler : Exn -> M A) : M A :=
  fun w =>
    match body w with
    | (Ok x, w') => (Ok x, w')
    | (Raise e, w') => handler e w'
    end.

Definition lift {A : Type} (r : Result A) : M A := fun w => (r, w).

(** ** Coordinate parser ([data_loader.py]) *)

(** The body of the [try] block, run on the stripped text. *)
Definition parse_parts (coord_str : string) : Result (pyfloat * pyfloat) :=
  let parts :=
    if PyStr.has_char "," coord_str then PyStr.split_char "," coord_str
    else PyStr.split_ws coord_str in
  match parts with
  | [part0; part1] =>
      match float_of_str (PyStr.strip part0) with
      | None => Raise (ValueError (float_error (PyStr.strip part0)))
      | Some latitude =>
          match float_of_str (PyStr.strip part1) with
          | None => Raise (ValueError (float_error (PyStr.strip part1)))
          | Some longitude => Ok (latitude, longitude)
          end
      end
  | _ => Raise (ValueError ("Format koordinat tidak valid: " +:+ coord_str))
  end.

(** [parse_coordinates(coord_str)].  The name [coord_str] is rebound to the
    stripped text before anything else, so the message of the final
    [ValueError] quotes the stripped text. *)
Definition parse_coordinates (coord_str : string)
  : Result (pyfloat * pyfloat) :=
  let coord_str := PyStr.strip coord_str in
  match parse_parts coord_str with
  | Ok coordinates => Ok coordinates
  | Raise e =>
      Raise (ValueError ("Error saat parsing koordinat '" +:+ coord_str
                         +:+ "': " +:+ exn_str e))
  end.

(** ** Geo-query client ([api_handler.py]) *)

Section Client.

Variable net : Network.

(** [requests.post(endpoint, data=query, ...)]: one more request on the
    wire, then the answer or the exception the network has for it. *)
Definition post (endpoint : string) (query : Query) : M Response :=
  fun w =>
    let w' := {| api_cache := api_cache w;
                 requests := S (requests w);
                 attempts := attempts w;
                 progress_file := progress_file w |} in
    match net (requests w) endpoint query with
    | Some response => (Ok response, w')
    | None => (Raise RequestException, w')
    end.

(** The world once [k] more requests have been sent. *)
Definition after_requests (k : nat) (w : World) : World :=
  {| api_cache := api_cache w;
     requests := requests w + k;
     attempts := attempts w;
     progress_file := progress_file w |}.

(** What one endpoint contributes to [call_overpass_api] when it is asked
    as request number [n]: the parsed body of an answer with status 200,
    or nothing. *)
Definition endpoint_data (n : nat) (endpoint : string) (query : Query)
  : option Body :=
  match net n endpoint query with
  | Some response =>
      if bool_decide (status_code response = 200%Z) then json response
      else None
  | None => None
  end.

(** [response.json()] *)
Definition response_json (response : Response) : M Body :=
  match json response with
  | Some body => mret body
  | None => raise (ValueError "Expecting value")
  end.

(** The loop of [call_overpass_api] over a list of endpoints.  The body of
    the [try] yields [Some data] at a [return] and [None] at a [continue];
    the handler continues as well. *)
Fixpoint call_overpass_api_on (endpoints : list string) (query : Query)
  : M (option Body) :=
  match endpoints with
  | [] => mret None
  | endpoint :: rest =>
      returned ← try_except
                   (response ← post endpoint query;
                    if bool_decide (status_code response = 200%Z)
                    then data ← response_json response; mret (Some data)
                    else mret None)
                   (fun _ => mret None);
      match returned with
      | Some data => mret (Some data)
      | None => call_overpass_api_on rest query
      end
  end.

(** [call_overpass_api(query)]; the outer [None] is Python's [None]. *)
Definition call_overpass_api (query : Query) : M (option Body) :=
  call_overpass_api_on OVERPASS_ENDPOINTS query.

(** [data.get("elements", [])] *)
Definition get_elements (data : Body) : M (list Element) :=
  match data with
  | JObject elements _ => mret (default [] elements)
  | JOther _ => raise AttributeError
  end.

(** [tags = element.get("tags", {})], [name = tags.get("name", '')], then
    the classifier. *)
Definition element_categories (element : Element) : Flags :=
  let tags := default ∅ (el_tags element) in
  let name := tag_or_empty tags "name" in
  analyze_element_for_categories tags name.

(** [flags[key]] *)
Definition getitem (flags : Flags) (key : string) : M bool :=
  match flags !! key with
  | Some b => mret b
  | None => raise (KeyError key)
  end.

(** [api_cache[cache_key] = results.copy()] when the cache is enabled. *)
Definition cache_store (cache_key : string) (results : Flags) : M unit :=
  fun w =>
    if ENABLE_CACHE
    then (Ok tt, {| api_cache := <[cache_key := results]> (api_cache w);
                    requests := requests w;
                    attempts := attempts w;
                    progress_file := progress_file w |})
    else (Ok tt, w).

(** [for category in results: if element_categories[category]:
    results[category] = True] *)
Fixpoint merge_categories (categories : list string) (found results : Flags)
  : M Flags :=
  match categories with
  | [] => mret results
  | category :: rest =>
      b ← getitem found category;
      merge_categories rest found (mark b category results)
  end.

(** [all(results.values())] *)
Definition all_true (results : Flags) : bool :=
  bool_decide (map_Forall (fun _ b => b = true) results).

(** The element loop of the combined query: merge each element's
    categories and stop once every flag is set. *)
Fixpoint scan_combined (elements : list Element) (results : Flags)
  : M Flags :=
  match elements with
  | [] => mret results
  | element :: rest =>
      results ← merge_categories (map fst (map_to_list results))
                  (element_categories element) results;
      if all_true results then mret results else scan_combined rest results
  end.

(** The element loop of a query for one category: [True] at the first
    element the classifier puts in that category. *)
Fixpoint scan_category (category : string) (elements : list Element)
  : M bool :=
  match elements with
  | [] => mret false
  | element :: rest =>
      b ← getitem (element_categories element) category;
      if b : bool then mret true else scan_category category rest
  end.

Section Check.

Variables (lat lon : pyfloat) (radius : Z).

(** The loop over [category_queries.items()], one request per category. *)
Fixpoint check_each_category (categories : list string) (results : Flags)
  : M Flags :=
  match categories with
  | [] => mret results
  | category :: rest =>
      data ← call_overpass_api
               (CategoryQuery USE_SIMPLIFIED_QUERIES category radius lat lon);
      results ←
        match data with
        | Some data =>
            if body_truthy data
            then elements ← get_elements data;
                 b ← scan_category category elements;
                 mret (mark b category results)
            else mret results
        | None => mret results
        end;
      check_each_category rest results
  end.

(** [check_nearby_facilities_simple(lat, lon, radius)] *)
Definition check_nearby_facilities_simple : M Flags :=
  fun w =>
    let cache_key :=
      float_str lat +:+ "," +:+ float_str lon +:+ "," +:+ pretty radius in
    match (if ENABLE_CACHE then api_cache w !! cache_key else None) with
    | Some cached => (Ok cached, w)
    | None =>
        let results := all_false in
        let per_category :=
          results ← check_each_category CATEGORY_KEYS results;
          _ ← cache_store cache_key results;
          mret results in
        if negb USE_SIMPLIFIED_QUERIES
        then (data ← call_overpass_api (CombinedQuery radius lat lon);
              match data with
              | Some data =>
                  if body_truthy data
                  then elements ← get_elements data;
                       results ← scan_combined elements results;
                       _ ← cache_store cache_key results;
                       mret results
                  else per_category
              | None => per_category
              end) w
        else per_category w
    end.

End Check.

(** ** Batch orchestrator ([facility_analyzer.py]) *)

(** The dictionary literal [result = {...}]: the outlet's data and the
    nine flags read from [nearby_facilities]. *)
Definition make_result (nama koordinat_str : string) (lat lon : pyfloat)
    (nearby_facilities : Flags) : M OutletResult :=
  residential ← getitem nearby_facilities "residential";
  education ← getitem nearby_facilities "education";
  public_area ← getitem nearby_facilities "public_area";
  culinary ← getitem nearby_facilities "culinary";
  business_center ← getitem nearby_facilities "business_center";
  groceries ← getitem nearby_facilities "groceries";
  convenient_stores ← getitem nearby_facilities "convenient_stores";
  industrial ← getitem nearby_facilities "industrial";
  hospital_clinic ← getitem nearby_facilities "hospital_clinic";
  mret {| Nama_Outlet := nama;
          Koordinat := koordinat_str;
          Latitude := lat;
          Longitude := lon;
          Residential := residential;
          Education := education;
          Public_Area := public_area;
          Culinary := culinary;
          Business_Center := business_center;
          Groceries := groceries;
          Convenient_Stores := convenient_stores;
          Industrial := industrial;
          Hospital_Clinic := hospital_clinic;
          Error := None |}.

(** The body of the [try] in the retry loop. *)
Definition process_outlet (outlet : Outlet) (radius : Z) : M OutletResult :=
  let nama := nama outlet in
  let koordinat_str := koordinat outlet in
  '(lat, lon) ← lift (parse_coordinates koordinat_str);
  nearby_facilities ← check_nearby_facilities_simple lat lon radius;
  make_result nama koordinat_str lat lon nearby_facilities.

(** Entering the body of the retry loop. *)
Definition enter_attempt : M unit :=
  fun w => (Ok tt, {| api_cache := api_cache w;
                      requests := requests w;
                      attempts := S (attempts w);
                      progress_file := progress_file w |}).

(** [while retries < max_retries], with [remaining = max_retries - retries]:
    [Some result] at the [return], [None] when the loop runs out. *)
Fixpoint retry_loop (remaining : nat) (outlet : Outlet) (radius : Z)
  : M (option OutletResult) :=
  match remaining with
  | O => mret None
  | S remaining =>
      _ ← enter_attempt;
      returned ← try_except
                   (result ← process_outlet outlet radius; mret (Some result))
                   (fun _ => mret None);
      match returned with
      | Some result => mret (Some result)
      | None => retry_loop remaining outlet radius
      end
  end.

(** The record returned once every attempt has failed. *)
Definition failed_result (outlet : Outlet) (lat lon : pyfloat)
  : OutletResult :=
  {| Nama_Outlet := nama outlet;
     Koordinat := koordinat outlet;
     Latitude := lat;
     Longitude := lon;
     Residential := false;
     Education := false;
     Public_Area := false;
     Culinary := false;
     Business_Center := false;
     Groceries := false;
     Convenient_Stores := false;
     Industrial := false;
     Hospital_Clinic := false;
     Error := Some "Failed to process after multiple retries" |}.

(** [process_outlet_with_retry(outlet, max_retries, radius)]; the outer
    [None] is Python's [None]. *)
Definition process_outlet_with_retry
    (outlet : Outlet) (max_retries : nat) (radius : Z)
  : M (option OutletResult) :=
  returned ← retry_loop max_retries outlet radius;
  match returned with
  | Some result => mret (Some result)
  | None =>
      try_except
        ('(lat, lon) ← lift (parse_coordinates (koordinat outlet));
         mret (Some (failed_result outlet lat lon)))
        (fun _ => mret None)
  end.

Section Batch.

(** The order in which the workers of one batch complete
    ([as_completed]).  Each worker is taken to run to completion in that
    order. *)
Variable as_completed : list Outlet -> list Outlet.

(** The loop over the completed futures: [if result:
    batch_results.append(result)]. *)
Fixpoint collect_results (completed : list Outlet) (radius : Z)
  : M (list OutletResult) :=
  match completed with
  | [] => mret []
  | outlet :: rest =>
      result ← process_outlet_with_retry outlet 2 radius;
      batch_results ← collect_results rest radius;
      mret (match result with
            | Some result => result :: batch_results
            | None => batch_results
            end)
  end.

(** [json.dump(all_results, f)] into [PROGRESS_FILE]. *)
Definition save_progress (all_results : list OutletResult) : M unit :=
  fun w => (Ok tt, {| api_cache := api_cache w;
                      requests := requests w;
                      attempts := attempts w;
                      progress_file := Some all_results |}).

(** [outlets[start_idx:end_idx]] *)
Definition slice {A : Type} (l : list A) (start_idx end_idx : nat) : list A :=
  take (end_idx - start_idx) (drop start_idx l).

(** The loop [for i in range(num_batches)], over the batch numbers still
    to run. *)
Fixpoint run_batches (batch_numbers : list nat) (outlets : list Outlet)
    (batch_size : nat) (radius : Z) (all_results : list OutletResult)
  : M (list OutletResult) :=
  match batch_numbers with
  | [] => mret all_results
  | i :: rest =>
      let total_outlets := length outlets in
      let start_idx := i * batch_size in
      let end_idx := Nat.min ((i + 1) * batch_size) total_outlets in
      let batch := slice outlets start_idx end_idx in
      batch_results ← collect_results (as_completed batch) radius;
      let all_results := all_results ++ batch_results in
      _ ← save_progress all_results;
      run_batches rest outlets batch_size radius all_results
  end.

(** [batch_process_outlets(outlets, batch_size, max_workers, radius)] *)
Definition batch_process_outlets
    (outlets : list Outlet) (batch_size : nat) (radius : Z)
  : M (list OutletResult) :=
  let total_outlets := length outlets in
  if Nat.eqb batch_size 0 then raise ZeroDivisionError
  else
    let num_batches := (total_outlets + batch_size - 1) / batch_size in
    run_batches (seq 0 num_batches) outlets batch_size radius [].

(** [result.get(category, False)] for the display name of a category. *)
Definition get_flag (result : OutletResult) (category : string) : bool :=
  if bool_decide (category = "Residential") then Residential result
  else if bool_decide (category = "Education") then Education result
  else if bool_decide (category = "Public Area") then Public_Area result
  else if bool_decide (category = "Culinary") then Culinary result
  else if bool_decide (category = "Business Center")
  then Business_Center result
  else if bool_decide (category = "Groceries") then Groceries result
  else if bool_decide (category = "Convenient Stores")
  then Convenient_Stores result
  else if bool_decide (category = "Industrial") then Industrial result
  else if bool_decide (category = "Hospital/Clinic")
  then Hospital_Clinic result
  else false.

(** The list [categories] of the orchestrator and of the summary. *)
Definition categories : list string :=
  ["Residential"; "Education"; "Public Area"; "Culinary"; "Business Center";
   "Groceries"; "Convenient Stores"; "Industrial"; "Hospital/Clinic"].

(** [any(result.get(category, False) for category in categories)] *)
Definition has_facility (result : OutletResult) : bool :=
  existsb (get_flag result) categories.

(** The loop [for i, result in enumerate(results)], from index [i]: the
    outlets rebuilt from the records without any facility, and their
    indices. *)
Fixpoint find_without_facilities (i : nat) (results : list OutletResult)
  : list Outlet * list nat :=
  match results with
  | [] => ([], [])
  | result :: rest =>
      let '(outlets, indices) := find_without_facilities (S i) rest in
      if has_facility result then (outlets, indices)
      else ({| nama := Nama_Outlet result; koordinat := Koordinat result |}
              :: outlets,
            i :: indices)
  end.

(** [for i, updated_result in zip(indices, updated_results):
    results[i] = updated_result] *)
Fixpoint write_back (indices : list nat) (updated_results : list OutletResult)
    (results : list OutletResult) : list OutletResult :=
  match indices, updated_results with
  | i :: indices, updated_result :: updated_results =>
      write_back indices updated_results (<[i := updated_result]> results)
  | _, _ => results
  end.

(** [increase_detection_radius(results, new_radius)] *)
Definition increase_detection_radius
    (results : list OutletResult) (new_radius : Z)
  : M (list OutletResult) :=
  let '(outlets_without_facilities, indices_without_facilities) :=
    find_without_facilities 0 results in
  match outlets_without_facilities with
  | [] => mret results
  | _ =>
      updated_results ← batch_process_outlets outlets_without_facilities
                          BATCH_SIZE new_radius;
      mret (write_back indices_without_facilities updated_results results)
  end.

End Batch.

End Client.

(** The world before anything has run: empty cache, no checkpoint. *)
Definition fresh_world : World :=
  {| api_cache := ∅; requests := 0; attempts := 0; progress_file := None |}.

(** [get_remaining_outlets(outlets, existing_results)] *)
Definition get_remaining_outlets
    (outlets : list Outlet) (existing_results : list OutletResult)
  : list Outlet :=
  match existing_results with
  | [] => outlets
  | _ =>
      let processed_names : gset string :=
        list_to_set (map Nama_Outlet existing_results) in
      filter (fun outlet => nama outlet ∉ processed_names) outlets
  end.

(** ** Summary builder ([facility_analyzer.py]) *)

(** [float(n)] for an [int] that is a count of list items: the
    conversion is exact below 2^53, which the length of a list in memory
    never reaches. *)
Definition float_of_int (n : nat) : float :=
  PrimFloat.of_uint63 (Uint63.of_Z (Z.of_nat n)).

(** The report dictionary.  A percentage is the binary64 float the code
    computes. *)
Record Summary : Type := {
  total_outlets : nat;
  category_stats : gmap string (nat * float);
  max_facilities : nat;
  best_outlets : list string
}.

(** [sum(1 for r in results if r.get(category, False))] *)
Definition category_count (results : list OutletResult) (category : string)
  : nat :=
  length (filter (fun r => get_flag r category = true) results).

(** [sum(1 for category in categories if result.get(category, False))] *)
Definition facility_count (result : OutletResult) : nat :=
  length (filter (fun category => get_flag result category = true)
                 categories).

(** The loop that fills [category_counts].  In [(count / total_outlets)
    * 100] the quotient is the true division of two ints, which for ints
    below 2^53 is the binary64 quotient of their floats, and the product
    is the binary64 product with [100.0]. *)
Fixpoint count_categories (cats : list string) (results : list OutletResult)
    (category_counts : gmap string (nat * float))
  : gmap string (nat * float) :=
  match cats with
  | [] => category_counts
  | category :: rest =>
      let count := category_count results category in
      let total_outlets := length results in
      let percentage :=
        PrimFloat.mul
          (PrimFloat.div (float_of_int count) (float_of_int total_outlets))
          100%float in
      count_categories rest results
        (<[category := (count, percentage)]> category_counts)
  end.

(** The loop that keeps the largest facility count seen and the names that
    reach it. *)
Fixpoint find_best (results : list OutletResult) (max_facilities : nat)
    (best_outlets : list string) : nat * list string :=
  match results with
  | [] => (max_facilities, best_outlets)
  | result :: rest =>
      let facility_count := facility_count result in
      if Nat.ltb max_facilities facility_count
      then find_best rest facility_count [Nama_Outlet result]
      else if Nat.eqb facility_count max_facilities
      then find_best rest max_facilities
             (best_outlets ++ [Nama_Outlet result])
      else find_best rest max_facilities best_outlets
  end.

(** [generate_summary_report(results)]; [None] for the empty list. *)
Definition generate_summary_report (results : list OutletResult)
  : option Summary :=
  match results with
  | [] => None
  | _ =>
      let '(max_facilities, best_outlets) := find_best results 0 [] in
      Some {| total_outlets := length results;
              category_stats := count_categories categories results ∅;
              max_facilities := max_facilities;
              best_outlets := best_outlets |}
  end.

End Pipeline.

(** ** A decimal reading of [float], to run the pipeline on examples

    Plain decimal literals (an optional sign, digits, at most one point)
    read as exact rationals.  Python's [float] accepts more and rounds to
    binary64; the general theorems below hold for every [PyFloat], this
    instance only supplies concrete inputs. *)

Module Decimal.

Definition digit_of (c : ascii) : option Z :=
  let n := nat_of_ascii c in
  if (48 <=? n) && (n <=? 57) then Some (Z.of_nat (n - 48)) else None.

Fixpoint digits (s : string) (mantissa : Z) (denominator : positive)
    (after_point seen_digit : bool) : option Q :=
  match s with
  | EmptyString =>
      if seen_digit then Some (Qmake mantissa denominator) else None
  | String c s' =>
      if Ascii.eqb c "." then
        if after_point then None
        else digits s' mantissa denominator true seen_digit
      else
        match digit_of c with
        | Some d =>
            digits s' (10 * mantissa + d)%Z
              (if after_point then (10 * denominator)%positive
               else denominator)
              after_point true
        | None => None
        end
  end.

Definition of_str (s : string) : option Q :=
  match s with
  | String "-" s' => Qopp <$> digits s' 0 1 false false
  | String "+" s' => digits s' 0 1 false false
  | _ => digits s 0 1 false false
  end.

Definition to_str (x : Q) : string :=
  pretty (Qnum x) +:+ "/" +:+ pretty (Z.pos (Qden x)).

Definition floats : PyFloat :=
  {| pyfloat := Q;
     float_of_str := of_str;
     float_error := fun s =>
       "could not convert string to float: '" +:+ s +:+ "'";
     float_str := to_str |}.

End Decimal.

(** ** Sample inputs *)

Module Examples.

#[local] Existing Instance Decimal.floats.

(** Every request meets a transport exception. *)
Definition net_down : Network := fun _ _ _ => None.

(** Every request is answered with status 200 and a JSON array. *)
Definition net_array : Network :=
  fun _ _ _ => Some {| status_code := 200; json := Some (JOther true) |}.

(** The first request is answered with status 200 and a body that is not
    JSON; every later one with status 200 and an empty element list. *)
Definition net_bad_first : Network :=
  fun n _ _ =>
    match n with
    | O => Some {| status_code := 200; json := None |}
    | S _ => Some {| status_code := 200;
                     json := Some (JObject (Some []) false) |}
    end.

(** Every request is answered with status 200 and the one feature tagged
    [amenity=restaurant] and named "Warung Bu Tutik". *)
Definition net_warung : Network :=
  fun _ _ _ =>
    Some {| status_code := 200;
            json := Some (JObject
                            (Some [{| el_tags :=
                                        Some {[ "amenity" := "restaurant";
                                                "name" := "Warung Bu Tutik" ]}
                                   |}])
                            false) |}.

Definition outlet_a : Outlet :=
  {| nama := "Outlet A"; koordinat := "-6.2, 106.8" |}.

Definition outlet_b : Outlet :=
  {| nama := "Outlet B"; koordinat := "-7.78 110.37" |}.

Definition outlet_c : Outlet :=
  {| nama := "Outlet C"; koordinat := "lokasi tidak diketahui" |}.

(** A record with the given flags for Residential and Culinary and every
    other flag false. *)
Definition record_of (outlet : Outlet) (lat lon : Q)
    (residential culinary : bool) : OutletResult :=
  {| Nama_Outlet := nama outlet; Koordinat := koordinat outlet;
     Latitude := lat; Longitude := lon;
     Residential := residential; Education := false; Public_Area := false;
     Culinary := culinary; Business_Center := false; Groceries := false;
     Convenient_Stores := false; Industrial := false;
     Hospital_Clinic := false; Error := None |}.

End Examples.

(** * The session around the batch run

    The checkpoint reader and the manual review ([facility_analyzer.py]),
    the sheet loader ([data_loader.py]) and the analysis phase of [main]
    ([main.py]), which ties them to the batch orchestrator. *)

(** ** Upper case ([str.upper])

    One character may become two: the sharp s becomes SS.  The capitals of
    the micro sign and of y with diaeresis lie above code point 255; these
    two characters are kept as they are, which leaves every test for an
    ASCII keyword in the upper-cased text as Python has it. *)

Definition upper_char (c : ascii) : string :=
  let n := nat_of_ascii c in
  if n =? 223 then "SS"
  else if ((97 <=? n) && (n <=? 122))
          || ((224 <=? n) && (n <=? 254) && negb (n =? 247))
  then String (ascii_of_nat (n - 32)) EmptyString
  else String c EmptyString.

Fixpoint upper (s : string) : string :=
  match s with
  | EmptyString => EmptyString
  | String c s' => upper_char c +:+ upper s'
  end.

(** ** Sheet loader ([data_loader.py]) *)

(** One record of [sheet.get_all_records()]: the column headers of the
    sheet, in the order of the sheet and without repetition, each with the
    text [str(cell)] of the row's cell. *)
Definition Row : Type := list (string * string).

(** [row[column]]; [None] is the [KeyError]. *)
Fixpoint row_get (row : Row) (column : string) : option string :=
  match row with
  | [] => None
  | (key, cell) :: rest =>
      if bool_decide (key = column) then Some cell else row_get rest column
  end.

(** The first header whose upper-case form contains [keyword]. *)
Definition find_column (keyword : string) (column_keys : list string)
  : option string :=
  List.find (fun col => PyStr.contains keyword (upper col)) column_keys.

(** [not column]: no header found, or the empty header. *)
Definition no_column (column : option string) : bool :=
  match column with
  | None => true
  | Some col => bool_decide (col = EmptyString)
  end.

Section Loader.

Context `{PyFloat}.

(** The body of the loop over the rows: the outlet appended for the row,
    or [None] where the row is passed over. *)
Definition row_outlet (name_column coord_column : string) (row : Row)
  : option Outlet :=
  cell_name ← row_get row name_column;
  cell_coord ← row_get row coord_column;
  let nama := PyStr.strip cell_name in
  let koordinat := PyStr.strip cell_coord in
  if bool_decide (nama = EmptyString) || bool_decide (koordinat = EmptyString)
  then None
  else
    match parse_coordinates koordinat with
    | Ok (lat, lon) =>
        Some {| nama := nama;
                koordinat := float_str lat +:+ ", " +:+ float_str lon |}
    | Raise _ => None
    end.

(** [load_data_from_spreadsheet()], given what the sheet holds: [None]
    where the client, the sheet or its records cannot be had.  Inside, a
    column is [None] as in Python, and the outer [None] is the
    [IndexError] of [data[14]], [column_keys[4]] or [column_keys[16]],
    which reaches the outer handler: the empty list is returned. *)
Definition load_data_from_spreadsheet (sheet : option (list Row))
  : list Outlet :=
  match sheet with
  | None => []
  | Some [] => []
  | Some data =>
      default []
        (sample_row ← data !! 14;
         let column_keys := map fst sample_row in
         let name_column := find_column "NAMA TOKO" column_keys in
         name_column ←
           (if no_column name_column
               && negb (bool_decide (column_keys = []))
            then Some <$> column_keys !! 4
            else Some name_column);
         let coord_column := find_column "MAPS" column_keys in
         coord_column ←
           (if no_column coord_column && (1 <? length column_keys)
            then Some <$> column_keys !! 16
            else Some coord_column);
         Some
           match name_column, coord_column with
           | Some name_column, Some coord_column =>
               if bool_decide (name_column = EmptyString)
                  || bool_decide (coord_column = EmptyString)
               then []
               else omap (row_outlet name_column coord_column) data
           | _, _ => []
           end)
  end.

End Loader.

(** ** Checkpoint, review and session ([facility_analyzer.py], [main.py]) *)

Section Session.

Context `{PyFloat}.

(** [check_resume_point()].  The checkpoint file holds the list that
    [json.dump] wrote last; an empty list is not returned as such but
    falls through to the final [return []]. *)
Definition check_resume_point : M (list OutletResult) :=
  fun w =>
    match progress_file w with
    | Some existing_results =>
        match existing_results with
        | [] => (Ok [], w)
        | _ => (Ok existing_results, w)
        end
    | None => (Ok [], w)
    end.

(** [corrected_result[category] = value] for the display name of a
    category. *)
Definition set_flag (result : OutletResult) (category : string)
    (value : bool) : OutletResult :=
  let pick (name : string) (current : bool) : bool :=
    if bool_decide (category = name) then value else current in
  {| Nama_Outlet := Nama_Outlet result;
     Koordinat := Koordinat result;
     Latitude := Latitude result;
     Longitude := Longitude result;
     Residential := pick "Residential" (Residential result);
     Education := pick "Education" (Education result);
     Public_Area := pick "Public Area" (Public_Area result);
     Culinary := pick "Culinary" (Culinary result);
     Business_Center := pick "Business Center" (Business_Center result);
     Groceries := pick "Groceries" (Groceries result);
     Convenient_Stores := pick "Convenient Stores" (Convenient_Stores result);
     Industrial := pick "Industrial" (Industrial result);
     Hospital_Clinic := pick "Hospital/Clinic" (Hospital_Clinic result);
     Error := Error result |}.

(** [input(prompt)] on a console whose pending lines are [stdin]: the
    line read and the lines left, or [None] for the [EOFError] at the end
    of the input. *)
Definition input (stdin : list string) : option (string * list string) :=
  match stdin with
  | [] => None
  | line :: rest => Some (line, rest)
  end.

(** The loop that asks for each category in turn: [y] sets the flag, [n]
    clears it, any other line keeps it. *)
Fixpoint correct_categories (cats : list string)
    (corrected_result : OutletResult) (stdin : list string)
  : option (OutletResult * list string) :=
  match cats with
  | [] => Some (corrected_result, stdin)
  | category :: rest =>
      '(response, stdin) ← input stdin;
      let corrected_result :=
        if bool_decide (PyStr.lower response = "y")
        then set_flag corrected_result category true
        else if bool_decide (PyStr.lower response = "n")
        then set_flag corrected_result category false
        else corrected_result in
      correct_categories rest corrected_result stdin
  end.

(** The loop over the records of [validate_and_correct_results]. *)
Fixpoint validate_loop (results corrected_results : list OutletResult)
    (stdin : list string) : option (list OutletResult * list string) :=
  match results with
  | [] => Some (corrected_results, stdin)
  | result :: rest =>
      '(correct, stdin) ← input stdin;
      if bool_decide (PyStr.lower correct = "y")
      then
        '(corrected_result, stdin) ← correct_categories categories result
                                       stdin;
        validate_loop rest (corrected_results ++ [corrected_result]) stdin
      else validate_loop rest (corrected_results ++ [result]) stdin
  end.

(** [validate_and_correct_results(results)], with the lines typed at the
    console: the corrected list and the lines not read. *)
Definition validate_and_correct_results (results : list OutletResult)
    (stdin : list string) : option (list OutletResult * list string) :=
  validate_loop results [] stdin.

Section Main.

Variable net : Network.

Variable as_completed : list Outlet -> list Outlet.

(** The analysis phase of [main()], from [check_resume_point()] to
    [if not results: return], given the outlets loaded from the sheet and
    the answers typed at the two prompts ([resume] is read only when a
    checkpoint was found).  [None] is a [return] without results. *)
Definition main_analysis (outlets : list Outlet) (resume proceed : string)
  : M (option (list OutletResult)) :=
  existing_results ← check_resume_point;
  let existing_results :=
    match existing_results with
    | [] => []
    | _ => if bool_decide (PyStr.lower resume = "y") then existing_results
           else []
    end in
  match outlets with
  | [] => mret None
  | _ =>
      results ←
        match existing_results with
        | _ :: _ =>
            let outlets := get_remaining_outlets outlets existing_results in
            match outlets with
            | [] => mret (Some existing_results)
            | _ =>
                if bool_decide (PyStr.lower proceed = "y")
                then
                  new_results ← batch_process_outlets net as_completed
                                  outlets BATCH_SIZE DEFAULT_RADIUS;
                  mret (Some (existing_results ++ new_results))
                else mret None
            end
        | [] =>
            if bool_decide (PyStr.lower proceed = "y")
            then
              results ← batch_process_outlets net as_completed outlets
                          BATCH_SIZE DEFAULT_RADIUS;
              mret (Some results)
            else mret None
        end;
      match results with
      | Some [] | None => mret None
      | Some results => mret (Some results)
      end
  end.

End Main.

End Session.

(** ** Province file names ([config.py]) *)

(** The ['filename'] entries of [PROVINCE_BOUNDS]. *)
Definition PROVINCE_FILENAMES : gmap string string :=
  {[ "JAKARTA" := "dki_jakarta";
     "JAWA BARAT" := "jawa_barat";
     "JAWA TENGAH" := "jawa_tengah";
     "SUMBAGSEL" := "sumatera_selatan";
     "SUMBAGUT" := "sumatera_utara";
     "JATIMBANUSKAL" := "jatimbanuskal";
     "SULTER" := "sulter" ]}.

Definition PROVINCE_MAP_PREFIX : string := "peta_outlet_".
Definition PROVINCE_MAP_SUFFIX : string := ".html".

(** [s.replace(old, new)] for single characters. *)
Fixpoint replace_char (old new : ascii) (s : string) : string :=
  match s with
  | EmptyString => EmptyString
  | String c s' =>
      String (if Ascii.eqb c old then new else c) (replace_char old new s')
  end.

(** [get_province_filename(province_name)] *)
Definition get_province_filename (province_name : string) : string :=
  match PROVINCE_FILENAMES !! province_name with
  | Some filename => filename
  | None =>
      replace_char "/" "_" (replace_char " " "_" (PyStr.lower province_name))
  end.

(** [get_province_map_filename(province_name)] *)
Definition get_province_map_filename (province_name : string) : string :=
  let filename := get_province_filename province_name in
  PROVINCE_MAP_PREFIX +:+ filename +:+ PROVINCE_MAP_SUFFIX.

(** ** Floats kept as their literal text

    A second reading of [float] for examples that print coordinates: a
    value is the decimal literal it was read from, and prints as that
    literal. *)

Module Literal.

Definition of_str (s : string) : option string :=
  match Decimal.of_str s with
  | Some _ => Some s
  | None => None
  end.

Definition floats : PyFloat :=
  {| pyfloat := string;
     float_of_str := of_str;
     float_error := fun s =>
       "could not convert string to float: '" +:+ s +:+ "'";
     float_str := fun x => x |}.

End Literal.

(** ** Sample sheet and console *)

Module Samples.

Import Examples.

#[local] Existing Instance Decimal.floats.

(** The record of Outlet A with housing and a restaurant nearby, and the
    record of Outlet B with nothing nearby. *)
Definition record_a : OutletResult :=
  record_of outlet_a (Qmake (-62) 10) (Qmake 1068 10) true true.

Definition record_b : OutletResult :=
  record_of outlet_b (Qmake (-778) 100) (Qmake 11037 100) false false.

(** The world of a session that finds the record of Outlet A in the
    checkpoint. *)
Definition world_resumed : World :=
  {| api_cache := ∅; requests := 0; attempts := 0;
     progress_file := Some [record_a] |}.

(** A row of a sheet with seventeen columns, the fifth headed
    [Nama Toko] and the last [Link Maps]. *)
Definition sheet_row (name coordinates : string) : Row :=
  [("No", "1"); ("Tanggal", "2024-01-01"); ("Sales", "Budi");
   ("Area", "Sleman"); ("Nama Toko", name); ("Alamat", "Jl. Kaliurang");
   ("Kelurahan", "-"); ("Kecamatan", "-"); ("Kota", "-"); ("Provinsi", "-");
   ("Telepon", "-"); ("Pemilik", "-"); ("Tipe", "-"); ("Status", "-");
   ("Catatan", "-"); ("Foto", "-"); ("Link Maps", coordinates)].

(** Fifteen rows: the first with coordinates, the second without, the
    others copies of the first under other names. *)
Definition sheet : list Row :=
  sheet_row " Toko Maju " "-7.78 110.37"
  :: sheet_row "Toko Tanpa Lokasi" "belum ada"
  :: map (fun name => sheet_row name "-6.2, 106.8")
       ["T3"; "T4"; "T5"; "T6"; "T7"; "T8"; "T9"; "T10"; "T11"; "T12";
        "T13"; "T14"; "T15"].

End Samples.

(** * Properties *)

(** ** Python strings *)

Module PyStrFacts.
Import PyStr.

#[local] Arguments String.append !_ _ / : simpl nomatch.

Lemma startswith_app (s t : string) : startswith s (s +:+ t) = true.
Proof.
  induction s as [|c s IH]; simpl; [done|]. by rewrite Ascii.eqb_refl.
Qed.

Lemma contains_startswith (p s : string) :
  startswith p s = true → contains p s = true.
Proof. destruct s; simpl; intros ->; done. Qed.

Lemma contains_app (p s q : string) : contains s (p +:+ s +:+ q) = true.
Proof.
  induction p as [|c p IH].
  - change (contains s (s +:+ q) = true).
    apply contains_startswith. apply (startswith_app s q).
  - change (contains s (String c (p +:+ s +:+ q)) = true).
    cbn [contains]. rewrite IH. apply orb_true_r.
Qed.

Lemma comma_not_space : is_space "," = false.
Proof. reflexivity. Qed.

Lemma lstrip_no_space (s : string) : no_space s = true → lstrip s = s.
Proof.
  destruct s as [|c s]; simpl; [done|].
  intros [Hc _]%andb_true_iff. apply negb_true_iff in Hc. by rewrite Hc.
Qed.

Lemma lstrip_all_space (ws s : string) :
  all_space ws = true → lstrip (ws +:+ s) = lstrip s.
Proof.
  induction ws as [|c ws IH]; simpl; [done|].
  intros [Hc Hws]%andb_true_iff. rewrite Hc. by apply IH.
Qed.

Lemma lstrip_only_space (ws : string) : all_space ws = true → lstrip ws = EmptyString.
Proof.
  induction ws as [|c ws IH]; simpl; [done|].
  intros [Hc Hws]%andb_true_iff. rewrite Hc. by apply IH.
Qed.

Lemma rstrip_all_space (ws : string) : all_space ws = true → rstrip ws = EmptyString.
Proof.
  induction ws as [|c ws IH]; simpl; [done|].
  intros [Hc Hws]%andb_true_iff. by rewrite IH, Hc.
Qed.

Lemma rstrip_app_all_space (s ws : string) :
  no_space s = true → all_space ws = true → rstrip (s +:+ ws) = s.
Proof.
  intros Hs Hws. induction s as [|c s IH]; simpl.
  - by apply rstrip_all_space.
  - simpl in Hs. apply andb_true_iff in Hs as [Hc Hs].
    apply negb_true_iff in Hc. rewrite IH by done.
    destruct s; [by rewrite Hc|done].
Qed.

Lemma rstrip_no_space (s : string) : no_space s = true → rstrip s = s.
Proof.
  induction s as [|c s IH]; simpl; [done|].
  intros [Hc Hs]%andb_true_iff. apply negb_true_iff in Hc.
  rewrite IH by done. destruct s; [by rewrite Hc|done].
Qed.

(** Text that ends in a token keeps its end under [rstrip]. *)
Lemma rstrip_app_token (s t : string) :
  t ≠ EmptyString → no_space t = true → rstrip (s +:+ t) = s +:+ t.
Proof.
  intros Hne Ht. induction s as [|c s IH]; simpl.
  - by apply rstrip_no_space.
  - rewrite IH. destruct (s +:+ t) eqn:E; [|done].
    destruct s; simpl in E; [done|discriminate].
Qed.

Lemma strip_all_space_around (ws1 s ws2 : string) :
  no_space s = true → all_space ws1 = true → all_space ws2 = true →
  strip (ws1 +:+ s +:+ ws2) = s.
Proof.
  intros Hs H1 H2. unfold strip. rewrite lstrip_all_space by done.
  destruct s as [|c s]; simpl.
  - by rewrite lstrip_only_space.
  - simpl in Hs. apply andb_true_iff in Hs as [Hc Hs].
    rewrite (proj1 (negb_true_iff _) Hc).
    apply (rstrip_app_all_space (String c s)); [|done].
    simpl. by rewrite Hc, Hs.
Qed.

Lemma has_char_app (c : ascii) (s t : string) :
  has_char c (s +:+ t) = has_char c s || has_char c t.
Proof.
  induction s as [|a s IH]; simpl; [done|]. by rewrite IH, orb_assoc.
Qed.

Lemma has_char_all_space (ws : string) :
  all_space ws = true → has_char "," ws = false.
Proof.
  induction ws as [|a ws IH]; simpl; [done|].
  intros [Ha Hws]%andb_true_iff. rewrite IH by done.
  destruct (Ascii.eqb_spec a ","); [subst; discriminate|done].
Qed.

Lemma split_char_no_sep (sep : ascii) (s : string) :
  has_char sep s = false → split_char sep s = [s].
Proof.
  induction s as [|a s IH]; simpl; [done|].
  intros [Ha Hs]%orb_false_iff. by rewrite Ha, IH.
Qed.

Lemma split_char_app (sep : ascii) (s t : string) :
  has_char sep s = false →
  split_char sep (s +:+ String sep t) = s :: split_char sep t.
Proof.
  induction s as [|a s IH]; simpl.
  - intros _. by rewrite Ascii.eqb_refl.
  - intros [Ha Hs]%orb_false_iff. by rewrite Ha, IH.
Qed.

Lemma split_ws_all_space (ws s : string) :
  all_space ws = true → split_ws (ws +:+ s) = split_ws s.
Proof.
  induction ws as [|c ws IH]; simpl; [done|].
  intros [Hc Hws]%andb_true_iff. rewrite Hc. by apply IH.
Qed.

Lemma split_ws_cons (c : ascii) (s : string) :
  split_ws (String c s)
  = if is_space c then split_ws s
    else match s with
         | EmptyString => [String c EmptyString]
         | String c' _ =>
             if is_space c' then String c EmptyString :: split_ws s
             else match split_ws s with
                  | t :: ts => String c t :: ts
                  | [] => [String c EmptyString]
                  end
         end.
Proof. reflexivity. Qed.

Lemma split_ws_token (t : string) :
  t ≠ EmptyString → no_space t = true → split_ws t = [t].
Proof.
  induction t as [|c t IH]; [done|]. intros _ Ht.
  simpl in Ht. apply andb_true_iff in Ht as [Hc Ht].
  apply negb_true_iff in Hc. rewrite split_ws_cons, Hc.
  destruct t as [|c' t]; [done|].
  rewrite IH by done.
  simpl in Ht. apply andb_true_iff in Ht as [Hc' _].
  apply negb_true_iff in Hc'. by rewrite Hc'.
Qed.

(** Two tokens with whitespace between them split into the two tokens. *)
Lemma split_ws_two_tokens (a ws b : string) :
  a ≠ EmptyString → no_space a = true →
  ws ≠ EmptyString → all_space ws = true →
  b ≠ EmptyString → no_space b = true →
  split_ws (a +:+ ws +:+ b) = [a; b].
Proof.
  intros Ha Hna Hws Hsws Hb Hnb.
  induction a as [|c a IH]; [done|]. clear Ha.
  simpl in Hna. apply andb_true_iff in Hna as [Hc Hna].
  apply negb_true_iff in Hc.
  change (String c a +:+ ws +:+ b) with (String c (a +:+ ws +:+ b)).
  rewrite split_ws_cons, Hc.
  destruct a as [|c' a].
  - destruct ws as [|w ws]; [done|].
    simpl in Hsws. apply andb_true_iff in Hsws as [Hw Hsws].
    change (EmptyString +:+ String w ws +:+ b) with (String w (ws +:+ b)).
    lazy beta iota. rewrite Hw, split_ws_cons, Hw.
    by rewrite split_ws_all_space, split_ws_token.
  - rewrite IH by done.
    change (String c' a +:+ ws +:+ b) with (String c' (a +:+ ws +:+ b)).
    lazy beta iota. simpl in Hna. apply andb_true_iff in Hna as [Hc' _].
    apply negb_true_iff in Hc'. by rewrite Hc'.
Qed.

Lemma app_assoc (s t u : string) : (s +:+ t) +:+ u = s +:+ t +:+ u.
Proof. induction s as [|c s IH]; simpl; [done|]. by rewrite IH. Qed.

Lemma app_nonempty_r (s t : string) : t ≠ EmptyString → s +:+ t ≠ EmptyString.
Proof. destruct s; simpl; [done|discriminate]. Qed.

Lemma lstrip_token_head (a r : string) :
  a ≠ EmptyString → no_space a = true → lstrip (a +:+ r) = a +:+ r.
Proof.
  destruct a as [|c a]; [done|]. intros _ [Hc _]%andb_true_iff.
  apply negb_true_iff in Hc. simpl. by rewrite Hc.
Qed.

(** Text that [rstrip] leaves alone still does so behind a prefix. *)
Lemma rstrip_app_fixed (s r : string) :
  r ≠ EmptyString → rstrip r = r → rstrip (s +:+ r) = s +:+ r.
Proof.
  intros Hne Hr. induction s as [|c s IH]; simpl; [done|].
  rewrite IH. destruct (s +:+ r) eqn:E; [|done].
  by apply app_nonempty_r in E.
Qed.

Lemma strip_token (a : string) : no_space a = true → strip a = a.
Proof.
  intros Ha. unfold strip. by rewrite lstrip_no_space, rstrip_no_space.
Qed.

Lemma strip_token_left (a ws : string) :
  no_space a = true → all_space ws = true → strip (a +:+ ws) = a.
Proof. intros. by apply (strip_all_space_around EmptyString a ws). Qed.

Lemma strip_token_right (ws b : string) :
  no_space b = true → all_space ws = true → strip (ws +:+ b) = b.
Proof.
  intros Hb Hws. unfold strip.
  by rewrite lstrip_all_space, lstrip_no_space, rstrip_no_space.
Qed.

(** A line that starts and ends with a token is its own [strip]. *)
Lemma strip_between_tokens (a mid b : string) :
  a ≠ EmptyString → no_space a = true → b ≠ EmptyString → no_space b = true →
  strip (a +:+ mid +:+ b) = a +:+ mid +:+ b.
Proof.
  intros Ha Hna Hb Hnb. unfold strip. rewrite lstrip_token_head by done.
  rewrite <- !app_assoc. apply rstrip_app_fixed; [done|].
  by apply rstrip_no_space.
Qed.

End PyStrFacts.

(** ** The classifier *)

Lemma mark_dom (cond : bool) (key : string) (result : Flags)
    (keys : gset string) :
  dom result = keys → key ∈ keys → dom (mark cond key result) = keys.
Proof.
  intros <- Hin. destruct cond; simpl; [|done].
  rewrite dom_insert_L. apply subseteq_union_1_L.
  by apply singleton_subseteq_l.
Qed.

Lemma all_false_dom : dom all_false = list_to_set CATEGORY_KEYS.
Proof. reflexivity. Qed.

(** C10: whatever the tags and the name, the dictionary returned by
    [analyze_element_for_categories] has exactly the nine category keys;
    its values are booleans by its type, so every key is bound to [true]
    or [false]. *)
Theorem analyze_element_for_categories_keys (tags : Tags) (name : string) :
  dom (analyze_element_for_categories tags name)
  = {[ "residential"; "education"; "public_area"; "culinary";
       "business_center"; "groceries"; "convenient_stores"; "industrial";
       "hospital_clinic" ]}
  ∧ ∀ key b, analyze_element_for_categories tags name !! key = Some b →
             b = true ∨ b = false.
Proof.
  split.
  - unfold analyze_element_for_categories.
    repeat (apply mark_dom; [|set_solver]).
    reflexivity.
  - intros key [] _; auto.
Qed.

(** C3: the feature tagged [amenity=restaurant] and named "Warung Bu Tutik"
    is culinary and nothing else, and its culinary subtype is
    "Restaurant".  The same holds when the tag bag also carries the name,
    as it does when the feature comes from the query service. *)
Theorem warung_bu_tutik_is_a_restaurant :
  let tags : Tags := {[ "amenity" := "restaurant" ]} in
  let name := "Warung Bu Tutik" in
  let flags := analyze_element_for_categories tags name in
  flags !! "culinary" = Some true
  ∧ flags !! "residential" = Some false
  ∧ flags !! "education" = Some false
  ∧ flags !! "public_area" = Some false
  ∧ flags !! "business_center" = Some false
  ∧ flags !! "groceries" = Some false
  ∧ flags !! "convenient_stores" = Some false
  ∧ flags !! "industrial" = Some false
  ∧ flags !! "hospital_clinic" = Some false
  ∧ place_type "culinary" tags name = "Restaurant"
  ∧ map_to_list (analyze_element_for_categories (<["name" := name]> tags) name)
    = map_to_list flags
  ∧ place_type "culinary" (<["name" := name]> tags) name = "Restaurant".
Proof.
  intros tags name flags.
  repeat apply conj; vm_compute; reflexivity.
Qed.

Section Properties.

Context `{PyFloat}.

(** ** The coordinate parser *)

Lemma parse_two_parts (coord_str part0 part1 : string) (x y : pyfloat) :
  PyStr.strip coord_str = coord_str →
  (if PyStr.has_char "," coord_str then PyStr.split_char "," coord_str
   else PyStr.split_ws coord_str) = [part0; part1] →
  float_of_str (PyStr.strip part0) = Some x →
  float_of_str (PyStr.strip part1) = Some y →
  parse_coordinates coord_str = Ok (x, y).
Proof.
  intros Hstrip Hparts Hx Hy. unfold parse_coordinates, parse_parts.
  by rewrite Hstrip, Hparts, Hx, Hy.
Qed.

(** C5: two numeric tokens give the same pair of floats whether a comma
    (with any whitespace around it) or whitespace alone separates them. *)
Theorem parse_coordinates_separator_independent
    (a b ws1 ws2 ws : string) (x y : pyfloat) :
  a ≠ EmptyString → PyStr.no_space a = true → PyStr.has_char "," a = false →
  b ≠ EmptyString → PyStr.no_space b = true → PyStr.has_char "," b = false →
  PyStr.all_space ws1 = true → PyStr.all_space ws2 = true →
  ws ≠ EmptyString → PyStr.all_space ws = true →
  float_of_str a = Some x → float_of_str b = Some y →
  parse_coordinates (a +:+ ws1 +:+ "," +:+ ws2 +:+ b) = Ok (x, y)
  ∧ parse_coordinates (a +:+ ws +:+ b) = Ok (x, y).
Proof.
  intros Ha Hna Hca Hb Hnb Hcb Hws1 Hws2 Hws Hsws Hx Hy. split.
  - apply (parse_two_parts _ (a +:+ ws1) (ws2 +:+ b)).
    + replace (a +:+ ws1 +:+ "," +:+ ws2 +:+ b)
        with (a +:+ (ws1 +:+ "," +:+ ws2) +:+ b)
        by (by rewrite !PyStrFacts.app_assoc).
      by apply PyStrFacts.strip_between_tokens.
    + rewrite <- PyStrFacts.app_assoc.
      rewrite (PyStrFacts.has_char_app _ (a +:+ ws1)).
      change ("," +:+ ws2 +:+ b) with (String "," (ws2 +:+ b)).
      cbn [PyStr.has_char]. rewrite Ascii.eqb_refl, orb_true_r.
      rewrite PyStrFacts.split_char_app, PyStrFacts.split_char_no_sep;
        [done| |];
        by rewrite PyStrFacts.has_char_app, ?Hca, ?Hcb,
             PyStrFacts.has_char_all_space.
    + by rewrite PyStrFacts.strip_token_left.
    + by rewrite PyStrFacts.strip_token_right.
  - apply (parse_two_parts _ a b).
    + by apply PyStrFacts.strip_between_tokens.
    + rewrite !PyStrFacts.has_char_app, Hca, Hcb,
        PyStrFacts.has_char_all_space by done.
      cbn [orb]. by apply PyStrFacts.split_ws_two_tokens.
    + by rewrite PyStrFacts.strip_token.
    + by rewrite PyStrFacts.strip_token.
Qed.

(** C6, amended: parsing fails exactly when the stripped text does not
    split into two parts or one of the parts is not numeric; two numeric
    parts are accepted whatever their values; and every failure is the one
    [ValueError] whose message quotes the stripped text, followed by the
    reason. *)
Theorem parse_coordinates_failure (coord_str : string) :
  let stripped := PyStr.strip coord_str in
  let parts :=
    if PyStr.has_char "," stripped then PyStr.split_char "," stripped
    else PyStr.split_ws stripped in
  (is_ok (parse_coordinates coord_str) = false ↔
     length parts ≠ 2
     ∨ ∃ part, part ∈ parts ∧ float_of_str (PyStr.strip part) = None)
  ∧ (∀ part0 part1 x y,
       parts = [part0; part1] →
       float_of_str (PyStr.strip part0) = Some x →
       float_of_str (PyStr.strip part1) = Some y →
       parse_coordinates coord_str = Ok (x, y))
  ∧ (is_ok (parse_coordinates coord_str) = false →
     ∃ reason,
       parse_coordinates coord_str
       = Raise (ValueError ("Error saat parsing koordinat '" +:+ stripped
                            +:+ "': " +:+ reason))
       ∧ PyStr.contains stripped
           ("Error saat parsing koordinat '" +:+ stripped
            +:+ "': " +:+ reason) = true).
Proof.
  intros stripped parts. unfold parse_coordinates, parse_parts.
  fold stripped. fold parts.
  assert (Hcontains : ∀ reason,
            PyStr.contains stripped
              ("Error saat parsing koordinat '" +:+ stripped
               +:+ "': " +:+ reason) = true)
    by (intros; apply PyStrFacts.contains_app).
  destruct parts as [|part0 [|part1 [|part2 rest]]]; simpl.
  - split_and!;
      [split; [intros _; left; simpl; lia|done]
      | intros ? ? ? ? [=]
      | intros _; eexists; split; [reflexivity|apply Hcontains] ].
  - split_and!;
      [split; [intros _; left; simpl; lia|done]
      | intros ? ? ? ? [=]
      | intros _; eexists; split; [reflexivity|apply Hcontains] ].
  - destruct (float_of_str (PyStr.strip part0)) as [x|] eqn:Hx;
      [destruct (float_of_str (PyStr.strip part1)) as [y|] eqn:Hy|]; simpl.
    + split_and!; [|by intros ???? [= <- <-]; congruence|done].
      split; [done|]. intros [?|(part & Hin & Hnone)]; [lia|].
      apply elem_of_cons in Hin as [->|Hin]; [congruence|].
      apply list_elem_of_singleton in Hin as ->. congruence.
    + split_and!; [|by intros ???? [= <- <-]; congruence
                  |intros _; eexists; split; [reflexivity|apply Hcontains]].
      split; [|done]. intros _. right. exists part1.
      split; [|done]. right. by left.
    + split_and!; [|by intros ???? [= <- <-]; congruence
                  |intros _; eexists; split; [reflexivity|apply Hcontains]].
      split; [|done]. intros _. right. exists part0.
      split; [|done]. by left.
  - split_and!;
      [split; [intros _; left; simpl; lia|done]
      | intros ? ? ? ? [=]
      | intros _; eexists; split; [reflexivity|apply Hcontains] ].
Qed.

(** ** Resuming from a checkpoint *)

Lemma filter_length_complement {A : Type} (P : A → Prop)
    `{∀ x, Decision (P x)} (l : list A) :
  length (filter (fun x => ¬ P x) l) = length l - length (filter P l).
Proof.
  pose proof (length_filter P l).
  induction l as [|x l IH]; [done|].
  rewrite !filter_cons. pose proof (length_filter P l).
  destruct (decide (P x)), (decide (¬ P x)); simpl in *; try tauto; lia.
Qed.

Lemma processed_names_count (outlets : list Outlet) (names : gset string) :
  NoDup (map nama outlets) →
  names ⊆ list_to_set (map nama outlets) →
  length (filter (fun outlet => nama outlet ∈ names) outlets) = size names.
Proof.
  intros Hnodup Hsub.
  assert (Hset : names
                 = list_to_set
                     (map nama (filter (fun o => nama o ∈ names) outlets))).
  { apply set_eq. intros x. rewrite elem_of_list_to_set, list_elem_of_fmap.
    split.
    - intros Hx. pose proof (Hsub x Hx) as Hin.
      rewrite elem_of_list_to_set, list_elem_of_fmap in Hin.
      destruct Hin as (o & -> & Ho). exists o. split; [done|].
      by apply list_elem_of_filter.
    - intros (o & -> & Ho). by apply list_elem_of_filter in Ho as [? _]. }
  rewrite Hset, size_list_to_set, length_map, <- Hset; [done|].
  clear Hset Hsub. induction outlets as [|o l IH]; [constructor|].
  simpl in Hnodup. apply NoDup_cons in Hnodup as [Hnotin Hnodup].
  rewrite filter_cons. destruct (decide _); [|by apply IH].
  simpl. apply NoDup_cons. split; [|by apply IH].
  intros Hin. apply Hnotin.
  apply list_elem_of_fmap in Hin as (o' & -> & Ho').
  apply list_elem_of_filter in Ho' as [_ Ho'].
  apply list_elem_of_fmap. by exists o'.
Qed.

(** C4: with [N] outlets of distinct names and a checkpoint whose [M]
    names all occur among them, [get_remaining_outlets] returns the
    outlets whose names are absent from the checkpoint, in their original
    order, and there are [N - M] of them. *)
Theorem get_remaining_outlets_resume
    (outlets : list Outlet) (existing_results : list OutletResult) :
  let processed : gset string :=
    list_to_set (map Nama_Outlet existing_results) in
  NoDup (map nama outlets) →
  processed ⊆ list_to_set (map nama outlets) →
  get_remaining_outlets outlets existing_results
  = filter (fun outlet => nama outlet ∉ processed) outlets
  ∧ length (get_remaining_outlets outlets existing_results)
    = length outlets - size processed.
Proof.
  intros processed Hnodup Hsub.
  assert (Heq : get_remaining_outlets outlets existing_results
                = filter (fun outlet => nama outlet ∉ processed) outlets).
  { unfold get_remaining_outlets. destruct existing_results as [|r rs]; [|done].
    subst processed. simpl. clear.
    induction outlets as [|o l IH]; [done|].
    rewrite filter_cons_True; [by f_equal|]. apply not_elem_of_empty. }
  split; [done|]. rewrite Heq.
  rewrite (filter_length_complement (fun o => nama o ∈ processed)).
  by rewrite processed_names_count.
Qed.

(** ** The summary report *)

Lemma count_categories_lookup (cats : list string)
    (results : list OutletResult) (acc : gmap string (nat * float))
    (category : string) :
  count_categories cats results acc !! category
  = if decide (category ∈ cats)
    then Some (category_count results category,
               PrimFloat.mul
                 (PrimFloat.div
                    (float_of_int (category_count results category))
                    (float_of_int (length results)))
                 100%float)
    else acc !! category.
Proof.
  revert acc. induction cats as [|c cats IH]; intros acc;
    cbn [count_categories].
  - rewrite decide_False; [done|apply not_elem_of_nil].
  - rewrite IH. destruct (decide (category ∈ cats)) as [Hin|Hnin].
    + rewrite decide_True; [done|by right].
    + destruct (decide (category = c)) as [->|Hne].
      * rewrite decide_True; [|by left]. by rewrite lookup_insert_eq.
      * rewrite decide_False; [by rewrite lookup_insert_ne|].
        intros [?|?]%elem_of_cons; done.
Qed.

(** The loop invariant of [find_best]: once the records [seen] have been
    read, [best] holds the names of those among them whose facility count
    is [m], none has a larger one, and [m] is reached unless it is still
    the initial 0. *)
Lemma find_best_invariant (rest seen : list OutletResult) (m : nat)
    (best : list string) :
  best = map Nama_Outlet (filter (fun r => facility_count r = m) seen) →
  (∀ r, r ∈ seen → facility_count r ≤ m) →
  (m = 0 ∨ ∃ r, r ∈ seen ∧ facility_count r = m) →
  let '(m', best') := find_best rest m best in
  best' = map Nama_Outlet
              (filter (fun r => facility_count r = m') (seen ++ rest))
  ∧ (∀ r, r ∈ seen ++ rest → facility_count r ≤ m')
  ∧ (m' = 0 ∨ ∃ r, r ∈ seen ++ rest ∧ facility_count r = m').
Proof.
  revert seen m best. induction rest as [|x rest IH]; intros seen m best.
  - simpl. rewrite app_nil_r. auto.
  - intros Hbest Hle Hmax. simpl.
    replace (seen ++ x :: rest) with ((seen ++ [x]) ++ rest)
      by (by rewrite <- app_assoc).
    destruct (Nat.ltb_spec m (facility_count x)) as [Hlt|Hge].
    + apply IH.
      * rewrite filter_app, filter_cons_True, filter_nil by done.
        replace (filter _ seen) with (@nil OutletResult); [done|].
        symmetry. clear -Hle Hlt. induction seen as [|y seen IHs]; [done|].
        rewrite filter_cons_False.
        -- apply IHs. intros r Hr. apply Hle. by right.
        -- pose proof (Hle y ltac:(by left)). lia.
      * intros r [Hr| ->%list_elem_of_singleton]%elem_of_app; [|lia].
        pose proof (Hle r Hr). lia.
      * right. exists x. split; [|done]. apply elem_of_app. right. by left.
    + destruct (Nat.eqb_spec (facility_count x) m) as [Heq|Hne].
      * apply IH.
        -- rewrite filter_app, filter_cons_True, filter_nil by done.
           by rewrite map_app, Hbest.
        -- intros r [Hr| ->%list_elem_of_singleton]%elem_of_app; [|lia].
           by apply Hle.
        -- right. exists x. split; [|done]. apply elem_of_app. right. by left.
      * apply IH.
        -- rewrite filter_app, filter_cons_False, filter_nil by done.
           by rewrite app_nil_r.
        -- intros r [Hr| ->%list_elem_of_singleton]%elem_of_app; [|lia].
           by apply Hle.
        -- destruct Hmax as [->|(r & Hr & Hfc)]; [by left|].
           right. exists r. split; [|done]. apply elem_of_app. by left.
Qed.

(** C8: for a non-empty list of records the report holds, for each of
    the nine categories, the number of records with that flag set and
    that number as a percentage of the total, computed as the code does:
    the binary64 quotient of the count by the total, times 100; its
    [max_facilities] is the largest number of flags set in one record,
    and its [best_outlets] are the names of all the records that reach
    it, each tie included, in the order of the list. *)
Theorem generate_summary_report_spec (results : list OutletResult) :
  results ≠ [] →
  ∃ report,
    generate_summary_report results = Some report
    ∧ total_outlets report = length results
    ∧ dom (category_stats report) = list_to_set categories
    ∧ (∀ category, category ∈ categories →
         category_stats report !! category
         = Some (category_count results category,
                 PrimFloat.mul
                   (PrimFloat.div
                      (float_of_int (category_count results category))
                      (float_of_int (length results)))
                   100%float))
    ∧ (∀ r, r ∈ results → facility_count r ≤ max_facilities report)
    ∧ (∃ r, r ∈ results ∧ facility_count r = max_facilities report)
    ∧ best_outlets report
      = map Nama_Outlet
          (filter (fun r => facility_count r = max_facilities report) results)
    ∧ (∀ name, name ∈ best_outlets report ↔
         ∃ r, r ∈ results ∧ Nama_Outlet r = name
              ∧ facility_count r = max_facilities report).
Proof.
  intros Hne. unfold generate_summary_report.
  pose proof (find_best_invariant results [] 0 [] eq_refl) as Hinv.
  destruct (find_best results 0 []) as [m best].
  simpl in Hinv.
  destruct Hinv as (Hbest & Hle & Hmax);
    [intros r Hr; by apply elem_of_nil in Hr | by left |].
  assert (Hreach : ∃ r, r ∈ results ∧ facility_count r = m).
  { destruct Hmax as [->|?]; [|done].
    destruct results as [|r0 rs]; [done|]. exists r0. split; [by left|].
    pose proof (Hle r0 ltac:(by left)). lia. }
  destruct results as [|r0 rs]; [done|].
  set (results := r0 :: rs) in *.
  eexists. split; [reflexivity|].
  cbn [total_outlets category_stats max_facilities best_outlets].
  split; [done|]. split.
  { apply set_eq. intros c. rewrite elem_of_dom, elem_of_list_to_set.
    rewrite count_categories_lookup.
    destruct (decide _); [by split; eauto|].
    rewrite lookup_empty. split; [by intros [? ?]|done]. }
  split.
  { intros c Hc. rewrite count_categories_lookup. by rewrite decide_True. }
  split; [done|]. split; [done|]. split; [done|].
  intros name. rewrite Hbest, list_elem_of_fmap. split.
  - intros (r & -> & [Hfc Hr]%list_elem_of_filter). by exists r.
  - intros (r & Hr & <- & Hfc). exists r. split; [done|].
    by apply list_elem_of_filter.
Qed.


(** ** The geo-query client *)

Section ClientProperties.

Variable net : Network.

Lemma after_requests_0 (w : World) : after_requests 0 w = w.
Proof. destruct w. unfold after_requests. simpl. f_equal. lia. Qed.

Lemma after_requests_add (j k : nat) (w : World) :
  after_requests j (after_requests k w) = after_requests (k + j) w.
Proof. unfold after_requests. simpl. f_equal. lia. Qed.

(** One turn of the endpoint loop. *)
Lemma call_overpass_api_on_cons (endpoint : string) (rest : list string)
    (query : Query) (w : World) :
  call_overpass_api_on net (endpoint :: rest) query w
  = match endpoint_data net (requests w) endpoint query with
    | Some data => (Ok (Some data), after_requests 1 w)
    | None => call_overpass_api_on net rest query (after_requests 1 w)
    end.
Proof.
  unfold endpoint_data. cbn [call_overpass_api_on].
  unfold mbind, M_bind, try_except, post, response_json, mret, M_ret, raise.
  replace (after_requests 1 w)
    with {| api_cache := api_cache w; requests := S (requests w);
            attempts := attempts w; progress_file := progress_file w |}
    by (unfold after_requests; f_equal; lia).
  destruct (net (requests w) endpoint query) as [response|]; [|done].
  destruct (bool_decide (status_code response = 200%Z)); [|done].
  by destruct (json response).
Qed.

(** The call returns the data of the first endpoint that has any, having
    sent one request to it and to each endpoint before it; without such an
    endpoint it returns [None], having asked them all. *)
Lemma call_overpass_api_on_first (endpoints : list string) (query : Query)
    (w : World) :
  (∀ i endpoint data,
     endpoints !! i = Some endpoint →
     endpoint_data net (requests w + i) endpoint query = Some data →
     (∀ j endpoint', j < i → endpoints !! j = Some endpoint' →
        endpoint_data net (requests w + j) endpoint' query = None) →
     call_overpass_api_on net endpoints query w
     = (Ok (Some data), after_requests (S i) w))
  ∧ ((∀ j endpoint', endpoints !! j = Some endpoint' →
        endpoint_data net (requests w + j) endpoint' query = None) →
     call_overpass_api_on net endpoints query w
     = (Ok None, after_requests (length endpoints) w)).
Proof.
  revert w. induction endpoints as [|e rest IH]; intros w.
  - split; [by intros ???|]. intros _. simpl. by rewrite after_requests_0.
  - destruct (IH (after_requests 1 w)) as [IHfound IHnone].
    rewrite call_overpass_api_on_cons. split.
    + intros [|i] endpoint data Hlookup Hdata Hbefore.
      * simpl in Hlookup. injection Hlookup as ->.
        rewrite Nat.add_0_r in Hdata. by rewrite Hdata.
      * pose proof (Hbefore 0 e ltac:(lia) eq_refl) as He.
        rewrite Nat.add_0_r in He. rewrite He.
        rewrite (IHfound i endpoint data); simpl.
        -- by rewrite after_requests_add.
        -- done.
        -- by replace (requests w + 1 + i) with (requests w + S i) by lia.
        -- intros j e' Hj Hl.
           replace (requests w + 1 + j) with (requests w + S j) by lia.
           apply Hbefore; [lia|done].
    + intros Hnone. pose proof (Hnone 0 e eq_refl) as He.
      rewrite Nat.add_0_r in He. rewrite He.
      rewrite IHnone; simpl.
      * by rewrite after_requests_add.
      * intros j e' Hl.
        replace (requests w + 1 + j) with (requests w + S j) by lia.
        by apply Hnone.
Qed.

(** The call never raises, and only the request counter moves. *)
Lemma call_overpass_api_on_total (endpoints : list string) (query : Query)
    (w : World) :
  ∃ data k, call_overpass_api_on net endpoints query w
            = (Ok data, after_requests k w).
Proof.
  revert w. induction endpoints as [|e rest IH]; intros w.
  - exists None, 0. simpl. by rewrite after_requests_0.
  - rewrite call_overpass_api_on_cons.
    destruct (endpoint_data _ _ _ _) as [data|]; [by exists (Some data), 1|].
    destruct (IH (after_requests 1 w)) as (data & k & ->).
    exists data, (1 + k). by rewrite after_requests_add.
Qed.

(** C7, amended: the endpoints are tried in their listed order; the call
    returns the parsed body of the first endpoint that answers with status
    200 and a body that parses as JSON; an endpoint that raises a transport
    exception, answers with another status, or answers 200 with a body
    that does not parse is passed over; when every endpoint is passed over
    the call returns [None]; and it never raises. *)
Theorem call_overpass_api_failover (endpoints : list string) (query : Query)
    (w : World) :
  let passed_over n endpoint :=
    match net n endpoint query with
    | None => True
    | Some response =>
        status_code response ≠ 200%Z ∨ json response = None
    end in
  (∀ i endpoint response body,
     endpoints !! i = Some endpoint →
     net (requests w + i) endpoint query = Some response →
     status_code response = 200%Z →
     json response = Some body →
     (∀ j endpoint', j < i → endpoints !! j = Some endpoint' →
        passed_over (requests w + j) endpoint') →
     call_overpass_api_on net endpoints query w
     = (Ok (Some body), after_requests (S i) w))
  ∧ ((∀ j endpoint', endpoints !! j = Some endpoint' →
        passed_over (requests w + j) endpoint') →
     call_overpass_api_on net endpoints query w
     = (Ok None, after_requests (length endpoints) w))
  ∧ (∃ data k, call_overpass_api_on net endpoints query w
               = (Ok data, after_requests k w)).
Proof.
  intros passed_over.
  assert (Hpassed : ∀ n endpoint,
            passed_over n endpoint → endpoint_data net n endpoint query = None).
  { intros n endpoint. unfold passed_over, endpoint_data.
    destruct (net n endpoint query) as [response|]; [|done].
    intros [Hstatus| ->]; [by rewrite bool_decide_eq_false_2|].
    by destruct (bool_decide _). }
  destruct (call_overpass_api_on_first endpoints query w) as [Hfound Hnone].
  split_and!.
  - intros i endpoint response body Hl Hnet Hstatus Hjson Hbefore.
    apply (Hfound i endpoint body); [done| |by eauto].
    unfold endpoint_data. by rewrite Hnet, bool_decide_eq_true_2.
  - intros Hall. apply Hnone. eauto.
  - apply call_overpass_api_on_total.
Qed.


(** ** The facility check *)

Lemma bind_run {A B : Type} (m : M A) (f : A → M B) (w : World) :
  (m ≫= f) w
  = match m w with
    | (Ok x, w') => f x w'
    | (Raise e, w') => (Raise e, w')
    end.
Proof. reflexivity. Qed.

Lemma getitem_run (flags : Flags) (key : string) (w : World) :
  getitem flags key w
  = (match flags !! key with
     | Some b => Ok b
     | None => Raise (KeyError key)
     end, w).
Proof. unfold getitem. by destruct (flags !! key). Qed.

Lemma scan_category_pure (category : string) (elements : list Element)
    (w : World) :
  ∃ r, scan_category category elements w = (r, w).
Proof.
  induction elements as [|element rest IH]; [by eexists|].
  cbn [scan_category]. rewrite bind_run, getitem_run.
  destruct (_ !! _) as [[]|]; [by eexists|done|by eexists].
Qed.

Lemma get_elements_pure (data : Body) (w : World) :
  ∃ r, get_elements data w = (r, w).
Proof. destruct data; by eexists. Qed.

(** The loop over the categories only sends requests, and a result it
    returns has the keys it started with. *)
Lemma check_each_category_run (lat lon : pyfloat) (radius : Z)
    (cats : list string) (results : Flags) (w : World) :
  ∃ r k,
    check_each_category net lat lon radius cats results w
    = (r, after_requests k w)
    ∧ ∀ results', r = Ok results' →
        (∀ c, c ∈ cats → c ∈ dom results) → dom results' = dom results.
Proof.
  revert results w. induction cats as [|category rest IH]; intros results w.
  - exists (Ok results), 0. rewrite after_requests_0.
    split; [done|]. by intros ? [= <-].
  - cbn [check_each_category]. rewrite bind_run. unfold call_overpass_api.
    destruct (call_overpass_api_on_total OVERPASS_ENDPOINTS
                (CategoryQuery USE_SIMPLIFIED_QUERIES category radius lat lon)
                w) as (data & k & ->).
    rewrite bind_run.
    assert (Hstep : ∃ r,
              match data with
              | Some data =>
                  if body_truthy data
                  then elements ← get_elements data;
                       b ← scan_category category elements;
                       mret (mark b category results)
                  else mret results
              | None => mret results
              end (after_requests k w) = (r, after_requests k w)
              ∧ ∀ results', r = Ok results' → category ∈ dom results →
                  dom results' = dom results).
    { destruct data as [data|];
        [|eexists; split; [done|by intros ? [= <-]]].
      destruct (body_truthy data);
        [|eexists; split; [done|by intros ? [= <-]]].
      rewrite bind_run.
      destruct (get_elements_pure data (after_requests k w)) as [[els|e] ->];
        [|by eexists].
      rewrite bind_run.
      destruct (scan_category_pure category els (after_requests k w))
        as [[b|e] ->]; [|by eexists].
      eexists. split; [done|]. intros ? [= <-] Hin. by apply mark_dom. }
    destruct Hstep as (r & -> & Hdom).
    destruct r as [results1|e]; [|by exists (Raise e), k].
    destruct (IH results1 (after_requests k w)) as (r & k' & -> & Hdom').
    exists r, (k + k'). rewrite after_requests_add. split; [done|].
    intros results' -> Hcats.
    assert (Hd : dom results1 = dom results)
      by (apply Hdom; [done|apply Hcats; by left]).
    rewrite <- Hd. apply Hdom'; [done|].
    intros c Hc. rewrite Hd. apply Hcats. by right.
Qed.

(** The world after [api_cache[cache_key] = results]. *)
Lemma cache_store_run (cache_key : string) (results : Flags) (w : World) :
  cache_store cache_key results w
  = (Ok tt, {| api_cache := <[cache_key := results]> (api_cache w);
               requests := requests w;
               attempts := attempts w;
               progress_file := progress_file w |}).
Proof. reflexivity. Qed.

(** The facility check either answers from the cache, leaving the world
    alone, or asks the network: then a failure leaves the cache as it was,
    and a result has the nine category keys. *)
Lemma check_nearby_facilities_simple_run (lat lon : pyfloat) (radius : Z)
    (w : World) :
  let cache_key :=
    float_str lat +:+ "," +:+ float_str lon +:+ "," +:+ pretty radius in
  match api_cache w !! cache_key with
  | Some cached =>
      check_nearby_facilities_simple net lat lon radius w = (Ok cached, w)
  | None =>
      ∃ r w', check_nearby_facilities_simple net lat lon radius w = (r, w')
              ∧ attempts w' = attempts w
              ∧ match r with
                | Ok results => dom results = list_to_set CATEGORY_KEYS
                | Raise _ => api_cache w' = api_cache w
                end
  end.
Proof.
  intros cache_key. unfold check_nearby_facilities_simple.
  fold cache_key. change (if ENABLE_CACHE then ?x else None) with x.
  destruct (api_cache w !! cache_key) as [cached|]; [done|].
  change (negb USE_SIMPLIFIED_QUERIES) with false. cbv iota.
  rewrite bind_run.
  destruct (check_each_category_run lat lon radius CATEGORY_KEYS all_false w)
    as (r & k & -> & Hdom).
  destruct r as [results|e]; [|by eexists _, _].
  rewrite bind_run, cache_store_run. eexists _, _.
  split; [reflexivity|]. split; [done|].
  cbv beta iota. rewrite (Hdom results eq_refl); [apply all_false_dom|].
  intros c Hc. by rewrite all_false_dom, elem_of_list_to_set.
Qed.

(** ** One outlet, with retries *)

Lemma make_result_run (nama koordinat_str : string) (lat lon : pyfloat)
    (flags : Flags) (w : World) :
  ∃ r, make_result nama koordinat_str lat lon flags w = (r, w)
       ∧ (∀ result, r = Ok result →
            Nama_Outlet result = nama ∧ Koordinat result = koordinat_str
            ∧ Latitude result = lat ∧ Longitude result = lon
            ∧ Error result = None)
       ∧ (dom flags = list_to_set CATEGORY_KEYS → is_ok r = true).
Proof.
  unfold make_result.
  assert (Hkey : ∀ key, key ∈ CATEGORY_KEYS →
            dom flags = list_to_set CATEGORY_KEYS → flags !! key ≠ None).
  { intros key Hkey Hdom. apply not_eq_None_Some, elem_of_dom.
    by rewrite Hdom, elem_of_list_to_set. }
  repeat (rewrite bind_run, getitem_run;
          match goal with
          | |- context [flags !! ?key] =>
              let E := fresh "E" in
              destruct (flags !! key) eqn:E;
              [|eexists; split; [reflexivity|];
                split; [done|]; intros Hdom;
                exfalso; revert E; apply Hkey;
                [by apply (bool_decide_unpack _)|done]]
          end).
  eexists. split; [reflexivity|]. split; [|done].
  by intros ? [= <-].
Qed.

(** One attempt: it fails at once on coordinates that do not parse;
    otherwise a failure leaves the cache as it was, and a result carries
    the outlet's name and coordinate text and no ['Error'] key. *)
Lemma process_outlet_run (outlet : Outlet) (radius : Z) (w : World) :
  match parse_coordinates (koordinat outlet) with
  | Raise e => process_outlet net outlet radius w = (Raise e, w)
  | Ok (lat, lon) =>
      ∃ r w', process_outlet net outlet radius w = (r, w')
              ∧ attempts w' = attempts w
              ∧ match r with
                | Ok result =>
                    Nama_Outlet result = nama outlet
                    ∧ Koordinat result = koordinat outlet
                    ∧ Latitude result = lat ∧ Longitude result = lon
                    ∧ Error result = None
                | Raise _ => api_cache w' = api_cache w
                end
  end.
Proof.
  unfold process_outlet. rewrite bind_run. unfold lift.
  destruct (parse_coordinates (koordinat outlet)) as [[lat lon]|e]; [|done].
  rewrite bind_run.
  pose proof (check_nearby_facilities_simple_run lat lon radius w) as Hcheck.
  cbv zeta in Hcheck.
  destruct (api_cache w !! _) as [cached|].
  - rewrite Hcheck.
    destruct (make_result_run (nama outlet) (koordinat outlet) lat lon
                cached w) as (r & -> & Hfields & _).
    exists r, w. split; [done|]. split; [done|].
    destruct r; [by apply Hfields|done].
  - destruct Hcheck as (r & w' & -> & Hattempts & Hr).
    destruct r as [flags|e]; [|by exists (Raise e), w'].
    destruct (make_result_run (nama outlet) (koordinat outlet) lat lon
                flags w') as (r & -> & Hfields & Hok).
    exists r, w'. split; [done|]. split; [done|].
    destruct r; [by apply Hfields|]. by specialize (Hok Hr).
Qed.

Lemma enter_attempt_run (w : World) :
  enter_attempt w
  = (Ok tt, {| api_cache := api_cache w; requests := requests w;
               attempts := S (attempts w);
               progress_file := progress_file w |}).
Proof. reflexivity. Qed.

(** One turn of the retry loop. *)
Lemma retry_loop_S (remaining : nat) (outlet : Outlet) (radius : Z)
    (w : World) :
  retry_loop net (S remaining) outlet radius w
  = let w1 := {| api_cache := api_cache w; requests := requests w;
                 attempts := S (attempts w);
                 progress_file := progress_file w |} in
    match process_outlet net outlet radius w1 with
    | (Ok result, w2) => (Ok (Some result), w2)
    | (Raise _, w2) => retry_loop net remaining outlet radius w2
    end.
Proof.
  cbn [retry_loop]. rewrite bind_run, enter_attempt_run, bind_run.
  unfold try_except. rewrite bind_run. cbv zeta.
  by destruct (process_outlet net outlet radius _) as [[result|e] w2].
Qed.

(** The retry loop never raises; what it returns came from an attempt. *)
Lemma retry_loop_run (remaining : nat) (outlet : Outlet) (radius : Z)
    (w : World) :
  ∃ returned w',
    retry_loop net remaining outlet radius w = (Ok returned, w')
    ∧ match returned with
      | Some result =>
          is_ok (parse_coordinates (koordinat outlet)) = true
          ∧ Nama_Outlet result = nama outlet
          ∧ Koordinat result = koordinat outlet
          ∧ Error result = None
      | None => True
      end.
Proof.
  revert w. induction remaining as [|remaining IH]; intros w.
  - by exists None, w.
  - rewrite retry_loop_S. cbv zeta.
    pose proof (process_outlet_run outlet radius
                  {| api_cache := api_cache w; requests := requests w;
                     attempts := S (attempts w);
                     progress_file := progress_file w |}) as Hrun.
    destruct (parse_coordinates (koordinat outlet)) as [[lat lon]|e].
    + destruct Hrun as (r & w2 & -> & _ & Hr).
      destruct r as [result|e']; [|apply IH].
      exists (Some result), w2. split; [done|].
      by destruct Hr as (? & ? & _ & _ & ?).
    + rewrite Hrun. apply IH.
Qed.

(** When every attempt from the present cache fails, the loop runs out
    after [remaining] attempts and leaves the cache as it was. *)
Lemma retry_loop_all_fail (remaining : nat) (outlet : Outlet) (radius : Z)
    (w : World) :
  (∀ w', api_cache w' = api_cache w →
         is_ok (process_outlet net outlet radius w').1 = false) →
  ∃ w', retry_loop net remaining outlet radius w = (Ok None, w')
        ∧ attempts w' = attempts w + remaining
        ∧ api_cache w' = api_cache w.
Proof.
  revert w. induction remaining as [|remaining IH]; intros w Hfail.
  - exists w. split; [done|]. split; [lia|done].
  - rewrite retry_loop_S. cbv zeta.
    set (w1 := {| api_cache := api_cache w; requests := requests w;
                  attempts := S (attempts w);
                  progress_file := progress_file w |}).
    pose proof (Hfail w1 eq_refl) as Hfail1.
    pose proof (process_outlet_run outlet radius w1) as Hrun.
    destruct (parse_coordinates (koordinat outlet)) as [[lat lon]|e].
    + destruct Hrun as (r & w2 & Hrun & Hattempts & Hr).
      rewrite Hrun in Hfail1 |- *. destruct r as [result|e']; [done|].
      destruct (IH w2) as (w' & -> & Hatt & Hcache).
      { intros w' Hw'. apply Hfail. by rewrite Hw', Hr. }
      exists w'. split; [done|].
      split; [rewrite Hatt, Hattempts; simpl; lia|by rewrite Hcache, Hr].
    + rewrite Hrun.
      destruct (IH w1) as (w' & -> & Hatt & Hcache); [done|].
      exists w'. split; [done|]. split; [rewrite Hatt; simpl; lia|done].
Qed.

(** The whole of [process_outlet_with_retry] never raises.  It returns
    [None] exactly for coordinates that do not parse, and otherwise a
    record with the outlet's name and coordinate text. *)
Lemma process_outlet_with_retry_run (outlet : Outlet) (max_retries : nat)
    (radius : Z) (w : World) :
  ∃ returned w',
    process_outlet_with_retry net outlet max_retries radius w
    = (Ok returned, w')
    ∧ match returned with
      | Some result =>
          is_ok (parse_coordinates (koordinat outlet)) = true
          ∧ Nama_Outlet result = nama outlet
          ∧ Koordinat result = koordinat outlet
      | None => is_ok (parse_coordinates (koordinat outlet)) = false
      end.
Proof.
  unfold process_outlet_with_retry. rewrite bind_run.
  destruct (retry_loop_run max_retries outlet radius w)
    as (returned & w' & -> & Hreturned).
  destruct returned as [result|].
  - exists (Some result), w'. split; [done|].
    by destruct Hreturned as (? & ? & ? & _).
  - unfold try_except. rewrite bind_run. unfold lift.
    destruct (parse_coordinates (koordinat outlet)) as [[lat lon]|e].
    + by exists (Some (failed_result outlet lat lon)), w'.
    + by exists None, w'.
Qed.

(** A query client that always fails: [call_overpass_api] asks the three
    endpoints and returns [None]. *)
Lemma call_overpass_api_all_fail (query : Query) (w : World) :
  (∀ n endpoint query,
     match net n endpoint query with
     | None => True
     | Some response => status_code response ≠ 200%Z
     end) →
  call_overpass_api net query w = (Ok None, after_requests 3 w).
Proof.
  intros Hfail. unfold call_overpass_api.
  apply (call_overpass_api_on_first OVERPASS_ENDPOINTS query w).
  intros j endpoint _. unfold endpoint_data.
  specialize (Hfail (requests w + j) endpoint query).
  destruct (net _ _ _); [|done]. by rewrite bool_decide_eq_false_2.
Qed.

Lemma check_each_category_all_fail (lat lon : pyfloat) (radius : Z)
    (cats : list string) (results : Flags) (w : World) :
  (∀ n endpoint query,
     match net n endpoint query with
     | None => True
     | Some response => status_code response ≠ 200%Z
     end) →
  check_each_category net lat lon radius cats results w
  = (Ok results, after_requests (3 * length cats) w).
Proof.
  intros Hfail. revert w. induction cats as [|category rest IH]; intros w.
  - simpl. by rewrite after_requests_0.
  - cbn [check_each_category].
    rewrite bind_run, call_overpass_api_all_fail, bind_run by done.
    unfold mret at 1, M_ret at 1. rewrite IH, after_requests_add.
    do 2 f_equal. simpl. lia.
Qed.

(** C1, amended.  For an outlet whose coordinates parse,
    [process_outlet_with_retry(outlet, max_retries=2)] never raises and
    never returns [None]: it returns a record for that outlet.  When every
    attempt raises, it makes exactly 2
    attempts and returns the record with all nine flags false and the
    ['Error'] text.  When the query client always fails (each request
    meets a transport exception or a status other than 200) and the cache
    has no entry for the outlet, no attempt raises: after exactly 1
    attempt and 27 requests it returns a record with all nine flags false
    and no ['Error'] key, and caches the all-false flags. *)
Theorem process_outlet_with_retry_bound
    (outlet : Outlet) (radius : Z) (lat lon : pyfloat) (w : World) :
  parse_coordinates (koordinat outlet) = Ok (lat, lon) →
  let record error :=
    {| Nama_Outlet := nama outlet; Koordinat := koordinat outlet;
       Latitude := lat; Longitude := lon;
       Residential := false; Education := false; Public_Area := false;
       Culinary := false; Business_Center := false; Groceries := false;
       Convenient_Stores := false; Industrial := false;
       Hospital_Clinic := false; Error := error |} in
  let cache_key :=
    float_str lat +:+ "," +:+ float_str lon +:+ "," +:+ pretty radius in
  (∃ result w',
     process_outlet_with_retry net outlet 2 radius w
     = (Ok (Some result), w')
     ∧ Nama_Outlet result = nama outlet
     ∧ Koordinat result = koordinat outlet)
  ∧ ((∀ w', api_cache w' = api_cache w →
            is_ok (process_outlet net outlet radius w').1 = false) →
   ∃ w', process_outlet_with_retry net outlet 2 radius w
         = (Ok (Some (record
                        (Some "Failed to process after multiple retries"))),
            w')
         ∧ attempts w' = attempts w + 2)
  ∧ ((∀ n endpoint query,
        match net n endpoint query with
        | None => True
        | Some response => status_code response ≠ 200%Z
        end) →
     api_cache w !! cache_key = None →
     process_outlet_with_retry net outlet 2 radius w
     = (Ok (Some (record None)),
        {| api_cache := <[cache_key := all_false]> (api_cache w);
           requests := requests w + 27;
           attempts := attempts w + 1;
           progress_file := progress_file w |})).
Proof.
  intros Hparse record cache_key. split; [|split].
  - destruct (process_outlet_with_retry_run outlet 2 radius w)
      as ([result|] & w' & Hrun & Hresult).
    + exists result, w'. by destruct Hresult as (_ & ? & ?).
    + by rewrite Hparse in Hresult.
  - intros Hfail. unfold process_outlet_with_retry. rewrite bind_run.
    destruct (retry_loop_all_fail 2 outlet radius w Hfail)
      as (w' & -> & Hattempts & _).
    exists w'. split; [|done].
    unfold try_except. rewrite bind_run. unfold lift. by rewrite Hparse.
  - intros Hfail Hmiss. unfold process_outlet_with_retry.
    rewrite bind_run, retry_loop_S. cbv zeta.
    unfold process_outlet. rewrite bind_run. unfold lift at 1.
    rewrite Hparse, bind_run.
    unfold check_nearby_facilities_simple. fold cache_key.
    change (if ENABLE_CACHE then ?x else None) with x.
    cbn [api_cache]. rewrite Hmiss.
    change (negb USE_SIMPLIFIED_QUERIES) with false. cbv iota.
    rewrite bind_run, check_each_category_all_fail by done.
    rewrite bind_run, cache_store_run.
    unfold mret at 1, M_ret at 1.
    unfold make_result. rewrite !bind_run, !getitem_run.
    vm_compute (all_false !! _).
    unfold mret, M_ret, after_requests. simpl.
    do 3 f_equal; lia.
Qed.

(** ** Batches *)

Section BatchProperties.

Variable as_completed : list Outlet → list Outlet.

Lemma collect_results_run (completed : list Outlet) (radius : Z)
    (w : World) :
  ∃ batch_results w',
    collect_results net completed radius w = (Ok batch_results, w')
    ∧ map (fun r => (Nama_Outlet r, Koordinat r)) batch_results
      = map (fun o => (nama o, koordinat o))
          (filter (fun o => is_ok (parse_coordinates (koordinat o)) = true)
                  completed).
Proof.
  revert w. induction completed as [|outlet rest IH]; intros w.
  - by exists [], w.
  - cbn [collect_results]. rewrite bind_run.
    destruct (process_outlet_with_retry_run outlet 2 radius w)
      as (returned & w1 & -> & Hreturned).
    rewrite bind_run.
    destruct (IH w1) as (batch_results & w2 & -> & Hkeys).
    eexists _, w2. split; [reflexivity|].
    rewrite filter_cons. destruct returned as [result|].
    + destruct Hreturned as (Hok & Hnama & Hkoordinat).
      rewrite decide_True by done. simpl. by rewrite Hnama, Hkoordinat, Hkeys.
    + rewrite decide_False; [done|]. by rewrite Hreturned.
Qed.

Lemma save_progress_run (all_results : list OutletResult) (w : World) :
  save_progress all_results w
  = (Ok tt, {| api_cache := api_cache w; requests := requests w;
               attempts := attempts w;
               progress_file := Some all_results |}).
Proof. reflexivity. Qed.

(** The batch loop never raises.  It appends, batch after batch, one
    record for each outlet whose coordinates parse, in the order in which
    the workers complete, and the checkpoint written last holds
    everything returned. *)
Lemma run_batches_run (batch_numbers : list nat) (outlets : list Outlet)
    (batch_size : nat) (radius : Z) (all_results : list OutletResult)
    (w : World) :
  ∃ new_results w',
    run_batches net as_completed batch_numbers outlets batch_size radius
      all_results w
    = (Ok (all_results ++ new_results), w')
    ∧ map (fun r => (Nama_Outlet r, Koordinat r)) new_results
      = map (fun o => (nama o, koordinat o))
          (filter (fun o => is_ok (parse_coordinates (koordinat o)) = true)
             (concat
                (map (fun i =>
                        as_completed
                          (slice outlets (i * batch_size)
                             (Nat.min ((i + 1) * batch_size)
                                      (length outlets))))
                     batch_numbers)))
    ∧ (batch_numbers ≠ [] →
       progress_file w' = Some (all_results ++ new_results)).
Proof.
  revert all_results w.
  induction batch_numbers as [|i rest IH]; intros all_results w.
  - exists [], w. by rewrite app_nil_r.
  - cbn [run_batches]. cbv zeta. rewrite bind_run.
    destruct (collect_results_run
                (as_completed
                   (slice outlets (i * batch_size)
                      (Nat.min ((i + 1) * batch_size) (length outlets))))
                radius w) as (batch_results & w1 & -> & Hbatch).
    rewrite bind_run, save_progress_run.
    destruct (IH (all_results ++ batch_results)
                {| api_cache := api_cache w1; requests := requests w1;
                   attempts := attempts w1;
                   progress_file := Some (all_results ++ batch_results) |})
      as (new_results & w2 & Hrun & Hnew & Hfile).
    exists (batch_results ++ new_results), w2.
    rewrite Hrun, app_assoc. split; [done|]. split.
    + cbn [map concat]. by rewrite filter_app, !map_app, Hbatch, Hnew.
    + intros _. destruct rest as [|i' rest'].
      * simpl in Hrun. injection Hrun as Hres <-. simpl.
        by rewrite <- Hres.
      * by apply Hfile.
Qed.

Lemma take_slice {A : Type} (l : list A) (batch_size n : nat) :
  take (n * batch_size) l
  ++ slice l (n * batch_size) (Nat.min ((n + 1) * batch_size) (length l))
  = take ((n + 1) * batch_size) l.
Proof.
  unfold slice.
  replace ((n + 1) * batch_size) with (n * batch_size + batch_size) by lia.
  rewrite <- take_take_drop. f_equal.
  destruct (Nat.le_ge_cases (n * batch_size + batch_size) (length l)).
  - f_equal. lia.
  - rewrite !take_ge; [done| |]; rewrite length_drop; lia.
Qed.

(** The batches, taken in order, make up the list of outlets. *)
Lemma batches_cover {A : Type} (l : list A) (batch_size : nat) :
  batch_size ≠ 0 →
  concat (map (fun i => slice l (i * batch_size)
                          (Nat.min ((i + 1) * batch_size) (length l)))
              (seq 0 ((length l + batch_size - 1) / batch_size)))
  = l.
Proof.
  intros Hsize.
  assert (Hprefix : ∀ n,
            concat (map (fun i => slice l (i * batch_size)
                                    (Nat.min ((i + 1) * batch_size)
                                             (length l)))
                        (seq 0 n))
            = take (n * batch_size) l).
  { induction n as [|n IH]; [done|].
    rewrite seq_S, map_app, concat_app, IH. simpl.
    rewrite app_nil_r. replace (batch_size + n * batch_size)
      with ((n + 1) * batch_size) by lia.
    apply take_slice. }
  rewrite Hprefix. apply take_ge.
  pose proof (Nat.div_mod (length l + batch_size - 1) batch_size Hsize).
  pose proof (Nat.mod_upper_bound (length l + batch_size - 1) batch_size
                Hsize).
  nia.
Qed.

Lemma concat_map_Permutation {A B : Type} (f g : A → list B) (l : list A) :
  (∀ x, f x ≡ₚ g x) → concat (map f l) ≡ₚ concat (map g l).
Proof.
  intros Hfg. induction l as [|x l IH]; [done|].
  simpl. by rewrite Hfg, IH.
Qed.

(** C9: [process_outlet_with_retry] returns [None], whatever the number
    of retries, for an outlet whose coordinate text does not parse, and a
    record for any other outlet, failed or not.  [batch_process_outlets]
    keeps the records only: its result, which is also what the checkpoint
    holds, has one record for each outlet whose coordinates parse and none
    with a coordinate text that does not parse. *)
Theorem unparseable_outlets_are_dropped
    (outlets : list Outlet) (batch_size : nat) (radius : Z) (w : World) :
  (∀ batch, as_completed batch ≡ₚ batch) →
  batch_size ≠ 0 →
  (∀ outlet max_retries w0,
     ∃ returned w1,
       process_outlet_with_retry net outlet max_retries radius w0
       = (Ok returned, w1)
       ∧ (is_ok (parse_coordinates (koordinat outlet)) = false →
          returned = None)
       ∧ (is_ok (parse_coordinates (koordinat outlet)) = true →
          ∃ result, returned = Some result
                    ∧ Nama_Outlet result = nama outlet
                    ∧ Koordinat result = koordinat outlet))
  ∧ ∃ results w',
      batch_process_outlets net as_completed outlets batch_size radius w
      = (Ok results, w')
      ∧ (outlets ≠ [] → progress_file w' = Some results)
      ∧ map (fun r => (Nama_Outlet r, Koordinat r)) results
        ≡ₚ map (fun o => (nama o, koordinat o))
             (filter (fun o => is_ok (parse_coordinates (koordinat o)) = true)
                     outlets)
      ∧ (∀ outlet result,
           is_ok (parse_coordinates (koordinat outlet)) = false →
           result ∈ results → Koordinat result ≠ koordinat outlet)
      ∧ (∀ outlet,
           outlet ∈ outlets →
           is_ok (parse_coordinates (koordinat outlet)) = true →
           ∃ result, result ∈ results
                     ∧ Nama_Outlet result = nama outlet
                     ∧ Koordinat result = koordinat outlet).
Proof.
  intros Hperm Hsize. split.
  { intros outlet max_retries w0.
    destruct (process_outlet_with_retry_run outlet max_retries radius w0)
      as (returned & w1 & -> & Hreturned).
    exists returned, w1. split; [done|].
    destruct returned as [result|].
    - destruct Hreturned as (Hok & ? & ?).
      split; [by rewrite Hok|]. intros _. by exists result.
    - split; [done|]. by rewrite Hreturned. }
  unfold batch_process_outlets.
  rewrite (proj2 (Nat.eqb_neq batch_size 0) Hsize).
  destruct (run_batches_run
              (seq 0 ((length outlets + batch_size - 1) / batch_size))
              outlets batch_size radius [] w)
    as (results & w' & -> & Hkeys & Hfile).
  exists results, w'. simpl.
  assert (Hcontent :
            map (fun r => (Nama_Outlet r, Koordinat r)) results
            ≡ₚ map (fun o => (nama o, koordinat o))
                 (filter (fun o =>
                            is_ok (parse_coordinates (koordinat o)) = true)
                         outlets)).
  { rewrite Hkeys. apply Permutation_map.
    rewrite <- (batches_cover outlets batch_size Hsize) at 2.
    apply filter_Permutation.
    apply (concat_map_Permutation
             (fun i => as_completed
                         (slice outlets (i * batch_size)
                            (Nat.min ((i + 1) * batch_size)
                                     (length outlets))))).
    intros i. apply Hperm. }
  split; [done|]. split.
  { intros Hne. apply Hfile. intros Hseq.
    destruct outlets as [|o outlets']; [done|].
    assert (Hpos : 0 < (length (o :: outlets') + batch_size - 1) / batch_size).
    { apply Nat.div_str_pos. simpl. lia. }
    destruct ((length (o :: outlets') + batch_size - 1) / batch_size);
      [lia|done]. }
  split; [done|]. split.
  - intros outlet result Hfail Hin Heq.
    assert (Hkey : (Nama_Outlet result, Koordinat result)
                   ∈ map (fun r => (Nama_Outlet r, Koordinat r)) results)
      by (apply list_elem_of_fmap; by exists result).
    rewrite Hcontent in Hkey.
    apply list_elem_of_fmap in Hkey as (o & [= _ Hk] & Ho).
    apply list_elem_of_filter in Ho as [Hok _].
    by rewrite <- Hk, Heq, Hfail in Hok.
  - intros outlet Hin Hok.
    assert (Hkey : (nama outlet, koordinat outlet)
                   ∈ map (fun r => (Nama_Outlet r, Koordinat r)) results).
    { rewrite Hcontent. apply list_elem_of_fmap. exists outlet.
      split; [done|]. by apply list_elem_of_filter. }
    apply list_elem_of_fmap in Hkey as (result & [= Hn Hk] & Hr).
    by exists result.
Qed.

(** ** Radius escalation *)

Lemma find_without_facilities_indices (i : nat)
    (results : list OutletResult) (j : nat) :
  j ∈ (find_without_facilities i results).2 →
  i ≤ j ∧ ∃ r, results !! (j - i) = Some r ∧ has_facility r = false.
Proof.
  revert i. induction results as [|result rest IH]; intros i.
  - simpl. by intros ?%elem_of_nil.
  - cbn [find_without_facilities].
    destruct (find_without_facilities (S i) rest) as [outlets indices] eqn:E.
    pose proof (IH (S i)) as IH'. rewrite E in IH'. simpl in IH'.
    assert (Hrest : j ∈ indices →
              i ≤ j ∧ ∃ r, (result :: rest) !! (j - i) = Some r
                           ∧ has_facility r = false).
    { intros Hj. destruct (IH' Hj) as (Hle & r & Hr & Hnone).
      split; [lia|]. exists r. split; [|done].
      by replace (j - i) with (S (j - S i)) by lia. }
    destruct (has_facility result) eqn:Hfac; simpl; [done|].
    intros [->|Hj]%elem_of_cons; [|by apply Hrest].
    split; [lia|]. exists result. by rewrite Nat.sub_diag.
Qed.

Lemma write_back_length (indices : list nat)
    (updated_results results : list OutletResult) :
  length (write_back indices updated_results results) = length results.
Proof.
  revert updated_results results.
  induction indices as [|i indices IH]; intros [|u updated] results;
    simpl; try done.
  by rewrite IH, length_insert.
Qed.

Lemma write_back_other (indices : list nat)
    (updated_results results : list OutletResult) (j : nat) :
  j ∉ indices →
  write_back indices updated_results results !! j = results !! j.
Proof.
  revert updated_results results.
  induction indices as [|i indices IH]; intros [|u updated] results Hj;
    simpl; try done.
  apply not_elem_of_cons in Hj as [Hne Hj].
  rewrite IH by done. by apply list_lookup_insert_ne.
Qed.

(** X21: whatever the order in which the workers complete, the escalation
    pass returns a list of the same length in which every record that had
    a facility is where it was. *)
Lemma increase_detection_radius_frame (results : list OutletResult)
    (new_radius : Z) (w : World) :
  ∃ updated w',
    increase_detection_radius net as_completed results new_radius w
    = (Ok updated, w')
    ∧ length updated = length results
    ∧ ∀ i r, results !! i = Some r → has_facility r = true →
             updated !! i = Some r.
Proof.
  unfold increase_detection_radius.
  pose proof (find_without_facilities_indices 0 results) as Hindices.
  destruct (find_without_facilities 0 results) as [outlets indices].
  simpl in Hindices.
  destruct outlets as [|outlet outlets]; [by exists results, w|].
  rewrite bind_run. unfold batch_process_outlets.
  change (BATCH_SIZE =? 0) with false. cbv iota.
  destruct (run_batches_run
              (seq 0 ((length (outlet :: outlets) + BATCH_SIZE - 1)
                      / BATCH_SIZE))
              (outlet :: outlets) BATCH_SIZE new_radius [] w)
    as (updated_results & w' & -> & _).
  eexists _, w'. split; [reflexivity|].
  split; [apply write_back_length|].
  intros i r Hr Hfac. rewrite write_back_other; [done|].
  intros Hi. destruct (Hindices i Hi) as (_ & r' & Hr' & Hnone).
  rewrite Nat.sub_0_r in Hr'. congruence.
Qed.

Lemma find_without_facilities_lookup (i0 : nat)
    (results : list OutletResult) (k i : nat) :
  (find_without_facilities i0 results).2 !! k = Some i →
  ∃ r, results !! (i - i0) = Some r ∧ i0 ≤ i
       ∧ (find_without_facilities i0 results).1 !! k
         = Some {| nama := Nama_Outlet r; koordinat := Koordinat r |}.
Proof.
  revert i0 k. induction results as [|result rest IH]; intros i0 k.
  - simpl. by rewrite lookup_nil.
  - cbn [find_without_facilities].
    pose proof (IH (S i0)) as IH'.
    destruct (find_without_facilities (S i0) rest) as [outlets indices].
    simpl in IH'.
    assert (Hrest : ∀ k', indices !! k' = Some i →
              ∃ r, (result :: rest) !! (i - i0) = Some r ∧ i0 ≤ i
                   ∧ outlets !! k'
                     = Some {| nama := Nama_Outlet r;
                               koordinat := Koordinat r |}).
    { intros k' Hk'. destruct (IH' k' Hk') as (r & Hr & Hle & Ho).
      exists r. split; [|split; [lia|done]].
      by replace (i - i0) with (S (i - S i0)) by lia. }
    destruct (has_facility result); simpl; [by apply Hrest|].
    destruct k as [|k]; simpl; [|by apply Hrest].
    intros [= <-]. exists result. by rewrite Nat.sub_diag.
Qed.

Lemma find_without_facilities_outlets (i0 : nat)
    (results : list OutletResult) (o : Outlet) :
  o ∈ (find_without_facilities i0 results).1 →
  ∃ r, r ∈ results ∧ has_facility r = false
       ∧ o = {| nama := Nama_Outlet r; koordinat := Koordinat r |}.
Proof.
  revert i0. induction results as [|result rest IH]; intros i0.
  - simpl. by intros ?%elem_of_nil.
  - cbn [find_without_facilities].
    pose proof (IH (S i0)) as IH'.
    destruct (find_without_facilities (S i0) rest) as [outlets indices].
    simpl in IH'.
    assert (Hrest : o ∈ outlets →
              ∃ r, r ∈ result :: rest ∧ has_facility r = false
                   ∧ o = {| nama := Nama_Outlet r;
                            koordinat := Koordinat r |}).
    { intros Ho. destruct (IH' Ho) as (r & Hr & Hnone & ->).
      exists r. split; [by right|done]. }
    destruct (has_facility result) eqn:Hfac; simpl; [done|].
    intros [->|Ho]%elem_of_cons; [|by apply Hrest].
    exists result. split; [by left|done].
Qed.

Lemma find_without_facilities_complete (i0 : nat)
    (results : list OutletResult) (j : nat) (r : OutletResult) :
  results !! j = Some r → has_facility r = false →
  i0 + j ∈ (find_without_facilities i0 results).2.
Proof.
  revert i0 j. induction results as [|result rest IH]; intros i0 j.
  - by rewrite lookup_nil.
  - cbn [find_without_facilities].
    pose proof (IH (S i0)) as IH'.
    destruct (find_without_facilities (S i0) rest) as [outlets indices].
    simpl in IH'. destruct j as [|j]; simpl.
    + intros [= ->] ->. simpl. rewrite Nat.add_0_r. by left.
    + intros Hr Hnone. specialize (IH' j Hr Hnone).
      replace (i0 + S j) with (S i0 + j) by lia.
      destruct (has_facility result); simpl; [done|by right].
Qed.

Lemma find_without_facilities_NoDup (i0 : nat)
    (results : list OutletResult) :
  NoDup (find_without_facilities i0 results).2.
Proof.
  revert i0. induction results as [|result rest IH]; intros i0.
  - constructor.
  - cbn [find_without_facilities].
    pose proof (IH (S i0)) as IH'.
    pose proof (find_without_facilities_indices (S i0) rest i0) as Hlow.
    destruct (find_without_facilities (S i0) rest) as [outlets indices].
    simpl in *. destruct (has_facility result); simpl; [done|].
    apply NoDup_cons. split; [|done].
    intros Hin. destruct (Hlow Hin) as [Hle _]. lia.
Qed.

Lemma write_back_lookup (indices : list nat)
    (updated_results results : list OutletResult) (k i : nat)
    (u : OutletResult) :
  NoDup indices → indices !! k = Some i → updated_results !! k = Some u →
  i < length results →
  write_back indices updated_results results !! i = Some u.
Proof.
  revert updated_results results k.
  induction indices as [|i0 indices IH];
    intros [|u0 updated] results k Hnodup Hi Hu Hlen;
    try by rewrite lookup_nil in *.
  apply NoDup_cons in Hnodup as [Hnotin Hnodup]. simpl.
  destruct k as [|k]; simpl in Hi, Hu.
  - injection Hi as ->. injection Hu as ->.
    rewrite write_back_other by done. by apply list_lookup_insert_eq.
  - apply (IH updated _ k); try done. by rewrite length_insert.
Qed.

(** X22: when the workers complete in the order of submission and the
    coordinate text of every record without a facility parses, every such
    record is replaced by a record for the same outlet. *)
Lemma increase_detection_radius_in_order (results : list OutletResult)
    (new_radius : Z) (w : World) :
  (∀ batch, as_completed batch = batch) →
  (∀ r, r ∈ results → has_facility r = false →
        is_ok (parse_coordinates (Koordinat r)) = true) →
  ∃ updated w',
    increase_detection_radius net as_completed results new_radius w
    = (Ok updated, w')
    ∧ ∀ i r, results !! i = Some r → has_facility r = false →
        ∃ r', updated !! i = Some r'
              ∧ Nama_Outlet r' = Nama_Outlet r
              ∧ Koordinat r' = Koordinat r.
Proof.
  intros Horder Hparse. unfold increase_detection_radius.
  pose proof (find_without_facilities_lookup 0 results) as Hlookup.
  pose proof (find_without_facilities_outlets 0 results) as Houtlets.
  pose proof (find_without_facilities_complete 0 results) as Hcomplete.
  pose proof (find_without_facilities_NoDup 0 results) as Hnodup.
  destruct (find_without_facilities 0 results) as [outlets indices].
  simpl in Hlookup, Houtlets, Hcomplete, Hnodup.
  assert (Hupdate : ∀ updated_results : list OutletResult,
            map (fun r => (Nama_Outlet r, Koordinat r)) updated_results
            = map (fun o => (nama o, koordinat o)) outlets →
            ∀ i r, results !! i = Some r → has_facility r = false →
              ∃ r', write_back indices updated_results results !! i = Some r'
                    ∧ Nama_Outlet r' = Nama_Outlet r
                    ∧ Koordinat r' = Koordinat r).
  { intros updated_results Hkeys i r Hr Hnone.
    pose proof (Hcomplete i r Hr Hnone) as Hi. simpl in Hi.
    apply list_elem_of_lookup in Hi as [k Hk].
    destruct (Hlookup k i Hk) as (r0 & Hr0 & _ & Ho).
    rewrite Nat.sub_0_r, Hr in Hr0. injection Hr0 as <-.
    assert (Hkey : map (fun r => (Nama_Outlet r, Koordinat r))
                     updated_results !! k
                   = Some (Nama_Outlet r, Koordinat r))
      by (by rewrite Hkeys, list_lookup_fmap, Ho).
    rewrite list_lookup_fmap in Hkey.
    destruct (updated_results !! k) as [u|] eqn:Hu; [|done].
    injection Hkey as Hn Hc. exists u. split; [|done].
    apply (write_back_lookup indices updated_results results k);
      [done..|]. by eapply lookup_lt_Some. }
  destruct outlets as [|outlet outlets'] eqn:Hlist.
  { exists results, w. split; [done|].
    intros i r Hr Hnone.
    destruct (Hupdate [] eq_refl i r Hr Hnone) as (r' & Hr' & ? & ?).
    destruct indices; simpl in Hr'; by exists r'. }
  rewrite <- Hlist in *. clear Hlist outlet outlets'.
  rewrite bind_run. unfold batch_process_outlets.
  change (BATCH_SIZE =? 0) with false. cbv iota.
  destruct (run_batches_run
              (seq 0 ((length outlets + BATCH_SIZE - 1) / BATCH_SIZE))
              outlets BATCH_SIZE new_radius [] w)
    as (updated_results & w' & -> & Hupdated & _).
  eexists _, w'. split; [reflexivity|]. simpl.
  apply Hupdate. rewrite Hupdated. f_equal.
  rewrite (map_ext _ (fun i => slice outlets (i * BATCH_SIZE)
                                 (Nat.min ((i + 1) * BATCH_SIZE)
                                          (length outlets))))
    by (intros; apply Horder).
  rewrite batches_cover by done.
  assert (Hok : ∀ o, o ∈ outlets →
            is_ok (parse_coordinates (koordinat o)) = true).
  { intros o Ho. destruct (Houtlets o Ho) as (r & Hr & Hnone & ->).
    by apply Hparse. }
  clear -Hok. induction outlets as [|o l IH]; [done|].
  rewrite filter_cons_True by (apply Hok; by left).
  f_equal. apply IH. intros o' Ho'. apply Hok. by right.
Qed.

End BatchProperties.

End ClientProperties.

End Properties.

(** ** The properties on sample inputs *)

Module Checks.

Import Examples.

#[local] Existing Instance Decimal.floats.

(** C1, as stated, fails: with every request meeting a transport
    exception, the first attempt already returns a record, after 27
    requests; the record has no facility and no ['Error'] key. *)
Lemma failing_client_single_attempt :
  let run :=
    process_outlet_with_retry net_down outlet_a 2 DEFAULT_RADIUS fresh_world in
  run.1 = Ok (Some (record_of outlet_a (Qmake (-62) 10) (Qmake 1068 10)
                      false false))
  ∧ attempts run.2 = 1
  ∧ requests run.2 = 27
  ∧ Error (record_of outlet_a (Qmake (-62) 10) (Qmake 1068 10) false false)
    = None.
Proof. repeat apply conj; reflexivity. Qed.

Lemma process_outlet_with_retry_bound_witness :
  parse_coordinates (koordinat outlet_a)
  = Ok (Qmake (-62) 10, Qmake 1068 10)
  ∧ (∃ w', process_outlet_with_retry net_array outlet_a 2 DEFAULT_RADIUS
             fresh_world
           = (Ok (Some (failed_result outlet_a (Qmake (-62) 10)
                          (Qmake 1068 10))), w')
           ∧ attempts w' = 2)
  ∧ (process_outlet_with_retry net_down outlet_a 2 DEFAULT_RADIUS
       fresh_world).1
    = Ok (Some (record_of outlet_a (Qmake (-62) 10) (Qmake 1068 10)
                  false false)).
Proof.
  assert (Hparse : parse_coordinates (koordinat outlet_a)
                   = Ok (Qmake (-62) 10, Qmake 1068 10))
    by reflexivity.
  split; [exact Hparse|]. split.
  - apply (proj1 (proj2 (process_outlet_with_retry_bound net_array outlet_a
                           DEFAULT_RADIUS _ _ fresh_world Hparse))).
    intros [cache sent tried file] Hcache. simpl in Hcache. subst cache.
    reflexivity.
  - rewrite (proj2 (proj2 (process_outlet_with_retry_bound net_down outlet_a
                             DEFAULT_RADIUS _ _ fresh_world Hparse))).
    + reflexivity.
    + intros n endpoint query. exact I.
    + reflexivity.
Defined.

(** C2: two records without facilities, and the worker for the second
    outlet completing first.  The escalation pass writes the record of
    Outlet B at index 0 and the record of Outlet A at index 1. *)
Theorem escalation_misplaces_results :
  let results :=
    [record_of outlet_a (Qmake (-62) 10) (Qmake 1068 10) false false;
     record_of outlet_b (Qmake (-778) 100) (Qmake 11037 100) false false] in
  let run :=
    increase_detection_radius net_down (@rev Outlet) results LARGER_RADIUS
      fresh_world in
  map Nama_Outlet results = ["Outlet A"; "Outlet B"]
  ∧ run.1
    = Ok [record_of outlet_b (Qmake (-778) 100) (Qmake 11037 100)
            false false;
          record_of outlet_a (Qmake (-62) 10) (Qmake 1068 10) false false].
Proof. repeat apply conj; reflexivity. Qed.

(** The scenario of the specification: an outlet at (-6.2, 106.8) with
    that one restaurant nearby gets the Culinary flag and no other, from
    nine requests, one per category. *)
Lemma outlet_near_warung :
  let run :=
    process_outlet_with_retry net_warung outlet_a 2 DEFAULT_RADIUS
      fresh_world in
  run.1 = Ok (Some (record_of outlet_a (Qmake (-62) 10) (Qmake 1068 10)
                      false true))
  ∧ requests run.2 = 9
  ∧ attempts run.2 = 1.
Proof. repeat apply conj; reflexivity. Qed.

Lemma get_remaining_outlets_resume_witness :
  let outlets := [outlet_a; outlet_b; outlet_c] in
  let existing_results :=
    [record_of outlet_b (Qmake (-778) 100) (Qmake 11037 100) false false] in
  NoDup (map nama outlets)
  ∧ (list_to_set (map Nama_Outlet existing_results) : gset string)
    ⊆ list_to_set (map nama outlets)
  ∧ get_remaining_outlets outlets existing_results = [outlet_a; outlet_c]
  ∧ length (get_remaining_outlets outlets existing_results) = 3 - 1.
Proof.
  intros outlets existing_results.
  assert (Hnodup : NoDup (map nama outlets))
    by (apply (bool_decide_unpack _); reflexivity).
  assert (Hsub : (list_to_set (map Nama_Outlet existing_results)
                  : gset string) ⊆ list_to_set (map nama outlets))
    by (apply (bool_decide_unpack _); reflexivity).
  split; [exact Hnodup|]. split; [exact Hsub|].
  destruct (get_remaining_outlets_resume outlets existing_results
              Hnodup Hsub) as [Heq Hlen].
  split; [rewrite Heq; reflexivity|].
  rewrite Hlen. reflexivity.
Defined.

Lemma parse_coordinates_separator_independent_witness :
  parse_coordinates "-7.78, 110.37" = Ok (Qmake (-778) 100, Qmake 11037 100)
  ∧ parse_coordinates "-7.78 110.37" = Ok (Qmake (-778) 100, Qmake 11037 100).
Proof.
  change (parse_coordinates ("-7.78" +:+ EmptyString +:+ "," +:+ " " +:+ "110.37")
          = Ok (Qmake (-778) 100, Qmake 11037 100)
          ∧ parse_coordinates ("-7.78" +:+ " " +:+ "110.37")
            = Ok (Qmake (-778) 100, Qmake 11037 100)).
  apply (@parse_coordinates_separator_independent Decimal.floats
           "-7.78" "110.37" EmptyString " " " "
           (Qmake (-778) 100) (Qmake 11037 100));
    solve [discriminate | reflexivity].
Defined.

(** C6, as stated, fails: the message of the error for [" x "] quotes
    ["x"], the stripped text, and does not contain the input. *)
Lemma parse_error_quotes_stripped_text :
  parse_coordinates " x "
  = Raise (ValueError
             "Error saat parsing koordinat 'x': Format koordinat tidak valid: x")
  ∧ PyStr.contains " x "
      "Error saat parsing koordinat 'x': Format koordinat tidak valid: x"
    = false.
Proof. split; reflexivity. Qed.

(** C7, as stated, fails: the first endpoint answers with status 200, yet
    the call returns the body of the second, because the body of the
    first does not parse. *)
Lemma unparseable_200_is_passed_over :
  let query := CombinedQuery 100 0%Q 0%Q in
  let run :=
    call_overpass_api_on net_bad_first ["first"; "second"] query
      fresh_world in
  net_bad_first 0 "first" query = Some {| status_code := 200; json := None |}
  ∧ net_bad_first 1 "second" query
    = Some {| status_code := 200; json := Some (JObject (Some []) false) |}
  ∧ run.1 = Ok (Some (JObject (Some []) false))
  ∧ requests run.2 = 2.
Proof. repeat apply conj; reflexivity. Qed.

(** Three records, two of them residential: the percentage is the float
    that Python prints as 66.66666666666666. *)
Lemma generate_summary_report_spec_witness :
  let results :=
    [record_of outlet_a (Qmake (-62) 10) (Qmake 1068 10) true true;
     record_of outlet_b (Qmake (-778) 100) (Qmake 11037 100) false true;
     record_of outlet_c 0%Q 0%Q true true] in
  results ≠ []
  ∧ ∃ report,
      generate_summary_report results = Some report
      ∧ category_stats report !! "Culinary" = Some (3, 100%float)
      ∧ category_stats report !! "Residential"
        = Some (2, 0x1.0aaaaaaaaaaaap+6%float)
      ∧ max_facilities report = 2
      ∧ best_outlets report = ["Outlet A"; "Outlet C"].
Proof.
  intros results.
  assert (Hne : results ≠ []) by discriminate.
  split; [exact Hne|].
  destruct (generate_summary_report_spec results Hne)
    as (report & Hreport & _ & _ & Hstats & _ & _ & Hbest & _).
  exists report. split; [exact Hreport|].
  assert (Hmax : max_facilities report = 2).
  { assert (Hval : max_facilities <$> generate_summary_report results
                   = Some 2) by reflexivity.
    rewrite Hreport in Hval. by injection Hval. }
  split; [rewrite Hstats by (apply (bool_decide_unpack _); reflexivity);
          reflexivity|].
  split; [rewrite Hstats by (apply (bool_decide_unpack _); reflexivity);
          reflexivity|].
  split; [exact Hmax|].
  rewrite Hbest, Hmax. reflexivity.
Defined.

Lemma unparseable_outlets_are_dropped_witness :
  (∀ batch : list Outlet, rev batch ≡ₚ batch)
  ∧ 2 ≠ 0
  ∧ ∃ results w',
      batch_process_outlets net_down (@rev Outlet)
        [outlet_a; outlet_c; outlet_b] 2 DEFAULT_RADIUS fresh_world
      = (Ok results, w')
      ∧ progress_file w' = Some results
      ∧ map Nama_Outlet results = ["Outlet A"; "Outlet B"].
Proof.
  assert (Hperm : ∀ batch : list Outlet, rev batch ≡ₚ batch)
    by (intros batch; symmetry; apply Permutation_rev).
  assert (Hsize : 2 ≠ 0) by discriminate.
  split; [exact Hperm|]. split; [exact Hsize|].
  destruct (unparseable_outlets_are_dropped net_down (@rev Outlet)
              [outlet_a; outlet_c; outlet_b] 2 DEFAULT_RADIUS fresh_world
              Hperm Hsize)
    as (_ & results & w' & Hrun & Hfile & _).
  exists results, w'. split; [exact Hrun|].
  split; [by apply Hfile|].
  assert (Hval : (batch_process_outlets net_down (@rev Outlet)
                    [outlet_a; outlet_c; outlet_b] 2 DEFAULT_RADIUS
                    fresh_world).1
                 = Ok [record_of outlet_a (Qmake (-62) 10) (Qmake 1068 10)
                         false false;
                       record_of outlet_b (Qmake (-778) 100)
                         (Qmake 11037 100) false false]) by reflexivity.
  rewrite Hrun in Hval. injection Hval as ->. reflexivity.
Defined.

End Checks.

(** * Further properties *)

(** ** Requests and the cache *)

Section RequestProperties.

Context `{PyFloat}.

Variable net : Network.

Lemma call_overpass_api_on_bound (endpoints : list string) (query : Query)
    (w : World) :
  ∃ data k, call_overpass_api_on net endpoints query w
            = (Ok data, after_requests k w)
            ∧ k ≤ length endpoints.
Proof.
  revert w. induction endpoints as [|e rest IH]; intros w.
  - exists None, 0. simpl. by rewrite after_requests_0.
  - rewrite call_overpass_api_on_cons.
    destruct (endpoint_data _ _ _ _) as [data|].
    + exists (Some data), 1. split; [done|]. simpl. lia.
    + destruct (IH (after_requests 1 w)) as (data & k & -> & Hk).
      exists data, (1 + k). rewrite after_requests_add.
      split; [done|]. simpl. lia.
Qed.

Lemma check_each_category_bound (lat lon : pyfloat) (radius : Z)
    (cats : list string) (results : Flags) (w : World) :
  ∃ r k,
    check_each_category net lat lon radius cats results w
    = (r, after_requests k w)
    ∧ k ≤ 3 * length cats.
Proof.
  revert results w. induction cats as [|category rest IH]; intros results w.
  - exists (Ok results), 0. by rewrite after_requests_0.
  - cbn [check_each_category]. rewrite bind_run. unfold call_overpass_api.
    destruct (call_overpass_api_on_bound OVERPASS_ENDPOINTS
                (CategoryQuery USE_SIMPLIFIED_QUERIES category radius lat lon)
                w) as (data & k & -> & Hk).
    change (length OVERPASS_ENDPOINTS) with 3 in Hk.
    rewrite bind_run.
    assert (Hstep : ∃ r,
              match data with
              | Some data =>
                  if body_truthy data
                  then elements ← get_elements data;
                       b ← scan_category category elements;
                       mret (mark b category results)
                  else mret results
              | None => mret results
              end (after_requests k w) = (r, after_requests k w)).
    { destruct data as [data|]; [|by eexists].
      destruct (body_truthy data); [|by eexists].
      rewrite bind_run.
      destruct (get_elements_pure data (after_requests k w)) as [[els|e] ->];
        [|by eexists].
      rewrite bind_run.
      destruct (scan_category_pure category els (after_requests k w))
        as [[b|e] ->]; by eexists. }
    destruct Hstep as (r & ->).
    destruct r as [results1|e].
    + destruct (IH results1 (after_requests k w)) as (r & k' & -> & Hk').
      exists r, (k + k'). rewrite after_requests_add.
      split; [done|]. simpl. lia.
    + exists (Raise e), k. split; [done|]. simpl. lia.
Qed.

(** The facility check, unfolded for the shipped configuration: a cache
    hit, or the loop over the categories followed by the cache insertion. *)
Lemma check_nearby_facilities_simple_unfold (lat lon : pyfloat) (radius : Z)
    (w : World) :
  check_nearby_facilities_simple net lat lon radius w
  = let cache_key :=
      float_str lat +:+ "," +:+ float_str lon +:+ "," +:+ pretty radius in
    match api_cache w !! cache_key with
    | Some cached => (Ok cached, w)
    | None =>
        match check_each_category net lat lon radius CATEGORY_KEYS
                all_false w with
        | (Ok results, w1) =>
            (Ok results,
             {| api_cache := <[cache_key := results]> (api_cache w1);
                requests := requests w1;
                attempts := attempts w1;
                progress_file := progress_file w1 |})
        | (Raise e, w1) => (Raise e, w1)
        end
    end.
Proof.
  unfold check_nearby_facilities_simple. cbv zeta.
  change (if ENABLE_CACHE then ?x else None) with x.
  destruct (api_cache w !! _) as [cached|]; [done|].
  change (negb USE_SIMPLIFIED_QUERIES) with false. cbv iota.
  rewrite bind_run.
  destruct (check_each_category net lat lon radius CATEGORY_KEYS all_false w)
    as [[results|e] w1]; [|done].
  by rewrite bind_run, cache_store_run.
Qed.

(** What a run of the facility check leaves behind: at most 27 more
    requests, the same attempt counter and checkpoint, and, after a
    result, that result in the cache under the key of the query. *)
Lemma check_nearby_facilities_simple_effect (lat lon : pyfloat) (radius : Z)
    (w : World) (r : Result Flags) (w' : World) :
  check_nearby_facilities_simple net lat lon radius w = (r, w') →
  requests w ≤ requests w' ≤ requests w + 27
  ∧ attempts w' = attempts w
  ∧ progress_file w' = progress_file w
  ∧ ∀ flags, r = Ok flags →
      api_cache w'
        !! (float_str lat +:+ "," +:+ float_str lon +:+ "," +:+ pretty radius)
      = Some flags.
Proof.
  rewrite check_nearby_facilities_simple_unfold. cbv zeta.
  destruct (api_cache w !! _) as [cached|] eqn:Hcache.
  - intros [= <- <-]. split; [lia|]. split; [done|]. split; [done|].
    by intros flags [= <-].
  - destruct (check_each_category_bound lat lon radius CATEGORY_KEYS
                all_false w) as (r1 & k & -> & Hk).
    change (length CATEGORY_KEYS) with 9 in Hk.
    destruct r1 as [results|e]; intros [= <- <-]; simpl.
    + split; [lia|]. split; [done|]. split; [done|].
      intros flags [= <-]. by rewrite lookup_insert_eq.
    + split; [lia|]. split; [done|]. split; [done|]. done.
Qed.

(** The record literal depends on the flags only, not on the world. *)
Lemma make_result_pure (nama koordinat_str : string) (lat lon : pyfloat)
    (flags : Flags) :
  ∃ r, ∀ w, make_result nama koordinat_str lat lon flags w = (r, w).
Proof.
  unfold make_result.
  repeat match goal with
         | |- context [getitem flags ?key] =>
             lazymatch goal with
             | _ : flags !! key = _ |- _ => fail
             | _ => destruct (flags !! key) eqn:?
             end
         end;
    eexists; intros w;
    repeat (rewrite bind_run, getitem_run;
            match goal with
            | E : flags !! ?key = _ |- context [flags !! ?key] => rewrite E
            end; cbv iota);
    reflexivity.
Qed.

(** One attempt sends at most 27 requests and touches neither the attempt
    counter nor the checkpoint; a record it returns is built from flags
    that are in the cache afterwards. *)
Lemma process_outlet_effect (outlet : Outlet) (radius : Z) (w : World)
    (r : Result OutletResult) (w' : World) :
  process_outlet net outlet radius w = (r, w') →
  requests w ≤ requests w' ≤ requests w + 27
  ∧ attempts w' = attempts w
  ∧ progress_file w' = progress_file w
  ∧ ∀ result, r = Ok result →
      ∃ lat lon flags,
        parse_coordinates (koordinat outlet) = Ok (lat, lon)
        ∧ api_cache w'
            !! (float_str lat +:+ "," +:+ float_str lon +:+ ","
                +:+ pretty radius)
          = Some flags
        ∧ ∀ w0, make_result (nama outlet) (koordinat outlet) lat lon flags w0
                = (Ok result, w0).
Proof.
  unfold process_outlet. rewrite bind_run. unfold lift.
  destruct (parse_coordinates (koordinat outlet)) as [[lat lon]|e].
  - rewrite bind_run.
    destruct (check_nearby_facilities_simple net lat lon radius w)
      as [[flags|e] w1] eqn:Hcheck;
      apply check_nearby_facilities_simple_effect in Hcheck
        as (Hreq & Hatt & Hfile & Hcache).
    + destruct (make_result_pure (nama outlet) (koordinat outlet) lat lon
                  flags) as [r0 Hr0].
      rewrite Hr0. intros [= <- <-]. split; [done|]. split; [done|].
      split; [done|]. intros result ->. exists lat, lon, flags.
      split; [done|]. split; [by apply Hcache|done].
    + intros [= <- <-]. split; [done|]. split; [done|]. by split.
  - intros [= <- <-]. split; [lia|]. split; [done|]. by split.
Qed.

(** An attempt for coordinates whose flags are cached is the record
    literal built from the cached flags, on any network. *)
Lemma process_outlet_cached (outlet : Outlet) (radius : Z)
    (lat lon : pyfloat) (flags : Flags) (w : World) :
  parse_coordinates (koordinat outlet) = Ok (lat, lon) →
  api_cache w
    !! (float_str lat +:+ "," +:+ float_str lon +:+ "," +:+ pretty radius)
  = Some flags →
  process_outlet net outlet radius w
  = make_result (nama outlet) (koordinat outlet) lat lon flags w.
Proof.
  intros Hparse Hcache. unfold process_outlet.
  rewrite bind_run. unfold lift. rewrite Hparse, bind_run.
  rewrite check_nearby_facilities_simple_unfold. cbv zeta.
  by rewrite Hcache.
Qed.

(** The retry loop: at most 27 requests and one attempt for each turn it
    may take, the checkpoint untouched, and a returned record is the
    result of an attempt that ended in the final world. *)
Lemma retry_loop_effect (remaining : nat) (outlet : Outlet) (radius : Z)
    (w : World) (r : Result (option OutletResult)) (w' : World) :
  retry_loop net remaining outlet radius w = (r, w') →
  requests w ≤ requests w' ≤ requests w + 27 * remaining
  ∧ attempts w ≤ attempts w' ≤ attempts w + remaining
  ∧ progress_file w' = progress_file w
  ∧ ∀ result, r = Ok (Some result) →
      ∃ w0, process_outlet net outlet radius w0 = (Ok result, w').
Proof.
  revert w. induction remaining as [|remaining IH]; intros w.
  - intros [= <- <-]. split; [lia|]. split; [lia|]. by split.
  - rewrite retry_loop_S. cbv zeta.
    set (w1 := {| api_cache := api_cache w; requests := requests w;
                  attempts := S (attempts w);
                  progress_file := progress_file w |}).
    destruct (process_outlet net outlet radius w1) as [[result|e] w2]
      eqn:Hrun;
      pose proof (process_outlet_effect _ _ _ _ _ Hrun)
        as (Hreq & Hatt & Hfile & _); simpl in Hreq, Hatt, Hfile.
    + intros [= <- <-]. split; [lia|]. split; [lia|]. split; [done|].
      intros ? [= <-]. by exists w1.
    + intros Hloop. apply IH in Hloop as (Hreq' & Hatt' & Hfile' & Hres).
      split; [lia|]. split; [lia|]. split; [congruence|done].
Qed.

(** [process_outlet_with_retry]: the same bounds, and a record returned
    without ['Error'] is the result of an attempt that ended in the final
    world. *)
Lemma process_outlet_with_retry_effect (outlet : Outlet) (max_retries : nat)
    (radius : Z) (w : World) (r : Result (option OutletResult))
    (w' : World) :
  process_outlet_with_retry net outlet max_retries radius w = (r, w') →
  requests w ≤ requests w' ≤ requests w + 27 * max_retries
  ∧ attempts w ≤ attempts w' ≤ attempts w + max_retries
  ∧ progress_file w' = progress_file w
  ∧ ∀ result, r = Ok (Some result) → Error result = None →
      ∃ w0, process_outlet net outlet radius w0 = (Ok result, w').
Proof.
  unfold process_outlet_with_retry. rewrite bind_run.
  destruct (retry_loop net max_retries outlet radius w) as [[returned|e] w1]
    eqn:Hloop;
    apply retry_loop_effect in Hloop as (Hreq & Hatt & Hfile & Hres).
  - destruct returned as [result|].
    + intros [= <- <-]. split; [done|]. split; [done|]. split; [done|].
      intros ? [= <-] _. by apply Hres.
    + unfold try_except. rewrite bind_run. unfold lift.
      destruct (parse_coordinates (koordinat outlet)) as [[lat lon]|e];
        intros [= <- <-]; (split; [done|]; split; [done|]; split; [done|]);
        by intros ? [= <-].
  - intros [= <- <-]. split; [done|]. split; [done|]. by split.
Qed.

Section BatchRuns.

Variable as_completed : list Outlet → list Outlet.

Lemma collect_results_effect (completed : list Outlet) (radius : Z)
    (w : World) (r : Result (list OutletResult)) (w' : World) :
  collect_results net completed radius w = (r, w') →
  requests w ≤ requests w' ≤ requests w + 54 * length completed
  ∧ attempts w ≤ attempts w' ≤ attempts w + 2 * length completed
  ∧ progress_file w' = progress_file w.
Proof.
  revert w r w'. induction completed as [|outlet rest IH]; intros w r w'.
  - intros [= <- <-]. split; [lia|]. split; [lia|done].
  - cbn [collect_results]. rewrite bind_run.
    destruct (process_outlet_with_retry net outlet 2 radius w)
      as [[returned|e] w1] eqn:Hone;
      apply process_outlet_with_retry_effect in Hone
        as (Hreq & Hatt & Hfile & _).
    + rewrite bind_run.
      destruct (collect_results net rest radius w1) as [[results|e] w2]
        eqn:Hrest;
        apply IH in Hrest as (Hreq' & Hatt' & Hfile');
        intros [= <- <-]; simpl;
        (split; [lia|]; split; [lia|congruence]).
    + intros [= <- <-]. simpl. split; [lia|]. split; [lia|done].
Qed.

Lemma run_batches_effect (batch_numbers : list nat) (outlets : list Outlet)
    (batch_size : nat) (radius : Z) (all_results : list OutletResult)
    (w : World) (r : Result (list OutletResult)) (w' : World) :
  run_batches net as_completed batch_numbers outlets batch_size radius
    all_results w = (r, w') →
  let submitted :=
    concat (map (fun i =>
                   as_completed
                     (slice outlets (i * batch_size)
                        (Nat.min ((i + 1) * batch_size) (length outlets))))
                batch_numbers) in
  requests w ≤ requests w' ≤ requests w + 54 * length submitted
  ∧ attempts w ≤ attempts w' ≤ attempts w + 2 * length submitted.
Proof.
  revert all_results w.
  induction batch_numbers as [|i rest IH]; intros all_results w.
  - intros [= <- <-]. simpl. lia.
  - cbn [run_batches]. cbv zeta. rewrite bind_run.
    destruct (collect_results net _ radius w) as [[batch_results|e] w1]
      eqn:Hbatch;
      apply collect_results_effect in Hbatch as (Hreq & Hatt & _).
    + rewrite bind_run, save_progress_run. intros Hrest.
      apply IH in Hrest. cbv zeta in Hrest. simpl in Hrest.
      cbn [map concat]. rewrite length_app. lia.
    + intros [= <- <-]. cbn [map concat]. rewrite length_app. lia.
Qed.

(** A run of [batch_process_outlets]: it never raises; for a non-empty
    list the checkpoint holds what is returned, for the empty list
    nothing happens at all; the records are those of the outlets whose
    coordinates parse; at most 54 requests and 2 attempts are spent on
    each outlet. *)
Lemma batch_process_outlets_run (outlets : list Outlet) (batch_size : nat)
    (radius : Z) (w : World) :
  (∀ batch, as_completed batch ≡ₚ batch) →
  batch_size ≠ 0 →
  ∃ results w',
    batch_process_outlets net as_completed outlets batch_size radius w
    = (Ok results, w')
    ∧ (outlets ≠ [] → progress_file w' = Some results)
    ∧ (outlets = [] → results = [] ∧ w' = w)
    ∧ map (fun r => (Nama_Outlet r, Koordinat r)) results
      ≡ₚ map (fun o => (nama o, koordinat o))
           (filter (fun o => is_ok (parse_coordinates (koordinat o)) = true)
                   outlets)
    ∧ requests w ≤ requests w' ≤ requests w + 54 * length outlets
    ∧ attempts w ≤ attempts w' ≤ attempts w + 2 * length outlets.
Proof.
  intros Hperm Hsize. unfold batch_process_outlets.
  rewrite (proj2 (Nat.eqb_neq batch_size 0) Hsize).
  set (batch_numbers := seq 0 ((length outlets + batch_size - 1)
                               / batch_size)).
  assert (Hsubmitted :
            concat (map (fun i =>
                           as_completed
                             (slice outlets (i * batch_size)
                                (Nat.min ((i + 1) * batch_size)
                                         (length outlets))))
                        batch_numbers)
            ≡ₚ outlets).
  { transitivity
      (concat (map (fun i => slice outlets (i * batch_size)
                                (Nat.min ((i + 1) * batch_size)
                                         (length outlets)))
                   batch_numbers));
      [|by subst batch_numbers;
           rewrite (batches_cover outlets batch_size Hsize)].
    apply (concat_map_Permutation
             (fun i => as_completed
                         (slice outlets (i * batch_size)
                            (Nat.min ((i + 1) * batch_size)
                                     (length outlets))))).
    intros i. apply Hperm. }
  destruct (run_batches_run net as_completed batch_numbers outlets batch_size
              radius [] w) as (results & w' & Hrun & Hkeys & Hfile).
  pose proof (run_batches_effect _ _ _ _ _ _ _ _ Hrun) as Hcost.
  cbv zeta in Hcost. rewrite (Permutation_length Hsubmitted) in Hcost.
  exists results, w'. split; [done|]. split; [|split; [|split]].
  - intros Hne. apply Hfile. subst batch_numbers.
    destruct outlets as [|o l]; [done|].
    assert (1 ≤ (length (o :: l) + batch_size - 1) / batch_size) as Hle.
    { apply Nat.div_le_lower_bound; [done|]. simpl. lia. }
    destruct ((length (o :: l) + batch_size - 1) / batch_size); [lia|done].
  - intros ->. subst batch_numbers. simpl in Hrun.
    rewrite (Nat.div_small (batch_size - 1) batch_size) in Hrun by lia.
    simpl in Hrun. by injection Hrun as <- <-.
  - rewrite Hkeys. apply Permutation_map. by apply filter_Permutation.
  - done.
Qed.

End BatchRuns.

End RequestProperties.

(** ** The cache, the request budget and the checkpoint *)

Section SessionProperties.

Context `{PyFloat}.

(** X1: a record that [process_outlet_with_retry] has returned without an
    ['Error'] key is returned again by any later call for the same outlet
    and radius that starts from the world the first call left: whatever
    the network now answers, the call makes one attempt, sends no request
    and changes neither the cache nor the checkpoint.  This holds as well
    for the all-false record obtained while no endpoint could be
    reached. *)
Theorem cached_result_is_replayed (net1 net2 : Network) (outlet : Outlet)
    (max_retries1 max_retries2 : nat) (radius : Z) (w w' : World)
    (result : OutletResult) :
  process_outlet_with_retry net1 outlet max_retries1 radius w
  = (Ok (Some result), w') →
  Error result = None →
  max_retries2 ≠ 0 →
  process_outlet_with_retry net2 outlet max_retries2 radius w'
  = (Ok (Some result),
     {| api_cache := api_cache w'; requests := requests w';
        attempts := S (attempts w');
        progress_file := progress_file w' |}).
Proof.
  intros Hfirst Hclean Hretries.
  apply process_outlet_with_retry_effect in Hfirst as (_ & _ & _ & Hfrom).
  destruct (Hfrom result eq_refl Hclean) as (w0 & Hrun).
  apply process_outlet_effect in Hrun as (_ & _ & _ & Hrun).
  destruct (Hrun result eq_refl) as (lat & lon & flags & Hparse & Hcache
                                     & Hrecord).
  destruct max_retries2 as [|remaining]; [done|].
  unfold process_outlet_with_retry.
  rewrite bind_run, retry_loop_S. cbv zeta.
  rewrite (process_outlet_cached net2 outlet radius lat lon flags)
    by done.
  by rewrite Hrecord.
Qed.

(** X2: one call of [process_outlet_with_retry] sends at most 27 requests
    (nine categories, three endpoints) for each attempt it is allowed,
    makes at most [max_retries] attempts, and never writes the
    checkpoint. *)
Theorem process_outlet_with_retry_cost (net : Network) (outlet : Outlet)
    (max_retries : nat) (radius : Z) (w : World) :
  let w' := (process_outlet_with_retry net outlet max_retries radius w).2 in
  requests w ≤ requests w' ≤ requests w + 27 * max_retries
  ∧ attempts w ≤ attempts w' ≤ attempts w + max_retries
  ∧ progress_file w' = progress_file w.
Proof.
  cbv zeta.
  destruct (process_outlet_with_retry net outlet max_retries radius w)
    as [r w'] eqn:Hrun.
  apply process_outlet_with_retry_effect in Hrun as (? & ? & ? & _).
  done.
Qed.

(** X3: a run of [batch_process_outlets] over [n] outlets returns at most
    [n] records, makes at most [2 n] attempts and sends at most [54 n]
    requests, whatever the batch size and the order in which the workers
    complete. *)
Theorem batch_process_outlets_cost (net : Network)
    (as_completed : list Outlet → list Outlet) (outlets : list Outlet)
    (batch_size : nat) (radius : Z) (w : World) :
  (∀ batch, as_completed batch ≡ₚ batch) →
  batch_size ≠ 0 →
  ∃ results w',
    batch_process_outlets net as_completed outlets batch_size radius w
    = (Ok results, w')
    ∧ length results ≤ length outlets
    ∧ attempts w ≤ attempts w' ≤ attempts w + 2 * length outlets
    ∧ requests w ≤ requests w' ≤ requests w + 54 * length outlets.
Proof.
  intros Hperm Hsize.
  destruct (batch_process_outlets_run net as_completed outlets batch_size
              radius w Hperm Hsize)
    as (results & w' & Hrun & _ & _ & Hkeys & Hreq & Hatt).
  exists results, w'. split; [done|]. split; [|done].
  apply Permutation_length in Hkeys. rewrite !length_map in Hkeys.
  rewrite Hkeys. apply length_filter.
Qed.


(** The analysis phase of [main], once the run is confirmed and for a
    non-empty sheet: the records kept from the checkpoint, followed by
    those of a batch run over the remaining outlets. *)
Lemma main_analysis_run (net : Network)
    (as_completed : list Outlet → list Outlet) (outlets : list Outlet)
    (resume proceed : string) (w : World) :
  (∀ batch, as_completed batch ≡ₚ batch) →
  PyStr.lower proceed = "y" →
  outlets ≠ [] →
  let existing_results :=
    match progress_file w with
    | Some existing_results =>
        if bool_decide (PyStr.lower resume = "y") then existing_results
        else []
    | None => []
    end in
  let remaining := get_remaining_outlets outlets existing_results in
  ∃ new_results w',
    main_analysis net as_completed outlets resume proceed w
    = (Ok match existing_results ++ new_results with
          | [] => None
          | results => Some results
          end, w')
    ∧ map (fun r => (Nama_Outlet r, Koordinat r)) new_results
      ≡ₚ map (fun o => (nama o, koordinat o))
           (filter (fun o => is_ok (parse_coordinates (koordinat o)) = true)
                   remaining)
    ∧ (remaining = [] → new_results = [] ∧ w' = w)
    ∧ (remaining ≠ [] → progress_file w' = Some new_results).
Proof.
  intros Hperm Hproceed Houtlets. cbv zeta.
  assert (Hfresh :
            ∃ new_results w',
              (results ← batch_process_outlets net as_completed outlets
                           BATCH_SIZE DEFAULT_RADIUS;
               mret (Some results)) w
              = (Ok (Some new_results), w')
              ∧ map (fun r => (Nama_Outlet r, Koordinat r)) new_results
                ≡ₚ map (fun o => (nama o, koordinat o))
                     (filter (fun o =>
                                is_ok (parse_coordinates (koordinat o))
                                = true) outlets)
              ∧ progress_file w' = Some new_results).
  { destruct (batch_process_outlets_run net as_completed outlets BATCH_SIZE
                DEFAULT_RADIUS w Hperm ltac:(done))
      as (results & w' & Hrun & Hfile & _ & Hkeys & _).
    exists results, w'. rewrite bind_run, Hrun.
    split; [done|]. split; [done|]. by apply Hfile. }
  unfold main_analysis. rewrite bind_run. unfold check_resume_point.
  destruct outlets as [|outlet outlets']; [done|].
  set (outlets := outlet :: outlets') in *.
  destruct (progress_file w) as [[|existing existing_results]|] eqn:Hfile.
  - rewrite Hproceed, bool_decide_eq_true_2 by done.
    replace (if bool_decide (PyStr.lower resume = "y") then [] else [])
      with (@nil OutletResult) by (by destruct (bool_decide _)).
    rewrite bind_run.
    destruct Hfresh as (new_results & w' & -> & Hkeys & Hnew).
    exists new_results, w'. simpl. split; [by destruct new_results|].
    split; [done|]. split; [done|]. done.
  - destruct (bool_decide (PyStr.lower resume = "y")).
    + set (existing_all := existing :: existing_results).
      destruct (get_remaining_outlets outlets existing_all)
        as [|o remaining] eqn:Hremaining.
      * exists [], w. rewrite bind_run. simpl.
        split; [by rewrite app_nil_r|]. by split.
      * rewrite Hproceed, bool_decide_eq_true_2 by done.
        rewrite <- Hremaining. clear Hfresh.
        destruct (batch_process_outlets_run net as_completed
                    (get_remaining_outlets outlets existing_all) BATCH_SIZE
                    DEFAULT_RADIUS w Hperm ltac:(done))
          as (results & w' & Hrun & Hsaved & _ & Hkeys & _).
        exists results, w'. rewrite !bind_run, Hrun.
        split; [done|]. split; [done|].
        split; [by rewrite Hremaining|].
        intros _. apply Hsaved. by rewrite Hremaining.
    + rewrite Hproceed, bool_decide_eq_true_2 by done.
      rewrite bind_run.
      destruct Hfresh as (new_results & w' & -> & Hkeys & Hnew).
      exists new_results, w'. simpl. split; [by destruct new_results|].
      split; [done|]. split; [done|]. done.
  - rewrite Hproceed, bool_decide_eq_true_2 by done.
    rewrite bind_run.
    destruct Hfresh as (new_results & w' & -> & Hkeys & Hnew).
    exists new_results, w'. simpl. split; [by destruct new_results|].
    split; [done|]. split; [done|]. done.
Qed.

Lemma main_analysis_no_outlets (net : Network)
    (as_completed : list Outlet → list Outlet) (resume proceed : string)
    (w : World) :
  main_analysis net as_completed [] resume proceed w = (Ok None, w).
Proof.
  unfold main_analysis. rewrite bind_run. unfold check_resume_point.
  by destruct (progress_file w) as [[|? ?]|].
Qed.

(** An outlet of the sheet has its name among the processed names or is
    one of the remaining outlets. *)
Lemma get_remaining_outlets_split (outlets : list Outlet)
    (existing_results : list OutletResult) (outlet : Outlet) :
  outlet ∈ outlets →
  nama outlet ∈ map Nama_Outlet existing_results
  ∨ outlet ∈ get_remaining_outlets outlets existing_results.
Proof.
  intros Hin. unfold get_remaining_outlets.
  destruct existing_results as [|r rs]; [by right|].
  set (existing_results := r :: rs).
  destruct (decide (nama outlet ∈ map Nama_Outlet existing_results))
    as [Hdone|Hnew]; [by left|].
  right. apply list_elem_of_filter. split; [|done].
  by rewrite elem_of_list_to_set.
Qed.

(** The names of the remaining outlets are not among the processed
    names. *)
Lemma get_remaining_outlets_fresh (outlets : list Outlet)
    (existing_results : list OutletResult) (outlet : Outlet) :
  outlet ∈ get_remaining_outlets outlets existing_results →
  outlet ∈ outlets
  ∧ nama outlet ∉ map Nama_Outlet existing_results.
Proof.
  unfold get_remaining_outlets.
  destruct existing_results as [|r rs].
  - intros Hin. split; [done|]. apply not_elem_of_nil.
  - intros [Hnew Hin]%list_elem_of_filter. split; [done|].
    by rewrite elem_of_list_to_set in Hnew.
Qed.


(** X6: a confirmed session never raises.  If it ends without results, no
    outlet of the sheet has coordinates that parse; if it returns
    results, every outlet of the sheet whose coordinates parse has a
    record under its name in them, taken from the checkpoint or newly
    made. *)
Theorem session_covers_outlets (net : Network)
    (as_completed : list Outlet → list Outlet) (outlets : list Outlet)
    (resume proceed : string) (w : World) :
  (∀ batch, as_completed batch ≡ₚ batch) →
  PyStr.lower proceed = "y" →
  ∃ returned w',
    main_analysis net as_completed outlets resume proceed w
    = (Ok returned, w')
    ∧ match returned with
      | None =>
          ∀ outlet, outlet ∈ outlets →
            is_ok (parse_coordinates (koordinat outlet)) = false
      | Some results =>
          ∀ outlet, outlet ∈ outlets →
            is_ok (parse_coordinates (koordinat outlet)) = true →
            nama outlet ∈ map Nama_Outlet results
      end.
Proof.
  intros Hperm Hproceed.
  destruct (decide (outlets = [])) as [->|Houtlets].
  { exists None, w. rewrite main_analysis_no_outlets. split; [done|].
    intros outlet Hin. by apply elem_of_nil in Hin. }
  destruct (main_analysis_run net as_completed outlets resume proceed w
              Hperm Hproceed Houtlets)
    as (new_results & w' & Hrun & Hkeys & _).
  set (existing_results :=
         match progress_file w with
         | Some existing_results =>
             if bool_decide (PyStr.lower resume = "y") then existing_results
             else []
         | None => []
         end) in *.
  eexists _, w'. split; [exact Hrun|].
  assert (Hnew : ∀ outlet,
            outlet ∈ get_remaining_outlets outlets existing_results →
            is_ok (parse_coordinates (koordinat outlet)) = true →
            nama outlet ∈ map Nama_Outlet new_results).
  { intros outlet Hin Hok.
    assert (Hkey : (nama outlet, koordinat outlet)
                   ∈ map (fun r => (Nama_Outlet r, Koordinat r))
                       new_results).
    { rewrite Hkeys. apply list_elem_of_fmap. exists outlet.
      split; [done|]. by apply list_elem_of_filter. }
    apply list_elem_of_fmap in Hkey as (r & [= Hname _] & Hr).
    rewrite Hname. apply list_elem_of_fmap. by exists r. }
  destruct (existing_results ++ new_results) as [|r rs] eqn:Hresults.
  - apply app_eq_nil in Hresults as [Hexisting ->].
    rewrite Hexisting in Hnew. intros outlet Hin.
    destruct (is_ok (parse_coordinates (koordinat outlet))) eqn:Hok;
      [|done].
    specialize (Hnew outlet Hin Hok). by apply elem_of_nil in Hnew.
  - rewrite <- Hresults. intros outlet Hin Hok.
    rewrite map_app. apply elem_of_app.
    destruct (get_remaining_outlets_split outlets existing_results outlet
                Hin) as [Hdone|Hremaining]; [by left|].
    right. by apply Hnew.
Qed.

(** X7: when the outlets of the sheet have pairwise different names and
    so have the records of the checkpoint, no two records of the results
    of a confirmed session have the same name: resuming never analyses an
    outlet a second time. *)
Theorem session_names_distinct (net : Network)
    (as_completed : list Outlet → list Outlet) (outlets : list Outlet)
    (resume proceed : string) (w : World) :
  (∀ batch, as_completed batch ≡ₚ batch) →
  PyStr.lower proceed = "y" →
  NoDup (map nama outlets) →
  NoDup (map Nama_Outlet (default [] (progress_file w))) →
  ∃ returned w',
    main_analysis net as_completed outlets resume proceed w
    = (Ok returned, w')
    ∧ ∀ results, returned = Some results →
        NoDup (map Nama_Outlet results).
Proof.
  intros Hperm Hproceed Hsheet Hcheckpoint.
  destruct (decide (outlets = [])) as [->|Houtlets].
  { exists None, w. by rewrite main_analysis_no_outlets. }
  destruct (main_analysis_run net as_completed outlets resume proceed w
              Hperm Hproceed Houtlets)
    as (new_results & w' & Hrun & Hkeys & _).
  set (existing_results :=
         match progress_file w with
         | Some existing_results =>
             if bool_decide (PyStr.lower resume = "y") then existing_results
             else []
         | None => []
         end) in *.
  eexists _, w'. split; [exact Hrun|].
  assert (Hexisting : NoDup (map Nama_Outlet existing_results)).
  { subst existing_results.
    destruct (progress_file w) as [existing|]; [|constructor].
    destruct (bool_decide _); [done|constructor]. }
  set (remaining :=
         filter (fun o => is_ok (parse_coordinates (koordinat o)) = true)
           (get_remaining_outlets outlets existing_results)) in *.
  assert (Hnames : map Nama_Outlet new_results ≡ₚ map nama remaining).
  { apply (Permutation_map fst) in Hkeys.
    by rewrite !map_map in Hkeys. }
  assert (Hsub : remaining `sublist_of` outlets).
  { subst remaining. etransitivity; [apply sublist_filter|].
    unfold get_remaining_outlets.
    destruct existing_results; [done|apply sublist_filter]. }
  assert (Hdistinct : NoDup (map Nama_Outlet
                               (existing_results ++ new_results))).
  { rewrite map_app. apply NoDup_app. split; [done|]. split.
    - intros name Hold Hnew. rewrite Hnames in Hnew.
      apply list_elem_of_fmap in Hnew as (outlet & -> & Hin).
      apply list_elem_of_filter in Hin as [_ Hin].
      by apply get_remaining_outlets_fresh in Hin as [_ Hfresh].
    - rewrite Hnames. apply (sublist_NoDup _ (map nama outlets));
        [exact Hsheet|by apply (fmap_sublist nama)]. }
  intros results Hresults.
  destruct (existing_results ++ new_results) as [|r rs] eqn:Happ;
    [done|]. by injection Hresults as <-.
Qed.

(** ** Radius escalation and the checkpoint *)

(** The outlets queued for escalation are those of the records without a
    facility, in the order of the list. *)
Lemma find_without_facilities_queue (i : nat) (results : list OutletResult) :
  (find_without_facilities i results).1
  = map (fun r => {| nama := Nama_Outlet r; koordinat := Koordinat r |})
      (filter (fun r => has_facility r = false) results).
Proof.
  revert i. induction results as [|result rest IH]; intros i; [done|].
  cbn [find_without_facilities]. specialize (IH (S i)).
  destruct (find_without_facilities (S i) rest) as [outlets indices].
  simpl in IH. rewrite filter_cons.
  destruct (decide (has_facility result = false)) as [Hnone|Hsome].
  - rewrite Hnone. simpl. by rewrite IH.
  - apply not_false_iff_true in Hsome. by rewrite Hsome.
Qed.

(** X8: when every record has at least one facility, the escalation pass
    returns the list as it is, sends no request and leaves the cache and
    the checkpoint untouched. *)
Theorem escalation_nothing_to_do (net : Network)
    (as_completed : list Outlet → list Outlet)
    (results : list OutletResult) (new_radius : Z) (w : World) :
  (∀ r, r ∈ results → has_facility r = true) →
  increase_detection_radius net as_completed results new_radius w
  = (Ok results, w).
Proof.
  intros Hall. unfold increase_detection_radius.
  pose proof (find_without_facilities_queue 0 results) as Hqueue.
  destruct (find_without_facilities 0 results) as [outlets indices].
  simpl in Hqueue. rewrite Hqueue.
  replace (filter (fun r => has_facility r = false) results)
    with (@nil OutletResult); [done|].
  symmetry. clear -Hall. induction results as [|r rs IH]; [done|].
  rewrite filter_cons_False by (rewrite Hall; [done|by left]).
  apply IH. intros r' Hr'. apply Hall. by right.
Qed.


(** ** More on the summary report *)

Lemma facility_count_bound (result : OutletResult) :
  facility_count result ≤ 9.
Proof.
  unfold facility_count. etransitivity; [apply length_filter|done].
Qed.

Lemma facility_count_zero (result : OutletResult) :
  has_facility result = false ↔ facility_count result = 0.
Proof.
  unfold has_facility, facility_count.
  induction categories as [|c cs IH]; [done|].
  cbn [existsb]. rewrite filter_cons.
  destruct (decide (get_flag result c = true)) as [Hset|Hclear].
  - rewrite Hset. simpl. split; [done|lia].
  - apply not_true_iff_false in Hclear. by rewrite Hclear.
Qed.

(** X10: in the report of a non-empty list, no category count exceeds the
    number of outlets, the largest facility count is at most 9 and some
    outlet is named as best.  When no record has any facility the largest
    count is 0 and every outlet is listed among the best. *)
Theorem generate_summary_report_bounds (results : list OutletResult) :
  results ≠ [] →
  ∃ report,
    generate_summary_report results = Some report
    ∧ (∀ category count percentage,
         category_stats report !! category = Some (count, percentage) →
         count ≤ length results)
    ∧ max_facilities report ≤ 9
    ∧ best_outlets report ≠ []
    ∧ ((∀ r, r ∈ results → has_facility r = false) →
       max_facilities report = 0
       ∧ best_outlets report = map Nama_Outlet results).
Proof.
  intros Hne. unfold generate_summary_report.
  pose proof (find_best_invariant results [] 0 [] eq_refl) as Hinv.
  destruct (find_best results 0 []) as [m best].
  simpl in Hinv.
  destruct Hinv as (Hbest & Hle & Hmax);
    [intros r Hr; by apply elem_of_nil in Hr | by left |].
  assert (Hreach : ∃ r, r ∈ results ∧ facility_count r = m).
  { destruct Hmax as [->|?]; [|done].
    destruct results as [|r0 rs]; [done|]. exists r0. split; [by left|].
    pose proof (Hle r0 ltac:(by left)). lia. }
  destruct results as [|r0 rs]; [done|].
  set (results := r0 :: rs) in *.
  eexists. split; [reflexivity|].
  cbn [total_outlets category_stats max_facilities best_outlets].
  split; [|split; [|split]].
  - intros category count percentage.
    rewrite count_categories_lookup.
    destruct (decide _); [|by rewrite lookup_empty].
    intros [= <- <-].
    apply length_filter.
  - destruct Hreach as (r & _ & <-). apply facility_count_bound.
  - destruct Hreach as (r & Hr & Hcount). rewrite Hbest.
    intros Hnil%fmap_nil_inv.
    assert (Hin : r ∈ filter (fun r => facility_count r = m) results)
      by (by apply list_elem_of_filter).
    rewrite Hnil in Hin. by apply elem_of_nil in Hin.
  - intros Hnone.
    assert (Hzero : m = 0).
    { destruct Hreach as (r & Hr & <-).
      apply facility_count_zero. by apply Hnone. }
    split; [done|]. rewrite Hbest, Hzero. f_equal.
    clear -Hnone. induction results as [|r rs' IH]; [done|].
    rewrite filter_cons_True.
    + f_equal. apply IH. intros r' Hr'. apply Hnone. by right.
    + apply facility_count_zero. apply Hnone. by left.
Qed.

End SessionProperties.

(** ** The manual review *)

Section ReviewProperties.

Context `{PyFloat}.

Lemma get_set_flag (result : OutletResult) (category category' : string)
    (value : bool) :
  category ∈ categories →
  get_flag (set_flag result category value) category'
  = if bool_decide (category' = category) then value
    else get_flag result category'.
Proof.
  intros Hin. unfold categories in Hin.
  repeat (apply elem_of_cons in Hin as [->|Hin];
          [unfold get_flag, set_flag; cbn -[bool_decide];
           repeat (case_bool_decide; simplify_eq; try done)|]).
  by apply elem_of_nil in Hin.
Qed.

Lemma correct_categories_identity (cats : list string)
    (result corrected : OutletResult) (stdin rest : list string) :
  correct_categories cats result stdin = Some (corrected, rest) →
  Nama_Outlet corrected = Nama_Outlet result
  ∧ Koordinat corrected = Koordinat result
  ∧ Latitude corrected = Latitude result
  ∧ Longitude corrected = Longitude result
  ∧ Error corrected = Error result.
Proof.
  revert result stdin. induction cats as [|category cats IH];
    intros result stdin.
  - by intros [= <- <-].
  - cbn [correct_categories]. destruct stdin as [|response stdin]; [done|].
    simpl. intros Hrest. apply IH in Hrest.
    by repeat case_bool_decide.
Qed.

Lemma validate_loop_acc (results acc : list OutletResult)
    (stdin : list string) :
  validate_loop results acc stdin
  = prod_map (app acc) id <$> validate_loop results [] stdin.
Proof.
  revert acc stdin. induction results as [|result results IH];
    intros acc stdin.
  - simpl. by rewrite app_nil_r.
  - cbn [validate_loop]. destruct stdin as [|correct stdin]; [done|].
    cbn -[correct_categories categories validate_loop].
    destruct (bool_decide (PyStr.lower correct = "y")).
    + destruct (correct_categories categories result stdin)
        as [[corrected rest]|]; [|done].
      cbn -[validate_loop].
      rewrite (IH (acc ++ [corrected])), (IH [corrected]).
      destruct (validate_loop results [] rest) as [[out rest']|]; [|done].
      cbn. by rewrite <- app_assoc.
    + rewrite (IH (acc ++ [result])), (IH [result]).
      destruct (validate_loop results [] stdin) as [[out rest']|]; [|done].
      cbn. by rewrite <- app_assoc.
Qed.

(** The review of a list, record by record. *)
Lemma validate_and_correct_results_cons (result : OutletResult)
    (results : list OutletResult) (stdin : list string) :
  validate_and_correct_results (result :: results) stdin
  = '(correct, stdin) ← input stdin;
    '(entry, stdin) ←
      (if bool_decide (PyStr.lower correct = "y")
       then correct_categories categories result stdin
       else Some (result, stdin));
    '(corrected_results, stdin) ← validate_and_correct_results results stdin;
    Some (entry :: corrected_results, stdin).
Proof.
  unfold validate_and_correct_results. cbn [validate_loop].
  destruct stdin as [|correct stdin]; [done|].
  cbn -[correct_categories categories validate_loop].
  destruct (bool_decide (PyStr.lower correct = "y")).
  - destruct (correct_categories categories result stdin)
      as [[corrected rest]|]; [|done].
    cbn -[validate_loop]. rewrite validate_loop_acc.
    by destruct (validate_loop results [] rest) as [[out rest']|].
  - cbn -[validate_loop]. rewrite validate_loop_acc.
    by destruct (validate_loop results [] stdin) as [[out rest']|].
Qed.

(** X11: the manual review returns one record for each record it was
    given, in the same order, and changes nothing but category flags:
    name, coordinate text, latitude, longitude and the ['Error'] entry of
    every record are as before. *)
Theorem validate_and_correct_results_identity
    (results corrected_results : list OutletResult)
    (stdin rest : list string) :
  validate_and_correct_results results stdin
  = Some (corrected_results, rest) →
  Forall2 (fun result corrected =>
             Nama_Outlet corrected = Nama_Outlet result
             ∧ Koordinat corrected = Koordinat result
             ∧ Latitude corrected = Latitude result
             ∧ Longitude corrected = Longitude result
             ∧ Error corrected = Error result)
          results corrected_results.
Proof.
  revert corrected_results stdin.
  induction results as [|result results IH]; intros corrected_results stdin.
  - intros [= <- <-]. constructor.
  - rewrite validate_and_correct_results_cons.
    destruct stdin as [|correct stdin]; [done|].
    cbn -[correct_categories categories validate_and_correct_results].
    destruct (bool_decide (PyStr.lower correct = "y")).
    + destruct (correct_categories categories result stdin)
        as [[corrected stdin1]|] eqn:Hcorrect; [|done].
      cbn -[validate_and_correct_results].
      destruct (validate_and_correct_results results stdin1)
        as [[out stdin2]|] eqn:Hrest; [|done].
      cbn. intros [= <- <-]. constructor.
      * by apply correct_categories_identity in Hcorrect.
      * by eapply IH.
    + cbn -[validate_and_correct_results].
      destruct (validate_and_correct_results results stdin)
        as [[out stdin2]|] eqn:Hrest; [|done].
      cbn. intros [= <- <-]. constructor; [done|]. by eapply IH.
Qed.

(** X12: when the user declines the correction of every outlet (any
    answer but [y] or [Y]), the review reads one line for each record and
    returns the records unchanged. *)
Theorem validate_and_correct_results_declined
    (results : list OutletResult) (answers stdin : list string) :
  length answers = length results →
  (∀ answer, answer ∈ answers → PyStr.lower answer ≠ "y") →
  validate_and_correct_results results (answers ++ stdin)
  = Some (results, stdin).
Proof.
  revert answers. induction results as [|result results IH];
    intros [|answer answers] Hlength Hdeclined; try done.
  rewrite validate_and_correct_results_cons.
  cbn -[correct_categories categories validate_and_correct_results].
  rewrite bool_decide_eq_false_2 by (apply Hdeclined; by left).
  cbn -[validate_and_correct_results].
  rewrite IH; [done|by injection Hlength|].
  intros a Ha. apply Hdeclined. by right.
Qed.

Lemma correct_categories_flags (cats : list string)
    (result : OutletResult) (responses stdin : list string) :
  length responses = length cats →
  NoDup cats →
  (∀ category, category ∈ cats → category ∈ categories) →
  ∃ corrected,
    correct_categories cats result (responses ++ stdin)
    = Some (corrected, stdin)
    ∧ (∀ i category response,
         cats !! i = Some category → responses !! i = Some response →
         get_flag corrected category
         = if bool_decide (PyStr.lower response = "y") then true
           else if bool_decide (PyStr.lower response = "n") then false
           else get_flag result category)
    ∧ (∀ category, category ∉ cats →
         get_flag corrected category = get_flag result category).
Proof.
  revert result responses. induction cats as [|category cats IH];
    intros result [|response responses] Hlength Hnodup Hknown; try done.
  - exists result. split; [done|]. split; [|done].
    intros i ? ? Hi. by rewrite lookup_nil in Hi.
  - apply NoDup_cons in Hnodup as [Hfresh Hnodup].
    cbn [correct_categories]. simpl.
    set (result1 :=
           if bool_decide (PyStr.lower response = "y")
           then set_flag result category true
           else if bool_decide (PyStr.lower response = "n")
           then set_flag result category false
           else result).
    destruct (IH result1 responses) as (corrected & Hrun & Hset & Hkeep);
      [by injection Hlength|done|by intros c Hc; apply Hknown; right|].
    assert (Hknown0 : category ∈ categories) by (apply Hknown; by left).
    assert (Hfirst : ∀ c,
              get_flag result1 c
              = if bool_decide (c = category)
                then if bool_decide (PyStr.lower response = "y") then true
                     else if bool_decide (PyStr.lower response = "n")
                     then false
                     else get_flag result c
                else get_flag result c).
    { intros c. subst result1.
      repeat case_bool_decide; rewrite ?get_set_flag by done;
        repeat case_bool_decide; simplify_eq; done. }
    exists corrected. split; [done|]. split.
    + intros [|i] c r; simpl.
      * intros [= <-] [= <-]. rewrite (Hkeep category Hfresh), Hfirst.
        by rewrite bool_decide_eq_true_2.
      * intros Hc Hr. rewrite (Hset i c r Hc Hr).
        rewrite Hfirst, (bool_decide_eq_false_2 (c = category)); [done|].
        intros ->. apply Hfresh. by eapply list_elem_of_lookup_2.
    + intros c Hc. apply not_elem_of_cons in Hc as [Hne Hc].
      rewrite (Hkeep c Hc), Hfirst. by rewrite bool_decide_eq_false_2.
Qed.

(** X13: when the user accepts the correction of the first record and
    then types one line for each of the nine categories, the corrected
    record has the flag of a category set where the line is [y] or [Y],
    cleared where it is [n] or [N], and as before for any other line; the
    review goes on with the next record and the lines that follow. *)
Theorem validate_and_correct_results_corrected
    (result : OutletResult) (results : list OutletResult)
    (correct : string) (responses stdin : list string) :
  PyStr.lower correct = "y" →
  length responses = 9 →
  ∃ corrected,
    validate_and_correct_results (result :: results)
      (correct :: responses ++ stdin)
    = prod_map (cons corrected) id
        <$> validate_and_correct_results results stdin
    ∧ ∀ i category response,
        categories !! i = Some category → responses !! i = Some response →
        get_flag corrected category
        = if bool_decide (PyStr.lower response = "y") then true
          else if bool_decide (PyStr.lower response = "n") then false
          else get_flag result category.
Proof.
  intros Hcorrect Hlength.
  destruct (correct_categories_flags categories result responses stdin)
    as (corrected & Hrun & Hflags & _);
    [done|by apply (bool_decide_unpack _)|done|].
  exists corrected. split; [|done].
  rewrite validate_and_correct_results_cons.
  cbn -[correct_categories categories validate_and_correct_results].
  rewrite bool_decide_eq_true_2, Hrun by done.
  cbn -[validate_and_correct_results].
  by destruct (validate_and_correct_results results stdin) as [[out rest]|].
Qed.

End ReviewProperties.

(** ** More on Python strings *)

Module PyStrMore.

Import PyStr.

#[local] Arguments String.append !_ _ / : simpl nomatch.

Lemma rstrip_app_ws (t ws : string) :
  all_space ws = true → rstrip (t +:+ ws) = rstrip t.
Proof.
  intros Hws. induction t as [|c t IH]; simpl.
  - by apply PyStrFacts.rstrip_all_space.
  - by rewrite IH.
Qed.

Lemma strip_app_ws (s ws : string) :
  all_space ws = true → strip (s +:+ ws) = strip s.
Proof.
  intros Hws. unfold strip. induction s as [|c s IH]; simpl.
  - by rewrite PyStrFacts.lstrip_only_space.
  - destruct (is_space c); [done|].
    by apply (rstrip_app_ws (String c s)).
Qed.

(** Whitespace around a text does not change what [strip] gives. *)
Lemma strip_pad (ws1 s ws2 : string) :
  all_space ws1 = true → all_space ws2 = true →
  strip (ws1 +:+ s +:+ ws2) = strip s.
Proof.
  intros H1 H2. unfold strip. rewrite PyStrFacts.lstrip_all_space by done.
  by apply strip_app_ws.
Qed.





Lemma strip_all_space (ws : string) :
  all_space ws = true → strip ws = EmptyString.
Proof.
  intros Hws. unfold strip. by rewrite PyStrFacts.lstrip_only_space.
Qed.

Lemma split_char_length (sep : ascii) (s : string) :
  1 ≤ length (split_char sep s).
Proof.
  induction s as [|c s IH]; simpl; [done|].
  destruct (Ascii.eqb c sep); simpl; [lia|].
  destruct (split_char sep s); simpl in *; lia.
Qed.

Lemma split_char_app_length (sep : ascii) (s t : string) :
  length (split_char sep (s +:+ String sep t))
  = length (split_char sep s) + length (split_char sep t).
Proof.
  induction s as [|c s IH]; simpl.
  - by rewrite Ascii.eqb_refl.
  - destruct (Ascii.eqb c sep); simpl; [by rewrite IH|].
    pose proof (split_char_length sep (s +:+ String sep t)).
    pose proof (split_char_length sep s).
    destruct (split_char sep (s +:+ String sep t)),
             (split_char sep s); simpl in *; lia.
Qed.

Lemma split_char_cons_length (sep c : ascii) (s : string) :
  length (split_char sep (String c s))
  = (if Ascii.eqb c sep then 1 else 0) + length (split_char sep s).
Proof.
  simpl. pose proof (split_char_length sep s).
  destruct (Ascii.eqb c sep); [done|].
  destruct (split_char sep s); simpl in *; lia.
Qed.

Lemma split_char_lstrip_length (sep : ascii) (s : string) :
  is_space sep = false →
  length (split_char sep (lstrip s)) = length (split_char sep s).
Proof.
  intros Hsep. induction s as [|c s IH]; [done|].
  cbn [lstrip]. destruct (is_space c) eqn:Hc; [|done].
  rewrite split_char_cons_length, IH.
  destruct (Ascii.eqb_spec c sep); [congruence|done].
Qed.

Lemma split_char_rstrip_length (sep : ascii) (s : string) :
  is_space sep = false →
  length (split_char sep (rstrip s)) = length (split_char sep s).
Proof.
  intros Hsep. induction s as [|c s IH]; [done|].
  rewrite split_char_cons_length. cbn [rstrip].
  destruct (rstrip s) as [|c' r] eqn:E.
  - rewrite <- IH. destruct (is_space c) eqn:Hc.
    + destruct (Ascii.eqb_spec c sep); [congruence|done].
    + by rewrite split_char_cons_length.
  - by rewrite split_char_cons_length, IH.
Qed.

Lemma split_char_strip_length (sep : ascii) (s : string) :
  is_space sep = false →
  length (split_char sep (strip s)) = length (split_char sep s).
Proof.
  intros Hsep. unfold strip.
  by rewrite split_char_rstrip_length, split_char_lstrip_length.
Qed.

Lemma has_char_replace_char (old new c : ascii) (s : string) :
  c ≠ new →
  has_char c (replace_char old new s)
  = has_char c s && negb (Ascii.eqb c old).
Proof.
  intros Hnew.
  induction s as [|a s IH]; simpl; [done|]. rewrite IH.
  destruct (Ascii.eqb_spec a old) as [->|Hold].
  - rewrite (proj2 (Ascii.eqb_neq new c)) by done. simpl.
    destruct (Ascii.eqb_spec old c) as [->|Hne].
    + rewrite Ascii.eqb_refl. simpl. by rewrite andb_false_r.
    + simpl. done.
  - destruct (Ascii.eqb_spec a c) as [->|Hne]; simpl; [|done].
    by rewrite (proj2 (Ascii.eqb_neq c old)).
Qed.

End PyStrMore.

(** ** The coordinate parser, the sheet loader and the file names *)

Section LoaderProperties.

Context `{PyFloat}.

(** X14: whitespace before and after a coordinate text makes no
    difference to [parse_coordinates], neither to the floats returned nor
    to the message of the error raised. *)
Theorem parse_coordinates_ignores_padding (ws1 coord_str ws2 : string) :
  PyStr.all_space ws1 = true →
  PyStr.all_space ws2 = true →
  parse_coordinates (ws1 +:+ coord_str +:+ ws2)
  = parse_coordinates coord_str.
Proof.
  intros H1 H2. unfold parse_coordinates.
  by rewrite PyStrMore.strip_pad.
Qed.

(** X15: an empty or blank coordinate text is rejected: the [ValueError]
    quotes the empty text and gives the invalid format as the reason. *)
Theorem parse_coordinates_blank (coord_str : string) :
  PyStr.all_space coord_str = true →
  parse_coordinates coord_str
  = Raise (ValueError
             "Error saat parsing koordinat '': Format koordinat tidak valid: ").
Proof.
  intros Hblank. unfold parse_coordinates.
  by rewrite PyStrMore.strip_all_space.
Qed.

(** X16: a text with two or more commas is rejected, whatever stands
    between them: a comma always separates, so coordinates written with
    decimal commas do not parse. *)
Theorem parse_coordinates_two_commas (a b c : string) :
  let coord_str := a +:+ "," +:+ b +:+ "," +:+ c in
  parse_coordinates coord_str
  = Raise (ValueError
             ("Error saat parsing koordinat '" +:+ PyStr.strip coord_str
              +:+ "': Format koordinat tidak valid: "
              +:+ PyStr.strip coord_str)).
Proof.
  cbv zeta. unfold parse_coordinates, parse_parts.
  set (coord_str := a +:+ "," +:+ b +:+ "," +:+ c).
  assert (Hparts : 3 ≤ length (PyStr.split_char "," (PyStr.strip coord_str))).
  { rewrite PyStrMore.split_char_strip_length by done. subst coord_str.
    change (a +:+ "," +:+ b +:+ "," +:+ c)
      with (a +:+ String "," (b +:+ String "," c)).
    rewrite !PyStrMore.split_char_app_length.
    pose proof (PyStrMore.split_char_length "," a).
    pose proof (PyStrMore.split_char_length "," b).
    pose proof (PyStrMore.split_char_length "," c). lia. }
  destruct (PyStr.has_char "," (PyStr.strip coord_str)) eqn:Hcomma.
  - destruct (PyStr.split_char "," (PyStr.strip coord_str))
      as [|p0 [|p1 [|p2 rest]]]; simpl in Hparts; try lia; done.
  - rewrite PyStrFacts.split_char_no_sep in Hparts by done.
    simpl in Hparts. lia.
Qed.



(** The loader returns nothing, or what the loop over the rows makes of
    a sheet of at least fifteen records for some pair of columns. *)
Lemma load_data_from_spreadsheet_shape (sheet : option (list Row)) :
  load_data_from_spreadsheet sheet = []
  ∨ ∃ data name_column coord_column,
      sheet = Some data ∧ 15 ≤ length data
      ∧ load_data_from_spreadsheet sheet
        = omap (row_outlet name_column coord_column) data.
Proof.
  unfold load_data_from_spreadsheet.
  destruct sheet as [data|]; [|by left].
  destruct data as [|row0 data']; [by left|].
  set (data := row0 :: data').
  destruct (data !! 14) as [sample_row|] eqn:Hsample; [|by left].
  apply lookup_lt_Some in Hsample.
  cbn [mbind option_bind]. cbv zeta.
  set (column_keys := map fst sample_row).
  destruct (if no_column (find_column "NAMA TOKO" column_keys)
               && negb (bool_decide (column_keys = []))
            then Some <$> column_keys !! 4
            else Some (find_column "NAMA TOKO" column_keys))
    as [name_column|]; [|by left].
  cbn [mbind option_bind].
  destruct (if no_column (find_column "MAPS" column_keys)
               && (1 <? length column_keys)
            then Some <$> column_keys !! 16
            else Some (find_column "MAPS" column_keys))
    as [coord_column|]; [|by left].
  cbn [mbind option_bind default].
  destruct name_column as [name_column|]; [|by left].
  destruct coord_column as [coord_column|]; [|by left].
  destruct (_ || _); [by left|].
  right. exists data, name_column, coord_column.
  split; [done|]. split; [exact Hsample|done].
Qed.


(** X17: a sheet that cannot be read, or that has fewer than fifteen
    records, yields no outlet at all, whatever its rows hold: the column
    headers are read from the fifteenth record. *)
Theorem load_data_from_spreadsheet_short_sheet (sheet : option (list Row)) :
  (∀ data, sheet = Some data → length data < 15) →
  load_data_from_spreadsheet sheet = [].
Proof.
  intros Hshort.
  destruct (load_data_from_spreadsheet_shape sheet)
    as [Hnone|(data & _ & _ & Hsheet & Hlength & _)]; [done|].
  specialize (Hshort data Hsheet). lia.
Qed.



(** The file names of the configuration. *)
Lemma PROVINCE_FILENAMES_values (province_name filename : string) :
  PROVINCE_FILENAMES !! province_name = Some filename →
  filename ∈ ["dki_jakarta"; "jawa_barat"; "jawa_tengah";
              "sumatera_selatan"; "sumatera_utara"; "jatimbanuskal";
              "sulter"].
Proof.
  unfold PROVINCE_FILENAMES. intros Hconf.
  repeat (apply lookup_insert_Some in Hconf as [[_ <-]|[_ Hconf]];
          [by repeat constructor|]).
  apply lookup_singleton_Some in Hconf as [_ <-]. by repeat constructor.
Qed.

(** X20: the file name of a province never contains a space or a slash,
    for the provinces of the configuration as for any other name, and
    the name of its map file is that file name between the prefix
    [peta_outlet_] and the suffix [.html]. *)
Theorem get_province_filename_safe (province_name : string) :
  PyStr.has_char " " (get_province_filename province_name) = false
  ∧ PyStr.has_char "/" (get_province_filename province_name) = false
  ∧ get_province_map_filename province_name
    = "peta_outlet_" +:+ get_province_filename province_name +:+ ".html".
Proof.
  assert (Hconfigured : ∀ filename,
            PROVINCE_FILENAMES !! province_name = Some filename →
            PyStr.has_char " " filename = false
            ∧ PyStr.has_char "/" filename = false).
  { intros filename Hconf%PROVINCE_FILENAMES_values.
    repeat (apply elem_of_cons in Hconf as [->|Hconf];
            [split; reflexivity|]).
    by apply elem_of_nil in Hconf. }
  unfold get_province_map_filename, get_province_filename.
  destruct (PROVINCE_FILENAMES !! province_name) as [filename|].
  - destruct (Hconfigured filename eq_refl) as [Hspace Hslash].
    split; [exact Hspace|]. split; [exact Hslash|]. reflexivity.
  - split; [|split; [|reflexivity]].
    + rewrite (PyStrMore.has_char_replace_char "/" "_" " ") by discriminate.
      rewrite (PyStrMore.has_char_replace_char " " "_" " ") by discriminate.
      rewrite Ascii.eqb_refl. cbn [negb]. by rewrite andb_false_r.
    + rewrite (PyStrMore.has_char_replace_char "/" "_" "/") by discriminate.
      rewrite Ascii.eqb_refl. cbn [negb]. by rewrite andb_false_r.
Qed.

End LoaderProperties.

(** ** The further properties on sample inputs *)

Module SessionChecks.

Import Examples.

Import Samples.

#[local] Existing Instance Decimal.floats.

Lemma rev_permutes (batch : list Outlet) : rev batch ≡ₚ batch.
Proof. symmetry. apply Permutation_rev. Qed.

(** With every endpoint out of reach Outlet A gets the all-false record;
    the same call on a network that now reports a restaurant next door
    returns that record again. *)
Lemma cached_result_is_replayed_witness :
  ∃ (result : OutletResult) (w' : World),
    process_outlet_with_retry net_down outlet_a 2 DEFAULT_RADIUS fresh_world
    = (Ok (Some result), w')
    ∧ has_facility result = false
    ∧ process_outlet_with_retry net_warung outlet_a 2 DEFAULT_RADIUS w'
      = (Ok (Some result),
         {| api_cache := api_cache w'; requests := requests w';
            attempts := S (attempts w');
            progress_file := progress_file w' |}).
Proof.
  destruct (process_outlet_with_retry net_down outlet_a 2 DEFAULT_RADIUS
              fresh_world) as [returned w'] eqn:Hfirst.
  assert (Hval : (process_outlet_with_retry net_down outlet_a 2
                    DEFAULT_RADIUS fresh_world).1
                 = Ok (Some (record_of outlet_a (Qmake (-62) 10)
                               (Qmake 1068 10) false false)))
    by reflexivity.
  rewrite Hfirst in Hval. simpl in Hval. subst returned.
  eexists _, w'. split; [reflexivity|]. split; [reflexivity|].
  apply (cached_result_is_replayed net_down net_warung outlet_a 2 2
           DEFAULT_RADIUS fresh_world w' _ Hfirst).
  - reflexivity.
  - discriminate.
Defined.

Lemma batch_process_outlets_cost_witness :
  ∃ results w',
    batch_process_outlets net_down (@rev Outlet)
      [outlet_a; outlet_c; outlet_b] 2 DEFAULT_RADIUS fresh_world
    = (Ok results, w')
    ∧ length results ≤ 3
    ∧ attempts fresh_world ≤ attempts w' ≤ attempts fresh_world + 2 * 3
    ∧ requests fresh_world ≤ requests w' ≤ requests fresh_world + 54 * 3.
Proof.
  apply (batch_process_outlets_cost net_down (@rev Outlet)
           [outlet_a; outlet_c; outlet_b] 2 DEFAULT_RADIUS fresh_world).
  - exact rev_permutes.
  - discriminate.
Defined.



Lemma session_covers_outlets_witness :
  ∃ returned w',
    main_analysis net_down (@rev Outlet) [outlet_a; outlet_c; outlet_b]
      "y" "y" world_resumed
    = (Ok returned, w')
    ∧ match returned with
      | None =>
          ∀ outlet, outlet ∈ [outlet_a; outlet_c; outlet_b] →
            is_ok (parse_coordinates (koordinat outlet)) = false
      | Some results =>
          ∀ outlet, outlet ∈ [outlet_a; outlet_c; outlet_b] →
            is_ok (parse_coordinates (koordinat outlet)) = true →
            nama outlet ∈ map Nama_Outlet results
      end.
Proof.
  apply (session_covers_outlets net_down (@rev Outlet)
           [outlet_a; outlet_c; outlet_b] "y" "y" world_resumed).
  - exact rev_permutes.
  - reflexivity.
Defined.

Lemma session_names_distinct_witness :
  ∃ returned w',
    main_analysis net_down (@rev Outlet) [outlet_a; outlet_c; outlet_b]
      "y" "y" world_resumed
    = (Ok returned, w')
    ∧ ∀ results, returned = Some results →
        NoDup (map Nama_Outlet results).
Proof.
  apply (session_names_distinct net_down (@rev Outlet)
           [outlet_a; outlet_c; outlet_b] "y" "y" world_resumed).
  - exact rev_permutes.
  - reflexivity.
  - apply (bool_decide_unpack _). reflexivity.
  - apply (bool_decide_unpack _). reflexivity.
Defined.

Lemma escalation_nothing_to_do_witness :
  increase_detection_radius net_down (@rev Outlet) [record_a] LARGER_RADIUS
    fresh_world
  = (Ok [record_a], fresh_world).
Proof.
  apply (escalation_nothing_to_do net_down (@rev Outlet) [record_a]
           LARGER_RADIUS fresh_world).
  intros r Hr. apply list_elem_of_singleton in Hr. rewrite Hr. reflexivity.
Defined.


Lemma increase_detection_radius_in_order_witness :
  ∃ updated w',
    increase_detection_radius net_down (fun batch => batch)
      [record_a; record_b] LARGER_RADIUS fresh_world
    = (Ok updated, w')
    ∧ ∃ r', updated !! 1 = Some r'
            ∧ Nama_Outlet r' = "Outlet B"
            ∧ Koordinat r' = "-7.78 110.37".
Proof.
  destruct (increase_detection_radius_in_order net_down (fun batch => batch)
              [record_a; record_b] LARGER_RADIUS fresh_world)
    as (updated & w' & Hrun & Hsame).
  - reflexivity.
  - intros r Hr Hnone. apply elem_of_cons in Hr as [Hr|Hr].
    + rewrite Hr in Hnone. discriminate Hnone.
    + apply list_elem_of_singleton in Hr. rewrite Hr. reflexivity.
  - exists updated, w'. split; [exact Hrun|].
    apply (Hsame 1 record_b); reflexivity.
Defined.

Lemma generate_summary_report_bounds_witness :
  ∃ report,
    generate_summary_report [record_b] = Some report
    ∧ max_facilities report = 0
    ∧ best_outlets report = ["Outlet B"].
Proof.
  destruct (generate_summary_report_bounds [record_b] ltac:(discriminate))
    as (report & Hreport & _ & _ & _ & Hnone).
  exists report. split; [exact Hreport|]. apply Hnone.
  intros r Hr. apply list_elem_of_singleton in Hr. rewrite Hr. reflexivity.
Defined.

Lemma validate_and_correct_results_identity_witness :
  Forall2 (fun result corrected =>
             Nama_Outlet corrected = Nama_Outlet result
             ∧ Koordinat corrected = Koordinat result
             ∧ Latitude corrected = Latitude result
             ∧ Longitude corrected = Longitude result
             ∧ Error corrected = Error result)
          [record_a; record_b]
          [record_a; set_flag record_b "Culinary" true].
Proof.
  apply (validate_and_correct_results_identity [record_a; record_b]
           [record_a; set_flag record_b "Culinary" true]
           ["n"; "y"; "-"; "-"; "-"; "Y"; "-"; "-"; "-"; "-"; "-"; "unread"]
           ["unread"]).
  reflexivity.
Defined.

Lemma validate_and_correct_results_declined_witness :
  validate_and_correct_results [record_a; record_b] (["n"; "-"] ++ ["unread"])
  = Some ([record_a; record_b], ["unread"]).
Proof.
  apply (validate_and_correct_results_declined [record_a; record_b]
           ["n"; "-"] ["unread"]).
  - reflexivity.
  - intros answer Hin. apply elem_of_cons in Hin as [Hin|Hin].
    + rewrite Hin. discriminate.
    + apply list_elem_of_singleton in Hin. rewrite Hin. discriminate.
Defined.

Lemma validate_and_correct_results_corrected_witness :
  ∃ corrected,
    validate_and_correct_results [record_b]
      ("Y" :: ["y"; "-"; "-"; "N"; "-"; "-"; "-"; "-"; "x"] ++ [])
    = Some ([corrected], [])
    ∧ get_flag corrected "Residential" = true
    ∧ get_flag corrected "Culinary" = false.
Proof.
  destruct (validate_and_correct_results_corrected record_b [] "Y"
              ["y"; "-"; "-"; "N"; "-"; "-"; "-"; "-"; "x"] [] eq_refl eq_refl)
    as (corrected & Hrun & Hflags).
  exists corrected. split; [exact Hrun|]. split.
  - apply (Hflags 0 "Residential" "y"); reflexivity.
  - apply (Hflags 3 "Culinary" "N"); reflexivity.
Defined.

Lemma parse_coordinates_ignores_padding_witness :
  parse_coordinates ("  " +:+ "-6.2, 106.8" +:+ " ")
  = parse_coordinates "-6.2, 106.8".
Proof.
  apply (parse_coordinates_ignores_padding "  " "-6.2, 106.8" " ");
    reflexivity.
Defined.

Lemma parse_coordinates_blank_witness :
  parse_coordinates "   "
  = Raise (ValueError
             "Error saat parsing koordinat '': Format koordinat tidak valid: ").
Proof. apply (parse_coordinates_blank "   "). reflexivity. Defined.

Lemma load_data_from_spreadsheet_short_sheet_witness :
  load_data_from_spreadsheet (Some (take 14 Samples.sheet)) = [].
Proof.
  apply (load_data_from_spreadsheet_short_sheet
           (Some (take 14 Samples.sheet))).
  intros data Hdata. injection Hdata as Hdata. rewrite <- Hdata.
  apply (bool_decide_unpack _). reflexivity.
Defined.





(** The sample sheet: the row without coordinates is passed over, the
    names are stripped and the coordinates printed again. *)
Lemma sample_sheet_loads :
  length (@load_data_from_spreadsheet Literal.floats (Some Samples.sheet))
  = 14
  ∧ @load_data_from_spreadsheet Literal.floats (Some Samples.sheet) !! 0
    = Some {| nama := "Toko Maju"; koordinat := "-7.78, 110.37" |}.
Proof. split; reflexivity. Qed.

End SessionChecks.
